(** * DSGoPipeline: the model-selection DAG of [4_airflow/mlflow_dag.py]

    A shallow embedding of the five task callables of the DAG
    ([process_data], [make_lr], [make_rf], [get_best_model],
    [register_best_model]) and of [eval_metrics], together with the parts
    of the NumPy, scikit-learn, MLflow and Airflow APIs they call.

    Numbers.  A Python float is a finite value, an infinity or NaN
    ([pyfloat]).  A finite float is given by the real number it denotes;
    an operation on finite floats gives the exact result rounded, and the
    rounding may overflow to an infinity or underflow to zero ([format]).
    The sign of a zero is not kept. *)

From Stdlib Require Import Reals Lra ZArith Ascii.
From stdpp Require Import gmap strings list pretty.

Local Open Scope string_scope.

(** ** Python values *)

(** A float: a finite value, given by the real number it denotes, an
    infinity, or NaN.  The sign of a zero is not kept. *)
Inductive pyfloat : Type :=
  | Num (r : R)
  | PInf
  | NInf
  | NaN.

Definition is_nan (x : pyfloat) : bool :=
  match x with NaN => true | _ => false end.

Definition Rleb (x y : R) : bool := if Rle_dec x y then true else false.
Definition Rltb (x y : R) : bool := if Rlt_dec x y then true else false.
Definition Reqb (x y : R) : bool := if Req_dec_T x y then true else false.

(** IEEE comparison: every comparison with NaN is false. *)
Definition fle (x y : pyfloat) : bool :=
  match x, y with
  | NaN, _ | _, NaN => false
  | NInf, _ | _, PInf => true
  | Num a, Num b => Rleb a b
  | _, _ => false
  end.

Definition flt (x y : pyfloat) : bool :=
  match x, y with
  | NaN, _ | _, NaN => false
  | NInf, NInf | PInf, _ => false
  | NInf, _ | _, PInf => true
  | Num a, Num b => Rltb a b
  | Num _, NInf => false
  end.

(** [x == y] *)
Definition feq (x y : pyfloat) : bool :=
  match x, y with
  | Num a, Num b => Reqb a b
  | PInf, PInf | NInf, NInf => true
  | _, _ => false
  end.

(** ** Floating-point arithmetic

    The result of an IEEE 754 operation on finite operands is the exact
    result, rounded.  A format is given by its rounding: [rnd x] is the
    float that the real [x] rounds to, an infinity when [x] is beyond
    the range.  Of the rounding only what the laws say is used: it never
    gives NaN, it is monotone, and the integers up to [exact_ints] are
    floats (2^53 for binary64).  A format may round small values to
    zero and large ones to an infinity. *)
Record format : Type := mkFormat {
  rnd : R -> pyfloat;
  exact_ints : Z;
  rnd_not_nan : forall x, is_nan (rnd x) = false;
  rnd_mono : forall x y, (x <= y)%R -> fle (rnd x) (rnd y) = true;
  rnd_int : forall n : nat, (Z.of_nat n <= exact_ints)%Z -> rnd (INR n) = Num (INR n);
  exact_ints_pos : (1 <= exact_ints)%Z
}.

Definition inf_of (negative : bool) : pyfloat := if negative then NInf else PInf.

Definition sign_neg (x : pyfloat) : bool :=
  match x with Num a => Rltb a 0 | NInf => true | _ => false end.

Definition is_zero (x : pyfloat) : bool :=
  match x with Num a => Reqb a 0 | _ => false end.

Definition fabs (x : pyfloat) : pyfloat :=
  match x with Num a => Num (Rabs a) | PInf | NInf => PInf | NaN => NaN end.

Section Arithmetic.
Variable F : format.

Definition fadd (x y : pyfloat) : pyfloat :=
  match x, y with
  | NaN, _ | _, NaN => NaN
  | Num a, Num b => rnd F (a + b)
  | PInf, NInf | NInf, PInf => NaN
  | PInf, _ | _, PInf => PInf
  | NInf, _ | _, NInf => NInf
  end.

Definition fsub (x y : pyfloat) : pyfloat :=
  match x, y with
  | NaN, _ | _, NaN => NaN
  | Num a, Num b => rnd F (a - b)
  | PInf, PInf | NInf, NInf => NaN
  | PInf, _ | _, NInf => PInf
  | NInf, _ | _, PInf => NInf
  end.

Definition fmul (x y : pyfloat) : pyfloat :=
  match x, y with
  | NaN, _ | _, NaN => NaN
  | Num a, Num b => rnd F (a * b)
  | _, _ =>
      if is_zero x || is_zero y then NaN
      else inf_of (xorb (sign_neg x) (sign_neg y))
  end.

Definition fdiv (x y : pyfloat) : pyfloat :=
  match x, y with
  | NaN, _ | _, NaN => NaN
  | Num a, Num b =>
      if Reqb b 0 then (if Reqb a 0 then NaN else inf_of (Rltb a 0))
      else rnd F (a / b)
  | Num _, _ => Num 0
  | _, Num _ => inf_of (xorb (sign_neg x) (sign_neg y))
  | _, _ => NaN
  end.

Definition fsqrt (x : pyfloat) : pyfloat :=
  match x with
  | Num a => if Rltb a 0 then NaN else rnd F (sqrt a)
  | PInf => PInf
  | _ => NaN
  end.

(** An integer count, as a float. *)
Definition of_nat (n : nat) : pyfloat := rnd F (INR n).

End Arithmetic.

(** Exceptions a task can die with. *)
Inductive exn : Type :=
  | ValueError | TypeError | KeyError | IndexError
  | OSError | MlflowException | ModelError.

Inductive result (A : Type) : Type :=
  | Ok (a : A)
  | Err (e : exn).
Arguments Ok {A} a.
Arguments Err {A} e.

Definition is_ok {A} (r : result A) : bool :=
  match r with Ok _ => true | Err _ => false end.

(** ** NumPy: [np.argmax] on a one-dimensional float array

    The scan of NumPy's float [argmax]: the first element is the running
    maximum; a later element replaces it when [!(x <= max)]; a NaN, once
    it is the running maximum, ends the scan.  An empty array raises
    [ValueError]. *)

Fixpoint argmax_scan (mp : pyfloat) (max_ind i : nat) (l : list pyfloat) : nat :=
  match l with
  | [] => max_ind
  | x :: t =>
      if is_nan mp then max_ind
      else if negb (fle x mp) then argmax_scan x i (S i) t
      else argmax_scan mp max_ind (S i) t
  end.

Definition np_argmax (l : list pyfloat) : result nat :=
  match l with
  | [] => Err ValueError
  | x :: t => Ok (argmax_scan x 0 1 t)
  end.

(** ** scikit-learn regression metrics on two-dimensional targets

    A target matrix is a list of rows (samples), each a list of outputs.
    Its entries are finite floats ([check_array] refuses the others),
    each given by the real number it denotes; every operation on them
    rounds as the format says.  NumPy adds the rows of a reduction along
    axis 0 one after the other, and so are the elements of a vector
    added here. *)

Module Metrics.

Definition matrix := list (list R).

Definition n_outputs (m : matrix) : nat :=
  match m with [] => O | row :: _ => length row end.

(** [check_array] and [_check_reg_targets]: a rectangular array with at
    least one sample and one output; both arrays of one shape. *)
Definition rectangular (m : matrix) : bool :=
  forallb (fun row => Nat.eqb (length row) (n_outputs m)) m.

Definition check_reg_targets (y_true y_pred : matrix) : bool :=
  negb (Nat.eqb (length y_true) 0) && negb (Nat.eqb (n_outputs y_true) 0)
  && rectangular y_true && rectangular y_pred
  && Nat.eqb (length y_true) (length y_pred)
  && Nat.eqb (n_outputs y_true) (n_outputs y_pred).


Section Metrics.
Variable F : format.

(** [v.sum()] *)
Definition sum (v : list pyfloat) : pyfloat :=
  match v with
  | [] => Num 0
  | x :: t => fold_left (fadd F) t x
  end.

(** [np.average(v)] *)
Definition average (v : list pyfloat) : pyfloat :=
  fdiv F (sum v) (of_nat F (length v)).

(** Elementwise [f(y_true, y_pred)]. *)
Definition zip_matrix (f : R -> R -> pyfloat) (a b : matrix) : list (list pyfloat) :=
  zip_with (zip_with f) a b.

(** [m.sum(axis=0)] *)
Definition sum_axis0 (m : list (list pyfloat)) : list pyfloat :=
  match m with
  | [] => []
  | row :: rest => fold_left (zip_with (fadd F)) rest row
  end.

(** [np.average(m, axis=0)] *)
Definition average_axis0 (m : list (list pyfloat)) : list pyfloat :=
  map (fun s => fdiv F s (of_nat F (length m))) (sum_axis0 m).

(** [(y_true - y_pred) ** 2] and [np.abs(y_pred - y_true)], one entry. *)
Definition sq_err (y_true y_pred : R) : pyfloat :=
  let d := fsub F (Num y_true) (Num y_pred) in fmul F d d.
Definition abs_err (y_true y_pred : R) : pyfloat :=
  fabs (fsub F (Num y_pred) (Num y_true)).

(** [mean_squared_error(y_true, y_pred)], multioutput='uniform_average'. *)
Definition mean_squared_error (y_true y_pred : matrix) : result pyfloat :=
  if check_reg_targets y_true y_pred then
    let output_errors := average_axis0 (zip_matrix sq_err y_true y_pred) in
    Ok (average output_errors)
  else Err ValueError.

(** [mean_absolute_error(y_true, y_pred)]. *)
Definition mean_absolute_error (y_true y_pred : matrix) : result pyfloat :=
  if check_reg_targets y_true y_pred then
    let output_errors := average_axis0 (zip_matrix abs_err y_true y_pred) in
    Ok (average output_errors)
  else Err ValueError.

(** One entry of [output_scores] in [r2_score]: [1 - num/den] where both
    are non-zero, 0 where only the denominator is zero, 1 otherwise. *)
Definition output_score (numerator denominator : pyfloat) : pyfloat :=
  let nonzero_denominator := negb (feq denominator (Num 0)) in
  let nonzero_numerator := negb (feq numerator (Num 0)) in
  if nonzero_denominator && nonzero_numerator
  then fsub F (Num 1) (fdiv F numerator denominator)
  else if nonzero_numerator && negb nonzero_denominator then Num 0
  else Num 1.

(** [(y_true - np.average(y_true, axis=0)) ** 2] *)
Definition centred_sq (y_true : matrix) : list (list pyfloat) :=
  let mu := average_axis0 (map (map Num) y_true) in
  map (fun row =>
         zip_with (fun y m => let d := fsub F (Num y) m in fmul F d d) row mu)
      y_true.

(** [r2_score(y_true, y_pred)]: NaN (with a warning) on fewer than two
    samples, else the uniform average of the per-output scores. *)
Definition r2_score (y_true y_pred : matrix) : result pyfloat :=
  if check_reg_targets y_true y_pred then
    if Nat.ltb (length y_pred) 2 then Ok NaN
    else
      let numerator := sum_axis0 (zip_matrix sq_err y_true y_pred) in
      let denominator := sum_axis0 (centred_sq y_true) in
      let output_scores := zip_with output_score numerator denominator in
      Ok (average output_scores)
  else Err ValueError.

(** [eval_metrics(actual, pred)] of the DAG file. *)
Definition eval_metrics (actual pred : matrix)
    : result (pyfloat * pyfloat * pyfloat) :=
  match mean_squared_error actual pred with
  | Err e => Err e
  | Ok mse =>
      let rmse := fsqrt F mse in
      match mean_absolute_error actual pred with
      | Err e => Err e
      | Ok mae =>
          match r2_score actual pred with
          | Err e => Err e
          | Ok r2 => Ok (rmse, mae, r2)
          end
      end
  end.

End Metrics.

End Metrics.

(** ** The tracking service (MLflow) and the message channel (XCom) *)

Inductive run_status : Type := RUNNING | FINISHED | FAILED.

Record Run : Type := mkRun {
  run_id : string;
  run_name : string;
  status : run_status;
  params : gmap string Z;
  metrics : gmap string pyfloat;
  artifacts : list string
}.

Inductive stage : Type := StageNone | Staging | Production | Archived.

Record ModelVersion : Type := mkVersion {
  mv_name : string;
  mv_version : nat;
  mv_run_id : string;
  mv_path : string;
  mv_stage : stage
}.

(** The server: runs in creation order, registered model names, model
    versions in creation order, and the number of requests received. *)
Record Tracking : Type := mkTracking {
  runs : list Run;
  registered : gset string;
  versions : list ModelVersion;
  requests : nat
}.

(** A value pushed to XCom by this DAG: a string or a list of strings. *)
Inductive xval : Type :=
  | XStr (s : string)
  | XList (l : list string).

(** The state the five tasks share: the server and the XCom table of one
    DAG run, keyed by (task id, key). *)
Record World : Type := mkWorld {
  tracking : Tracking;
  xcom : gmap (string * string) xval
}.

Definition set_tracking (f : Tracking -> Tracking) (w : World) : World :=
  mkWorld (f (tracking w)) (xcom w).

(** The four frames [train_test_split] returns (lines 48 and 75). *)
Record split : Type := mkSplit {
  X_train : Metrics.matrix;
  X_test : Metrics.matrix;
  y_train : Metrics.matrix;
  y_test : Metrics.matrix
}.

(** What the DAG file does not determine: the network, the ids the server
    gives out, the file system and the scikit-learn estimators. *)
Record Env : Type := mkEnv {
  (** whether the n-th request to the server is answered *)
  reachable : nat -> bool;
  (** the id of the n-th run the server creates *)
  new_run_id : nat -> string;
  (** germany.csv lies next to the DAG file *)
  csv_present : bool;
  (** local directory an artifact folder of a run is downloaded to *)
  local_copy : string -> string -> string;
  (** [pd.read_csv], the column selection and [train_test_split] with
      test_size 0.2 and random_state 42, on a local path *)
  read_split : string -> result split;
  (** [LinearRegression().fit(X_train, y_train).predict(X_test)] *)
  lr_fit_predict : Metrics.matrix -> Metrics.matrix -> Metrics.matrix -> result Metrics.matrix;
  (** [RandomForestRegressor(n_estimators, max_depth)], fitted and applied;
      each pair is trained once per execution, so its unseeded randomness
      is part of this function *)
  rf_fit_predict : Z -> Z -> Metrics.matrix -> Metrics.matrix -> Metrics.matrix -> result Metrics.matrix;
  (** the floating-point format of the machine, binary64 where Python
      runs *)
  float_format : format
}.

(** ** Tasks as state transformers that may raise

    An exception ends the task; the effects before it stay. *)

Definition M (A : Type) : Type := World -> result A * World.

#[global] Instance M_ret : MRet M := fun A a w => (Ok a, w).
#[global] Instance M_bind : MBind M := fun A B f c w =>
  match c w with
  | (Ok a, w1) => f a w1
  | (Err e, w1) => (Err e, w1)
  end.

Definition lift {A} (r : result A) : M A := fun w => (r, w).
Definition raise {A} (e : exn) : M A := lift (Err e).

(** [for x in l: acc = body(x, acc)] *)
Fixpoint for_each {A S} (l : list A) (body : A -> S -> M S) (acc : S) : M S :=
  match l with
  | [] => mret acc
  | x :: t => acc1 ← body x acc; for_each t body acc1
  end.

(** [[f(x) for x in l]] *)
Fixpoint list_comp {A B} (f : A -> M B) (l : list A) : M (list B) :=
  match l with
  | [] => mret []
  | x :: t => y ← f x; ys ← list_comp f t; mret (y :: ys)
  end.

Fixpoint list_comp_pure {A B} (f : A -> result B) (l : list A) : result (list B) :=
  match l with
  | [] => Ok []
  | x :: t =>
      match f x with
      | Err e => Err e
      | Ok y => match list_comp_pure f t with
                | Err e => Err e
                | Ok ys => Ok (y :: ys)
                end
      end
  end.

Fixpoint update_first (id : string) (f : Run -> Run) (rs : list Run) : option (list Run) :=
  match rs with
  | [] => None
  | r :: t =>
      if bool_decide (run_id r = id) then Some (f r :: t)
      else match update_first id f t with
           | Some t' => Some (r :: t')
           | None => None
           end
  end.

Definition find_run (id : string) (rs : list Run) : option Run :=
  List.find (fun r => bool_decide (run_id r = id)) rs.

Definition next_version (name : string) (vs : list ModelVersion) : nat :=
  S (length (List.filter (fun v => bool_decide (mv_name v = name)) vs)).

Fixpoint set_stage (name : string) (version : nat) (s : stage)
    (vs : list ModelVersion) : option (list ModelVersion) :=
  match vs with
  | [] => None
  | v :: t =>
      if bool_decide (mv_name v = name) && Nat.eqb (mv_version v) version
      then Some (mkVersion (mv_name v) (mv_version v) (mv_run_id v) (mv_path v) s :: t)
      else match set_stage name version s t with
           | Some t' => Some (v :: t')
           | None => None
           end
  end.

(** ["runs:/<run_id>/<artifact_path>"]; [None] when the text is not of
    that form.  The run id is what lies before the first slash. *)
Fixpoint split_slash (s : string) : string * option string :=
  match s with
  | EmptyString => (EmptyString, None)
  | String c t =>
      if Ascii.eqb c "/"%char then (EmptyString, Some t)
      else let '(a, b) := split_slash t in (String c a, b)
  end.

Fixpoint strip_prefix (p s : string) : option string :=
  match p, s with
  | EmptyString, _ => Some s
  | String a p', String b s' =>
      if Ascii.eqb a b then strip_prefix p' s' else None
  | String _ _, EmptyString => None
  end.

Definition parse_runs_uri (uri : string) : option (string * string) :=
  match strip_prefix "runs:/" uri with
  | None => None
  | Some rest =>
      match split_slash rest with
      | (EmptyString, _) => None
      | (id, Some path) => Some (id, path)
      | (id, None) => Some (id, "")
      end
  end.

(** The one-character strings of a string, as iterating it yields them. *)
Fixpoint chars (s : string) : list string :=
  match s with
  | EmptyString => []
  | String c t => String c EmptyString :: chars t
  end.

Section Pipeline.
Variable E : Env.

(** One request to the server at http://127.0.0.1:5000. *)
Definition request : M unit := fun w =>
  let w1 := set_tracking (fun t =>
    mkTracking (runs t) (registered t) (versions t) (S (requests t))) w in
  if reachable E (requests (tracking w)) then (Ok tt, w1)
  else (Err MlflowException, w1).

Definition modify_tracking (f : Tracking -> Tracking) : M unit := fun w =>
  (Ok tt, set_tracking f w).

Definition set_runs (rs : list Run) : M unit :=
  modify_tracking (fun t => mkTracking rs (registered t) (versions t) (requests t)).

Definition set_versions (vs : list ModelVersion) : M unit :=
  modify_tracking (fun t => mkTracking (runs t) (registered t) vs (requests t)).

Definition get_tracking : M Tracking := fun w => (Ok (tracking w), w).

Definition create_run (name : string) : M string :=
  request;;
  t ← get_tracking;
  let id := new_run_id E (length (runs t)) in
  set_runs (runs t ++ [mkRun id name RUNNING ∅ ∅ []]);;
  mret id.

Definition update_run (id : string) (f : Run -> Run) : M unit :=
  request;;
  t ← get_tracking;
  match update_first id f (runs t) with
  | Some rs => set_runs rs
  | None => raise MlflowException
  end.

(** [mlflow.log_param]: a param, once logged, cannot take another value. *)
Definition log_param (id key : string) (value : Z) : M unit :=
  request;;
  t ← get_tracking;
  match find_run id (runs t) with
  | None => raise MlflowException
  | Some r =>
      match params r !! key with
      | Some old => if bool_decide (old = value) then mret tt else raise MlflowException
      | None =>
          match update_first id (fun r =>
                  mkRun (run_id r) (run_name r) (status r)
                        (<[key := value]> (params r)) (metrics r) (artifacts r))
                  (runs t) with
          | Some rs => set_runs rs
          | None => raise MlflowException
          end
      end
  end.

(** [mlflow.log_metric]: the run's metric of that name becomes the value. *)
Definition log_metric (id key : string) (value : pyfloat) : M unit :=
  update_run id (fun r =>
    mkRun (run_id r) (run_name r) (status r)
          (params r) (<[key := value]> (metrics r)) (artifacts r)).

(** [mlflow.sklearn.log_model(model, path)] and [mlflow.log_artifact(file,
    folder)]: the folder appears among the run's artifacts. *)
Definition log_folder (id folder : string) : M unit :=
  update_run id (fun r =>
    mkRun (run_id r) (run_name r) (status r)
          (params r) (metrics r) (artifacts r ++ [folder])).

Definition log_model (id path : string) : M unit := log_folder id path.

Definition log_artifact (id : string) (local_file_exists : bool) (folder : string) : M unit :=
  if local_file_exists then log_folder id folder else raise OSError.

Definition set_terminated (id : string) (s : run_status) : M unit :=
  update_run id (fun r =>
    mkRun (run_id r) (run_name r) s (params r) (metrics r) (artifacts r)).

(** [with mlflow.start_run(run_name=name) as run: body]: the run is
    created, the body runs, and the run is ended as FINISHED, or as FAILED
    when the body raised, in which case the exception goes on. *)
Definition start_run {A} (name : string) (body : string -> M A) : M A := fun w =>
  match create_run name w with
  | (Err e, w1) => (Err e, w1)
  | (Ok id, w1) =>
      match body id w1 with
      | (Ok a, w2) =>
          match set_terminated id FINISHED w2 with
          | (Ok _, w3) => (Ok a, w3)
          | (Err e, w3) => (Err e, w3)
          end
      | (Err e, w2) =>
          match set_terminated id FAILED w2 with
          | (Ok _, w3) => (Err e, w3)
          | (Err e', w3) => (Err e', w3)
          end
      end
  end.

(** [client.get_run(run_id)] *)
Definition get_run (id : string) : M Run :=
  request;;
  t ← get_tracking;
  match find_run id (runs t) with
  | Some r => mret r
  | None => raise MlflowException
  end.

(** [client.download_artifacts(run_id, folder)]; the argument is what
    [xcom_pull] gave, a run id only when it is a string. *)
Definition download_artifacts (run : option xval) (folder : string) : M string :=
  match run with
  | Some (XStr id) =>
      r ← get_run id;
      if bool_decide (folder ∈ artifacts r) then mret (local_copy E id folder)
      else raise MlflowException
  | _ => raise MlflowException
  end.

(** [mlflow.register_model(model_uri, name)]: the registered model is
    created unless it exists, the run of the URI is looked up, and a new
    version, numbered after the existing ones, is created in stage None. *)
Definition register_model (model_uri name : string) : M ModelVersion :=
  request;;
  modify_tracking (fun t =>
    mkTracking (runs t) ({[name]} ∪ registered t) (versions t) (requests t));;
  match parse_runs_uri model_uri with
  | None => raise MlflowException
  | Some (id, path) =>
      _ ← get_run id;
      request;;
      t ← get_tracking;
      let mv := mkVersion name (next_version name (versions t)) id path StageNone in
      set_versions (versions t ++ [mv]);;
      mret mv
  end.

(** [client.transition_model_version_stage(name, version, stage)] *)
Definition transition_model_version_stage (name : string) (version : nat) (s : stage) : M unit :=
  request;;
  t ← get_tracking;
  match set_stage name version s (versions t) with
  | Some vs => set_versions vs
  | None => raise MlflowException
  end.

(** [ti.xcom_push(key, value)] by the task instance [ti]. *)
Definition xcom_push (ti key : string) (value : xval) : M unit := fun w =>
  (Ok tt, mkWorld (tracking w) (<[(ti, key) := value]> (xcom w))).

(** [ti.xcom_pull(task_ids=t, key)] for one task id: the value or None. *)
Definition xcom_pull (task_id key : string) : M (option xval) := fun w =>
  (Ok (xcom w !! (task_id, key)), w).

(** [ti.xcom_pull(task_ids=[...], key)]: one entry per task id, in the
    order of the task ids. *)
Definition xcom_pull_many (task_ids : list string) (key : string) : M (list (option xval)) :=
  list_comp (fun t => xcom_pull t key) task_ids.

(** [for r in v]: None is not iterable, a string yields its characters. *)
Definition py_iter (v : option xval) : result (list string) :=
  match v with
  | None => Err TypeError
  | Some (XStr s) => Ok (chars s)
  | Some (XList l) => Ok l
  end.

(** [[r for ids in pulled for r in ids]] *)
Fixpoint flatten (pulled : list (option xval)) : result (list string) :=
  match pulled with
  | [] => Ok []
  | v :: t =>
      match py_iter v with
      | Err e => Err e
      | Ok ids => match flatten t with
                  | Err e => Err e
                  | Ok rest => Ok (ids ++ rest)%list
                  end
      end
  end.

(** [str(v)] inside an f-string (quotes inside list elements are not
    escaped by this model). *)
Definition py_str (v : option xval) : string :=
  match v with
  | None => "None"
  | Some (XStr s) => s
  | Some (XList l) =>
      "[" ++ String.concat ", " (map (fun s => "'" ++ s ++ "'") l) ++ "]"
  end.

(** *** The five callables *)

(** Lines 26-36. *)
Definition process_data (ti : string) : M unit :=
  start_run "process" (fun id =>
    log_artifact id (csv_present E) "processed_data";;
    xcom_push ti "run_id" (XStr id)).

(** Lines 41-48 and 67-75: the data of the upstream run, split. *)
Definition load_data : M split :=
  data_run_id ← xcom_pull "process_data" "run_id";
  path ← download_artifacts data_run_id "processed_data";
  lift (read_split E (path ++ "/germany.csv")).

(** Lines 39-62. *)
Definition make_lr (ti : string) : M unit :=
  d ← load_data;
  start_run "lr" (fun id =>
    y_predict ← lift (lr_fit_predict E (X_train d) (y_train d) (X_test d));
    '(rmse, mae, r2) ← lift (Metrics.eval_metrics (float_format E) (y_test d) y_predict);
    log_metric id "rmse" rmse;;
    log_metric id "mae" mae;;
    log_metric id "r2" r2;;
    log_model id "model";;
    xcom_push ti "run_id" (XList [id])).

(** Lines 80-93: one iteration of the grid. *)
Definition rf_run (d : split) (n_estimators max_depth : Z) (runs : list string) : M (list string) :=
  start_run "rf" (fun id =>
    y_predict ← lift (rf_fit_predict E n_estimators max_depth
                        (X_train d) (y_train d) (X_test d));
    '(rmse, mae, r2) ← lift (Metrics.eval_metrics (float_format E) (y_test d) y_predict);
    log_param id "n_estimators" n_estimators;;
    log_param id "max_depth" max_depth;;
    log_metric id "rmse" rmse;;
    log_metric id "mae" mae;;
    log_metric id "r2" r2;;
    log_model id "model";;
    mret (runs ++ [id])%list).

(** Lines 77-93. *)
Definition rf_grid (d : split) : M (list string) :=
  for_each [4; 25]%Z (fun n_estimators runs =>
    for_each [4; 10]%Z (fun max_depth runs =>
      rf_run d n_estimators max_depth runs) runs) [].

(** Lines 65-95. *)
Definition make_rf (ti : string) : M unit :=
  d ← load_data;
  runs ← rf_grid d;
  xcom_push ti "run_id" (XList runs).

(** Line 100. *)
Definition candidate_ids : M (list string) :=
  pulled ← xcom_pull_many ["model_lr"; "model_rf"] "run_id";
  lift (flatten pulled).

Definition metric (key : string) (r : Run) : result pyfloat :=
  match metrics r !! key with
  | Some v => Ok v
  | None => Err KeyError
  end.

Definition index {A} (l : list A) (i : nat) : result A :=
  match l !! i with
  | Some x => Ok x
  | None => Err IndexError
  end.

(** Lines 101-104. *)
Definition best_of (ids : list string) : M Run :=
  runs ← list_comp get_run ids;
  run_r2 ← lift (list_comp_pure (metric "r2") runs);
  i ← lift (np_argmax run_r2);
  lift (index runs i).

(** Lines 98-105. *)
Definition get_best_model (ti : string) : M unit :=
  ids ← candidate_ids;
  best_run ← best_of ids;
  xcom_push ti "best_model_run_id" (XStr (run_id best_run)).

(** Lines 108-116. *)
Definition register_best_model (ti : string) : M unit :=
  run_id ← xcom_pull "get_best_model" "best_model_run_id";
  let model_uri := "runs:/" ++ py_str run_id ++ "/model" in
  model_details ← register_model model_uri "BestModel";
  transition_model_version_stage
    (mv_name model_details) (mv_version model_details) Production.

(** Lines 130-134: the task instances of the DAG. *)
Definition task_process : M unit := process_data "process_data".
Definition task_lr : M unit := make_lr "model_lr".
Definition task_rf : M unit := make_rf "model_rf".
Definition task_get_best_model : M unit := get_best_model "get_best_model".
Definition task_register_best_model : M unit := register_best_model "register_best_model".

End Pipeline.

(** ** Observations on a world *)

(** The R² the server holds for a run id. *)
Definition r2_of (w : World) (id : string) : option pyfloat :=
  match find_run id (runs (tracking w)) with
  | Some r => metrics r !! "r2"
  | None => None
  end.

(** [r2_le w a b]: both runs have an R², and that of [a] is [<=] that of
    [b] as Python compares floats. *)
Definition r2_le (w : World) (a b : string) : bool :=
  match r2_of w a, r2_of w b with
  | Some x, Some y => fle x y
  | _, _ => false
  end.

Definition r2_lt (w : World) (a b : string) : bool :=
  match r2_of w a, r2_of w b with
  | Some x, Some y => flt x y
  | _, _ => false
  end.

(** The server answers the next [n] requests. *)
Definition answers (E : Env) (w : World) (n : nat) : Prop :=
  forall k, (k < n)%nat -> reachable E (k + requests (tracking w)) = true.

(** The world after [n] more requests. *)
Definition after_requests (n : nat) (w : World) : World :=
  set_tracking (fun t =>
    mkTracking (runs t) (registered t) (versions t) (n + requests t)) w.

(** The world with another list of runs. *)
Definition with_runs (rs : list Run) (w : World) : World :=
  set_tracking (fun t =>
    mkTracking rs (registered t) (versions t) (requests t)) w.

(** The ids of the server are those it gave out, and it gives none twice. *)
Definition unique_ids (E : Env) (rs : list Run) : Prop :=
  (forall m n, new_run_id E m = new_run_id E n -> m = n)
  /\ (forall i r, rs !! i = Some r -> run_id r = new_run_id E i).

(** Partial and total correctness of a task from a world. *)
Definition wp {A} (c : M A) (Q : A -> World -> Prop) (w : World) : Prop :=
  match c w with
  | (Ok a, w') => Q a w'
  | (Err _, _) => True
  end.

Definition twp {A} (c : M A) (Q : A -> World -> Prop) (w : World) : Prop :=
  match c w with
  | (Ok a, w') => Q a w'
  | (Err _, _) => False
  end.

(** A task that leaves the XCom table as it is, whatever its outcome. *)
Definition keeps_xcom {A} (c : M A) : Prop :=
  forall w, xcom (snd (c w)) = xcom w.

(** The message the Model Selector leaves. *)
Definition best_key (ti : string) : string * string := (ti, "best_model_run_id").

(** The ways the selection cannot go through: a list of run ids is
    missing, the candidate list is empty, or a candidate is not on the
    server. *)
Inductive selection_error (w : World) : Prop :=
  | missing_list e : candidate_ids w = (Err e, w) -> selection_error w
  | empty_list : candidate_ids w = (Ok [], w) -> selection_error w
  | missing_run ids id :
      candidate_ids w = (Ok ids, w) -> id ∈ ids ->
      find_run id (runs (tracking w)) = None -> selection_error w.

(** The selection claim read without a proviso on NaN: whenever every
    candidate has an R², the published run is at least as good as each. *)
Definition selects_maximum_for_every_r2 : Prop :=
  forall (E : Env) (ti : string) (w : World) (ids : list string),
    candidate_ids w = (Ok ids, w) -> ids <> [] ->
    (forall id, id ∈ ids -> is_Some (r2_of w id)) ->
    answers E w (length ids) ->
    exists best w',
      get_best_model E ti w = (Ok tt, w')
      /\ xcom w' !! best_key ti = Some (XStr best)
      /\ best ∈ ids
      /\ forall id, id ∈ ids -> r2_le w id best = true.

(** Order independence read for every candidate list: two worlds with one
    server state and candidate lists that are permutations of each other
    publish the same run id. *)
Definition selection_ignores_order : Prop :=
  forall (E : Env) (ti : string) (w1 w2 w1' w2' : World) (ids1 ids2 : list string),
    tracking w1 = tracking w2 ->
    candidate_ids w1 = (Ok ids1, w1) -> candidate_ids w2 = (Ok ids2, w2) ->
    ids1 ≡ₚ ids2 ->
    get_best_model E ti w1 = (Ok tt, w1') ->
    get_best_model E ti w2 = (Ok tt, w2') ->
    xcom w1' !! best_key ti = xcom w2' !! best_key ti.

(** *** Sample formats *)

(** A format without rounding and without bounds. *)
Definition exact_format : format.
Proof.
  refine (mkFormat Num (2 ^ 53) _ _ _ _).
  - reflexivity.
  - intros x y H. cbn. unfold Rleb.
    destruct (Rle_dec x y); [reflexivity | contradiction].
  - reflexivity.
  - vm_compute. discriminate.
Defined.

(** A format with the range of binary64 and no rounding within it: a
    result above 2^1024 in magnitude is an infinity. *)
Definition max_float : R := IZR (2 ^ 1024).

Definition ranged_rnd (x : R) : pyfloat :=
  if Rltb max_float x then PInf
  else if Rltb x (- max_float) then NInf
  else Num x.

Definition ranged_format : format.
Proof.
  assert (Hmax : (IZR (2 ^ 53) <= max_float)%R)
    by (apply IZR_le; vm_compute; discriminate).
  assert (Hpos : (0 < IZR (2 ^ 53))%R)
    by (apply IZR_lt; vm_compute; reflexivity).
  refine (mkFormat ranged_rnd (2 ^ 53) _ _ _ _).
  - intros x. unfold ranged_rnd.
    destruct (Rltb max_float x); [reflexivity|].
    destruct (Rltb x (- max_float)); reflexivity.
  - intros x y H. unfold ranged_rnd, Rltb.
    destruct (Rlt_dec max_float x) as [Hx|Hx].
    + destruct (Rlt_dec max_float y); [reflexivity | lra].
    + destruct (Rlt_dec x (- max_float)) as [Hx'|Hx'].
      * destruct (Rlt_dec max_float y); [reflexivity|].
        destruct (Rlt_dec y (- max_float)); reflexivity.
      * destruct (Rlt_dec max_float y); [reflexivity|].
        destruct (Rlt_dec y (- max_float)); [lra|].
        cbn. unfold Rleb. destruct (Rle_dec x y); [reflexivity | contradiction].
  - intros n Hn. unfold ranged_rnd, Rltb.
    assert (Hle : (INR n <= IZR (2 ^ 53))%R)
      by (rewrite INR_IZR_INZ; apply IZR_le, Hn).
    pose proof (pos_INR n) as H0.
    destruct (Rlt_dec max_float (INR n)); [lra|].
    destruct (Rlt_dec (INR n) (- max_float)); [lra | reflexivity].
  - vm_compute. discriminate.
Defined.

(** *** Sample worlds *)

Definition scored_run (id : string) (r2 : pyfloat) : Run :=
  mkRun id "rf" FINISHED ∅ {["r2" := r2]} ["model"].

(** A world whose trainers have published [lr] and [rf]. *)
Definition trained_world (rs : list Run) (lr rf : list string) : World :=
  mkWorld (mkTracking rs ∅ [] 0)
    (<[("model_rf", "run_id") := XList rf]>
       (<[("model_lr", "run_id") := XList lr]> ∅)).

Definition sample_split : split :=
  mkSplit [[1; 2; 3; 4]; [2; 3; 4; 5]; [3; 4; 5; 6]]%R
          [[4; 5; 6; 7]; [5; 6; 7; 8]]%R
          [[1; 2]; [2; 3]; [3; 4]]%R
          [[4; 5]; [5; 7]]%R.

(** A server that always answers, and estimators that predict the same
    two rows whatever they are given. *)
Definition sample_env : Env :=
  mkEnv (fun _ => true) (fun n => "run-" ++ pretty n) true
        (fun id folder => "/tmp/" ++ id ++ "/" ++ folder)
        (fun _ => Ok sample_split)
        (fun _ _ _ => Ok [[4; 5]; [5; 6]]%R)
        (fun _ _ _ _ _ => Ok [[4; 5]; [5; 6]]%R)
        exact_format.

(** A run without a usable score next to a scored one, two runs with one
    score, and two runs with different scores. *)
Definition nan_runs : list Run :=
  [scored_run "a" NaN; scored_run "b" (Num (1 / 2))].
Definition tie_runs : list Run :=
  [scored_run "a" (Num (1 / 2)); scored_run "b" (Num (1 / 2))].
Definition ranked_runs : list Run :=
  [scored_run "a" (Num (1 / 4)); scored_run "b" (Num (3 / 4))].

(** *** The records the trainers leave on the server *)

(** The params of a forest run, in the order they are logged. *)
Definition grid_params (n_estimators max_depth : Z) : gmap string Z :=
  <["max_depth" := max_depth]> (<["n_estimators" := n_estimators]> ∅).

(** The metrics of a run, in the order they are logged. *)
Definition logged_metrics (m : pyfloat * pyfloat * pyfloat) : gmap string pyfloat :=
  let '(rmse, mae, r2) := m in
  <["r2" := r2]> (<["mae" := mae]> (<["rmse" := rmse]> ∅)).

(** The finished run of one grid point, and that of the linear model. *)
Definition rf_record (id : string) (n_estimators max_depth : Z)
    (m : pyfloat * pyfloat * pyfloat) : Run :=
  mkRun id "rf" FINISHED (grid_params n_estimators max_depth)
        (logged_metrics m) ["model"].

Definition lr_record (id : string) (m : pyfloat * pyfloat * pyfloat) : Run :=
  mkRun id "lr" FINISHED ∅ (logged_metrics m) ["model"].

(** The metrics [eval_metrics] gives for the predictions of a forest, and
    of the linear model, on the held-out part of a split. *)
Definition rf_scores (E : Env) (d : split) (n_estimators max_depth : Z)
    : result (pyfloat * pyfloat * pyfloat) :=
  match rf_fit_predict E n_estimators max_depth (X_train d) (y_train d) (X_test d) with
  | Ok y_predict => Metrics.eval_metrics (float_format E) (y_test d) y_predict
  | Err e => Err e
  end.

Definition lr_scores (E : Env) (d : split) : result (pyfloat * pyfloat * pyfloat) :=
  match lr_fit_predict E (X_train d) (y_train d) (X_test d) with
  | Ok y_predict => Metrics.eval_metrics (float_format E) (y_test d) y_predict
  | Err e => Err e
  end.

(** The world the Data Publisher leaves on the sample server. *)
Definition published_world : World :=
  mkWorld
    (mkTracking [mkRun "run-0" "process" FINISHED ∅ ∅ ["processed_data"]] ∅ [] 3)
    {[("process_data", "run_id") := XStr "run-0"]}.

(** The sample estimators, except that the forests of 25 trees fail. *)
Definition failing_env : Env :=
  mkEnv (reachable sample_env) (new_run_id sample_env) (csv_present sample_env)
        (local_copy sample_env) (read_split sample_env) (lr_fit_predict sample_env)
        (fun n_estimators max_depth X y X' =>
           if (n_estimators =? 25)%Z then Err ModelError
           else rf_fit_predict sample_env n_estimators max_depth X y X')
        (float_format sample_env).

(** A run id without a slash, as the server's hexadecimal ids are. *)
Fixpoint slash_free (s : string) : bool :=
  match s with
  | EmptyString => true
  | String c t => negb (Ascii.eqb c "/"%char) && slash_free t
  end.

(** No version of the model has the number the next one will get. *)
Definition version_free (name : string) (vs : list ModelVersion) : Prop :=
  forall v, v ∈ vs -> mv_name v = name -> mv_version v <> next_version name vs.

(** A sample world after the selection of run "b". *)
Definition selected_world : World :=
  mkWorld (mkTracking ranked_runs ∅ [] 2)
    {[("get_best_model", "best_model_run_id") := XStr "b"]}.

(** *** The metrics in the words of the specification

    "RMSE = sqrt(mean squared error); all three metrics computed over the
    full held-out target matrix (both output columns jointly, as library
    default multi-output averaging)": each metric is taken for every
    output column by itself, and the columns are averaged with equal
    weights.  Written column by column from these words, with no use of
    the array operations of [Metrics]. *)

Module SpecMetrics.
Section SpecMetrics.
Variable F : format.

Definition total (v : list pyfloat) : pyfloat :=
  match v with
  | [] => Num 0
  | x :: t => fold_left (fadd F) t x
  end.

Definition mean (v : list pyfloat) : pyfloat :=
  fdiv F (total v) (of_nat F (length v)).

Definition width (m : list (list R)) : nat :=
  match m with [] => O | row :: _ => length row end.

Definition column (j : nat) (m : list (list R)) : list R :=
  map (fun row => nth j row 0%R) m.

Definition squared_error (target prediction : R) : pyfloat :=
  let e := fsub F (Num target) (Num prediction) in fmul F e e.

Definition absolute_error (target prediction : R) : pyfloat :=
  fabs (fsub F (Num prediction) (Num target)).

Definition column_mse (target prediction : list R) : pyfloat :=
  mean (zip_with squared_error target prediction).

Definition column_mae (target prediction : list R) : pyfloat :=
  mean (zip_with absolute_error target prediction).

(** R² of one output: 1 - SS_res / SS_tot, and by the library's
    convention 1 for a fit without error and else 0 on a target without
    variation. *)
Definition column_r2 (target prediction : list R) : pyfloat :=
  let ss_res := total (zip_with squared_error target prediction) in
  let target_mean := mean (map Num target) in
  let ss_tot :=
    total (map (fun y => let e := fsub F (Num y) target_mean in fmul F e e)
               target) in
  if feq ss_res (Num 0) then Num 1
  else if feq ss_tot (Num 0) then Num 0
  else fsub F (Num 1) (fdiv F ss_res ss_tot).

Definition uniform_average (metric : list R -> list R -> pyfloat)
    (actual pred : list (list R)) : pyfloat :=
  mean (map (fun j => metric (column j actual) (column j pred))
            (seq 0 (width actual))).

Definition mse := uniform_average column_mse.
Definition rmse (actual pred : list (list R)) : pyfloat := fsqrt F (mse actual pred).
Definition mae := uniform_average column_mae.
Definition r2 := uniform_average column_r2.

End SpecMetrics.
End SpecMetrics.




(** The metrics were computed, and their R² is not NaN. *)
Definition has_r2 (s : result (pyfloat * pyfloat * pyfloat)) : bool :=
  match s with Ok (_, _, r2) => negb (is_nan r2) | Err _ => false end.

(** *** What a task may touch *)

(** A task that leaves every XCom entry but that of key [k] as it is,
    whatever its outcome. *)
Definition writes_only {A} (k : string * string) (c : M A) : Prop :=
  forall w k', k' <> k -> xcom (snd (c w)) !! k' = xcom w !! k'.

(** The ids of the runs on the server, in creation order. *)
Definition run_ids (w : World) : list string := map run_id (runs (tracking w)).

(** A task that, whatever its outcome, removes and renames no run and
    creates at most [k] runs, with the ids the server gives out next. *)
Definition appends_at_most {A} (E : Env) (k : nat) (c : M A) : Prop :=
  forall w, exists n, (n <= k)%nat
    /\ run_ids (snd (c w))
       = (run_ids w ++ map (new_run_id E) (seq (length (run_ids w)) n))%list.

(** A task that leaves an observation of the world as it is, whatever
    its outcome. *)
Definition preserves {A X} (obs : World -> X) (c : M A) : Prop :=
  forall w, obs (snd (c w)) = obs w.

(** The runs, and the model registry, of the server. *)
Definition server_runs (w : World) : list Run := runs (tracking w).
Definition registry (w : World) : gset string * list ModelVersion :=
  (registered (tracking w), versions (tracking w)).

(** The model versions in stage Production. *)
Definition in_production (w : World) : list ModelVersion :=
  List.filter (fun v => match mv_stage v with Production => true | _ => false end)
    (versions (tracking w)).

(** The versions of a model are numbered within the count of its
    versions, as the server numbers them. *)
Definition versions_numbered (name : string) (vs : list ModelVersion) : Prop :=
  forall v, v ∈ vs -> mv_name v = name ->
    (mv_version v < next_version name vs)%nat.

(** The sample estimators, except that the linear model predicts one row
    for the two held-out rows, so that [eval_metrics] raises. *)
Definition misshapen_env : Env :=
  mkEnv (reachable sample_env) (new_run_id sample_env) (csv_present sample_env)
        (local_copy sample_env) (read_split sample_env)
        (fun _ _ _ => Ok [[4; 5]]%R) (rf_fit_predict sample_env)
        (float_format sample_env).

(** The sample server, except that its tenth request is not answered. *)
Definition dropping_env : Env :=
  mkEnv (fun n => negb (Nat.eqb n 9)) (new_run_id sample_env)
        (csv_present sample_env) (local_copy sample_env) (read_split sample_env)
        (lr_fit_predict sample_env) (rf_fit_predict sample_env)
        (float_format sample_env).

(** ** The DAG

    Lines 130-139: five operators, each with a task id and a callable,
    and the edges set with [>>].  A task instance runs when all its
    upstream tasks have succeeded (Airflow's default trigger rule,
    all_success, with no retries); otherwise it is marked
    upstream_failed and its callable is not called. *)

Inductive operator : Type :=
  | op_process | op_lr | op_rf | op_get_best_model | op_register_best_model.

Definition task_id (t : operator) : string :=
  match t with
  | op_process => "process_data"
  | op_lr => "model_lr"
  | op_rf => "model_rf"
  | op_get_best_model => "get_best_model"
  | op_register_best_model => "register_best_model"
  end.

Definition python_callable (E : Env) (t : operator) : M unit :=
  match t with
  | op_process => task_process E
  | op_lr => task_lr E
  | op_rf => task_rf E
  | op_get_best_model => task_get_best_model E
  | op_register_best_model => task_register_best_model E
  end.

(** Lines 136-139, each pair an upstream and a downstream task. *)
Definition edges : list (operator * operator) :=
  [(op_process, op_lr); (op_process, op_rf);
   (op_lr, op_get_best_model); (op_rf, op_get_best_model);
   (op_get_best_model, op_register_best_model)].

Definition same_task (a b : operator) : bool := String.eqb (task_id a) (task_id b).

Definition upstream (t : operator) : list operator :=
  map fst (List.filter (fun e => same_task (snd e) t) edges).

Inductive task_state : Type :=
  | success | failed (e : exn) | upstream_failed.

Definition succeeded (done : list (operator * task_state)) (t : operator) : bool :=
  existsb (fun d => same_task (fst d) t
                    && match snd d with success => true | _ => false end) done.

Definition ready (done : list (operator * task_state)) (t : operator) : bool :=
  forallb (succeeded done) (upstream t).

(** One DAG run in which the task instances are taken one at a time, in
    the given order. *)
Fixpoint dag_run (E : Env) (order : list operator)
    (done : list (operator * task_state)) (w : World)
    : list (operator * task_state) * World :=
  match order with
  | [] => (done, w)
  | t :: rest =>
      if ready done t then
        match python_callable E t w with
        | (Ok _, w') => dag_run E rest (done ++ [(t, success)]) w'
        | (Err e, w') => dag_run E rest (done ++ [(t, failed e)]) w'
        end
      else dag_run E rest (done ++ [(t, upstream_failed)]) w
  end.

(** The orders the scheduler may take the tasks in: each of the five
    tasks once, none before one of its upstream tasks. *)
Fixpoint respects (seen order : list operator) : bool :=
  match order with
  | [] => true
  | t :: rest =>
      forallb (fun u => existsb (same_task u) seen) (upstream t)
      && negb (existsb (same_task t) seen)
      && respects (seen ++ [t]) rest
  end.

Definition schedule (order : list operator) : bool :=
  respects [] order && Nat.eqb (length order) 5.

(** The state a DAG run gave a task. *)
Definition state_of (done : list (operator * task_state)) (t : operator)
    : option task_state :=
  snd <$> List.find (fun d => same_task (fst d) t) done.

(** A server without runs or models, and an empty XCom table. *)
Definition fresh_world : World := mkWorld (mkTracking [] ∅ [] 0) ∅.

(** The runs a DAG run created on a server that held [k] runs before,
    other than the run of the Data Publisher. *)
Definition model_runs (k : nat) (w : World) : list Run :=
  List.filter (fun r => negb (String.eqb (run_name r) "process"))
    (drop k (runs (tracking w))).

(** The finished run the Data Publisher leaves. *)
Definition process_record (id : string) : Run :=
  mkRun id "process" FINISHED ∅ ∅ ["processed_data"].

(** The sample server with estimators that predict the held-out
    targets. *)
Definition perfect_env : Env :=
  mkEnv (reachable sample_env) (new_run_id sample_env) (csv_present sample_env)
        (local_copy sample_env) (read_split sample_env)
        (fun _ _ _ => Ok (y_test sample_split))
        (fun _ _ _ _ _ => Ok (y_test sample_split))
        (float_format sample_env).


(** ** Facts on the float comparisons and on [np.argmax] *)

Lemma Rleb_true x y : Rleb x y = true <-> (x <= y)%R.
Proof. unfold Rleb. destruct (Rle_dec x y); split; auto; discriminate. Qed.

Lemma Rleb_false x y : Rleb x y = false <-> (y < x)%R.
Proof.
  unfold Rleb. destruct (Rle_dec x y); split; intros;
    try discriminate; try lra; reflexivity.
Qed.

Lemma Rltb_true x y : Rltb x y = true <-> (x < y)%R.
Proof. unfold Rltb. destruct (Rlt_dec x y); split; auto; discriminate. Qed.

Lemma Reqb_true x y : Reqb x y = true <-> x = y.
Proof. unfold Reqb. destruct (Req_dec_T x y); split; auto; discriminate. Qed.

Lemma Reqb_false x y : Reqb x y = false <-> x <> y.
Proof.
  unfold Reqb. destruct (Req_dec_T x y); split; intros; try discriminate; try tauto.
Qed.

Ltac float_cases :=
  intros;
  repeat match goal with
         | x : pyfloat |- _ => destruct x
         end;
  cbn [fle flt is_nan] in *;
  try discriminate; try reflexivity;
  repeat match goal with
         | H : Rleb _ _ = true |- _ => apply Rleb_true in H
         | H : Rleb _ _ = false |- _ => apply Rleb_false in H
         | H : Rltb _ _ = true |- _ => apply Rltb_true in H
         end;
  try (apply Rleb_true; lra); try (apply Rltb_true; lra); try lra.

Lemma fle_not_nan x y : fle x y = true -> is_nan x = false /\ is_nan y = false.
Proof. destruct x, y; cbn; intros; try discriminate; split; reflexivity. Qed.

Lemma flt_not_nan x y : flt x y = true -> is_nan x = false /\ is_nan y = false.
Proof. destruct x, y; cbn; intros; try discriminate; split; reflexivity. Qed.

Lemma fle_num_num a b : fle (Num a) (Num b) = true <-> (a <= b)%R.
Proof. apply Rleb_true. Qed.

Lemma fle_refl x : is_nan x = false -> fle x x = true.
Proof. float_cases. Qed.

Lemma fle_refl_num a : fle (Num a) (Num a) = true.
Proof. apply fle_refl. reflexivity. Qed.

Lemma fle_trans x y z : fle x y = true -> fle y z = true -> fle x z = true.
Proof. float_cases. Qed.

Lemma flt_fle x y : flt x y = true -> fle x y = true.
Proof. float_cases. Qed.

Lemma flt_not_fle x y : flt x y = true -> fle y x = true -> False.
Proof. float_cases. Qed.

Lemma not_fle_flt x y :
  is_nan x = false -> is_nan y = false -> fle x y = false -> flt y x = true.
Proof. float_cases. Qed.

Lemma fle_flt_trans x y z : fle x y = true -> flt y z = true -> flt x z = true.
Proof. float_cases. Qed.

Lemma flt_trans x y z : flt x y = true -> flt y z = true -> flt x z = true.
Proof. float_cases. Qed.

Definition all_num (l : list pyfloat) : Prop := Forall (fun x => is_nan x = false) l.

(** The scan over NaN-free data: the result is either the incoming index,
    and nothing in the list exceeds the incoming maximum, or the position
    of the first element that is strictly above the incoming maximum and
    everything before it, and at least everything after it. *)
Lemma argmax_scan_spec (t : list pyfloat) :
  forall (mp : pyfloat) (max_ind i : nat),
    is_nan mp = false -> all_num t ->
    (argmax_scan mp max_ind i t = max_ind /\ Forall (fun y => fle y mp = true) t)
    \/ (exists k v, argmax_scan mp max_ind i t = (i + k)%nat /\ t !! k = Some v
          /\ flt mp v = true
          /\ (forall j y, (j < k)%nat -> t !! j = Some y -> flt y v = true)
          /\ Forall (fun y => fle y v = true) t).
Proof.
  induction t as [|x t IH]; intros mp max_ind i Hmp Hall.
  - left. split; [reflexivity | constructor].
  - inversion Hall as [|? ? Hx Ht]; subst.
    cbn [argmax_scan]. rewrite Hmp.
    destruct (fle x mp) eqn:Hle; cbn [negb].
    + destruct (IH mp max_ind (S i) Hmp Ht)
        as [[Hr Hf] | (k & v & Hr & Hk & Hlt & Hbefore & Hf)].
      * left. split; [exact Hr | constructor; assumption].
      * right. exists (S k), v. split; [rewrite Hr; lia|].
        split; [exact Hk|]. split; [exact Hlt|]. split.
        -- intros [|j] y Hj Hy; simpl in Hy.
           ++ inversion Hy; subst. apply fle_flt_trans with mp; assumption.
           ++ apply (Hbefore j y); [lia | exact Hy].
        -- constructor; [|exact Hf].
           apply fle_trans with mp; [exact Hle | apply flt_fle, Hlt].
    + apply not_fle_flt in Hle; [|exact Hx | exact Hmp].
      destruct (IH x i (S i) Hx Ht)
        as [[Hr Hf] | (k & v & Hr & Hk & Hlt & Hbefore & Hf)].
      * right. exists O, x. split; [rewrite Hr; lia|].
        split; [reflexivity|]. split; [exact Hle|]. split.
        -- intros j y Hj. lia.
        -- constructor; [apply fle_refl, Hx | exact Hf].
      * right. exists (S k), v. split; [rewrite Hr; lia|].
        split; [exact Hk|].
        split; [apply flt_trans with x; assumption|].
        split.
        -- intros [|j] y Hj Hy; simpl in Hy.
           ++ inversion Hy; subst. exact Hlt.
           ++ apply (Hbefore j y); [lia | exact Hy].
        -- constructor; [apply flt_fle, Hlt | exact Hf].
Qed.

(** [np.argmax] of a non-empty NaN-free list: the index of the first
    occurrence of the maximum. *)
Lemma np_argmax_first_max (l : list pyfloat) :
  l <> [] -> all_num l ->
  exists i v, np_argmax l = Ok i /\ l !! i = Some v
    /\ Forall (fun y => fle y v = true) l
    /\ (forall j y, (j < i)%nat -> l !! j = Some y -> flt y v = true).
Proof.
  destruct l as [|x t]; [congruence|]. intros _ Hall.
  inversion Hall as [|? ? Hx Ht]; subst. unfold np_argmax.
  destruct (argmax_scan_spec t x 0%nat 1%nat Hx Ht)
    as [[Hr Hf] | (k & v & Hr & Hk & Hlt & Hbefore & Hf)].
  - exists 0%nat, x. rewrite Hr. split; [reflexivity|]. split; [reflexivity|].
    split.
    + constructor; [|exact Hf]. apply fle_refl, Hx.
    + intros j y Hj. lia.
  - exists (S k), v. rewrite Hr. split; [reflexivity|]. split; [exact Hk|].
    split.
    + constructor; [apply flt_fle, Hlt | exact Hf].
    + intros [|j] y Hj Hy; simpl in Hy.
      * inversion Hy; subst. exact Hlt.
      * apply (Hbefore j y); [lia | exact Hy].
Qed.

(** ** Reasoning on tasks *)

Lemma bind_eq {A B} (c : M A) (f : A -> M B) (w : World) :
  (c ≫= f) w = match c w with
               | (Ok a, w1) => f a w1
               | (Err e, w1) => (Err e, w1)
               end.
Proof. reflexivity. Qed.

Lemma wp_bind {A B} (c : M A) (f : A -> M B) Q w :
  wp c (fun a w1 => wp (f a) Q w1) w -> wp (c ≫= f) Q w.
Proof.
  unfold wp. rewrite bind_eq. destruct (c w) as [[a|e] w1]; auto.
Qed.

Lemma wp_ret {A} (a : A) (Q : A -> World -> Prop) w : Q a w -> wp (mret a) Q w.
Proof. auto. Qed.

Lemma wp_lift {A} (r : result A) (Q : A -> World -> Prop) w :
  (forall a, r = Ok a -> Q a w) -> wp (lift r) Q w.
Proof. unfold wp, lift. destruct r; auto. Qed.

Lemma wp_mono {A} (c : M A) (Q Q' : A -> World -> Prop) w :
  wp c Q w -> (forall a w', Q a w' -> Q' a w') -> wp c Q' w.
Proof. unfold wp. destruct (c w) as [[a|e] w1]; auto. Qed.

Lemma wp_elim {A} (c : M A) Q w a w' : wp c Q w -> c w = (Ok a, w') -> Q a w'.
Proof. unfold wp. intros H Hc. rewrite Hc in H. exact H. Qed.

Lemma twp_bind {A B} (c : M A) (f : A -> M B) Q w :
  twp c (fun a w1 => twp (f a) Q w1) w -> twp (c ≫= f) Q w.
Proof.
  unfold twp. rewrite bind_eq. destruct (c w) as [[a|e] w1]; auto.
Qed.

Lemma twp_elim {A} (c : M A) Q w :
  twp c Q w -> exists a w', c w = (Ok a, w') /\ Q a w'.
Proof. unfold twp. destruct (c w) as [[a|e] w1]; [eauto | tauto]. Qed.

Lemma twp_mono {A} (c : M A) (Q Q' : A -> World -> Prop) w :
  twp c Q w -> (forall a w', Q a w' -> Q' a w') -> twp c Q' w.
Proof. unfold twp. destruct (c w) as [[a|e] w1]; auto. Qed.

Section PipelineFacts.
Variable E : Env.

Lemma wp_request Q w :
  (reachable E (requests (tracking w)) = true -> Q tt (after_requests 1 w)) ->
  wp (request E) Q w.
Proof.
  unfold wp, request. destruct (reachable E _); auto.
Qed.

Lemma twp_request (Q : unit -> World -> Prop) w :
  reachable E (requests (tracking w)) = true -> Q tt (after_requests 1 w) ->
  twp (request E) Q w.
Proof.
  unfold twp, request. intros ->. auto.
Qed.

Lemma answers_S w n :
  answers E w (S n) ->
  reachable E (requests (tracking w)) = true /\ answers E (after_requests 1 w) n.
Proof.
  intros H. split.
  - apply (H 0%nat). lia.
  - intros k Hk. cbn. rewrite Nat.add_succ_r. apply (H (S k)). lia.
Qed.

Lemma answers_le w n m : (m <= n)%nat -> answers E w n -> answers E w m.
Proof. intros Hle H k Hk. apply H. lia. Qed.

Lemma after_requests_0 w : after_requests 0 w = w.
Proof. destruct w as [[rs reg vs n] x]. reflexivity. Qed.

Lemma after_requests_S n w :
  after_requests n (after_requests 1 w) = after_requests (S n) w.
Proof.
  destruct w as [[rs reg vs k] x]. unfold after_requests, set_tracking. cbn.
  rewrite Nat.add_succ_r. reflexivity.
Qed.

(** *** The frame of the tracking calls: none touches XCom *)

Lemma keeps_bind {A B} (c : M A) (f : A -> M B) :
  keeps_xcom c -> (forall a, keeps_xcom (f a)) -> keeps_xcom (c ≫= f).
Proof.
  intros Hc Hf w. rewrite bind_eq. specialize (Hc w).
  destruct (c w) as [[a|e] w1]; cbn in *; [|exact Hc].
  rewrite Hf. exact Hc.
Qed.

Lemma keeps_ret {A} (a : A) : keeps_xcom (mret a : M A).
Proof. intros w. reflexivity. Qed.

Lemma keeps_lift {A} (r : result A) : keeps_xcom (lift r).
Proof. intros w. reflexivity. Qed.

Lemma keeps_raise {A} e : keeps_xcom (raise e : M A).
Proof. intros w. reflexivity. Qed.

Lemma keeps_request : keeps_xcom (request E).
Proof. intros w. unfold request. destruct (reachable E _); reflexivity. Qed.

Lemma keeps_modify f : keeps_xcom (modify_tracking f).
Proof. intros w. reflexivity. Qed.

Lemma keeps_get_tracking : keeps_xcom get_tracking.
Proof. intros w. reflexivity. Qed.

Lemma keeps_xcom_pull t k : keeps_xcom (xcom_pull t k).
Proof. intros w. reflexivity. Qed.

Create HintDb keeps.

#[local] Hint Resolve keeps_ret keeps_lift keeps_raise keeps_request
  keeps_modify keeps_get_tracking keeps_xcom_pull : keeps.

Ltac keeps :=
  repeat first
    [ progress auto with keeps
    | apply keeps_bind; [| intros ?]
    | match goal with
      | |- keeps_xcom (match ?x with _ => _ end) => destruct x
      | |- keeps_xcom (if ?x then _ else _) => destruct x
      | |- keeps_xcom (let '(_, _) := ?x in _) => destruct x
      end ].

Lemma keeps_update_run id f : keeps_xcom (update_run E id f).
Proof. unfold update_run, set_runs. keeps. Qed.

Lemma keeps_log_param id k v : keeps_xcom (log_param E id k v).
Proof. unfold log_param, set_runs. keeps. Qed.

Lemma keeps_get_run id : keeps_xcom (get_run E id).
Proof. unfold get_run. keeps. Qed.

Lemma keeps_create_run name : keeps_xcom (create_run E name).
Proof. unfold create_run, set_runs. keeps. Qed.

#[local] Hint Resolve keeps_update_run keeps_log_param keeps_get_run
  keeps_create_run : keeps.

Lemma keeps_log_metric id k v : keeps_xcom (log_metric E id k v).
Proof. unfold log_metric. keeps. Qed.

Lemma keeps_log_folder id p : keeps_xcom (log_folder E id p).
Proof. unfold log_folder. keeps. Qed.

Lemma keeps_set_terminated id s : keeps_xcom (set_terminated E id s).
Proof. unfold set_terminated. keeps. Qed.

#[local] Hint Resolve keeps_log_metric keeps_log_folder keeps_set_terminated : keeps.

Lemma keeps_log_model id p : keeps_xcom (log_model E id p).
Proof. unfold log_model. keeps. Qed.

Lemma keeps_log_artifact id b p : keeps_xcom (log_artifact E id b p).
Proof. unfold log_artifact. keeps. Qed.

Lemma keeps_start_run {A} name (body : string -> M A) :
  (forall id, keeps_xcom (body id)) -> keeps_xcom (start_run E name body).
Proof.
  intros Hb w. unfold start_run.
  pose proof (keeps_create_run name w) as Hc.
  destruct (create_run E name w) as [[id|e] w1]; cbn in Hc; [|exact Hc].
  pose proof (Hb id w1) as Hb1.
  destruct (body id w1) as [[a|e] w2]; cbn in Hb1.
  - pose proof (keeps_set_terminated id FINISHED w2) as Ht.
    destruct (set_terminated E id FINISHED w2) as [[u|e] w3]; cbn in *; congruence.
  - pose proof (keeps_set_terminated id FAILED w2) as Ht.
    destruct (set_terminated E id FAILED w2) as [[u|e'] w3]; cbn in *; congruence.
Qed.

Lemma keeps_list_comp {A B} (f : A -> M B) l :
  (forall a, keeps_xcom (f a)) -> keeps_xcom (list_comp f l).
Proof. intros Hf. induction l; cbn [list_comp]; keeps. Qed.

Lemma keeps_for_each {A S} (body : A -> S -> M S) l :
  (forall a s, keeps_xcom (body a s)) -> forall acc, keeps_xcom (for_each l body acc).
Proof. intros Hf. induction l; intros acc; cbn [for_each]; keeps. Qed.

#[local] Hint Resolve keeps_log_model keeps_log_artifact : keeps.

Lemma keeps_download_artifacts v p : keeps_xcom (download_artifacts E v p).
Proof. unfold download_artifacts. keeps. Qed.

Lemma keeps_load_data : keeps_xcom (load_data E).
Proof.
  unfold load_data. pose proof keeps_download_artifacts. keeps.
Qed.

Lemma keeps_rf_run d n m acc : keeps_xcom (rf_run E d n m acc).
Proof. unfold rf_run. apply keeps_start_run. intros id. keeps. Qed.

Lemma keeps_rf_grid d : keeps_xcom (rf_grid E d).
Proof.
  unfold rf_grid. apply keeps_for_each. intros n acc.
  apply keeps_for_each. intros m acc'. apply keeps_rf_run.
Qed.

Lemma keeps_candidate_ids : keeps_xcom candidate_ids.
Proof.
  unfold candidate_ids, xcom_pull_many.
  apply keeps_bind; [apply keeps_list_comp; intros; apply keeps_xcom_pull|].
  intros. apply keeps_lift.
Qed.

Lemma keeps_best_of ids : keeps_xcom (best_of E ids).
Proof.
  unfold best_of.
  apply keeps_bind; [apply keeps_list_comp; intros; apply keeps_get_run|].
  intros. keeps.
Qed.

(** A task that ends with its only [xcom_push]: when it raises, the table
    is the one it started from. *)
Lemma push_last_err {A} (c : M A) ti key (v : A -> xval) w e w' :
  keeps_xcom c ->
  (a ← c; xcom_push ti key (v a)) w = (Err e, w') -> xcom w' = xcom w.
Proof.
  intros Hc. rewrite bind_eq. specialize (Hc w).
  destruct (c w) as [[a|e1] w1]; cbn in Hc.
  - unfold xcom_push. discriminate.
  - intros [= _ <-]. exact Hc.
Qed.

End PipelineFacts.

(** ** The Model Selector *)

Section Selector.
Variable E : Env.

Lemma find_run_id id rs r : find_run id rs = Some r -> run_id r = id.
Proof.
  unfold find_run. intros H. apply List.find_some in H as [_ H].
  apply bool_decide_eq_true in H. exact H.
Qed.

Lemma get_run_eq id w :
  get_run E id w =
    if reachable E (requests (tracking w)) then
      match find_run id (runs (tracking w)) with
      | Some r => (Ok r, after_requests 1 w)
      | None => (Err MlflowException, after_requests 1 w)
      end
    else (Err MlflowException, after_requests 1 w).
Proof.
  unfold get_run. rewrite bind_eq. unfold request.
  destruct (reachable E _); [|reflexivity].
  rewrite bind_eq. unfold get_tracking. cbn -[find_run].
  destruct (find_run id (runs (tracking w))); reflexivity.
Qed.

(** Fetching the runs of a list of ids: one request each, no change to
    the runs. *)
Lemma list_comp_get_run_ok ids :
  forall w, answers E w (length ids) ->
    (forall id, id ∈ ids -> is_Some (find_run id (runs (tracking w)))) ->
    exists rs, list_comp (get_run E) ids w = (Ok rs, after_requests (length ids) w)
      /\ Forall2 (fun id r => find_run id (runs (tracking w)) = Some r) ids rs.
Proof.
  induction ids as [|id ids IH]; intros w Hans Hall.
  - exists []. rewrite after_requests_0. split; [reflexivity | constructor].
  - apply answers_S in Hans as [Hr Hans].
    destruct (Hall id) as [r Hr0]; [apply list_elem_of_here|].
    destruct (IH (after_requests 1 w) Hans) as (rs & Hrs & HF).
    { intros id' Hid'. cbn. apply Hall, list_elem_of_further, Hid'. }
    exists (r :: rs). split.
    + cbn [list_comp]. rewrite bind_eq, get_run_eq, Hr, Hr0.
      rewrite bind_eq, Hrs. cbn [length]. rewrite after_requests_S. reflexivity.
    + constructor; [exact Hr0 | exact HF].
Qed.

Lemma list_comp_get_run_inv ids :
  forall w rs w', list_comp (get_run E) ids w = (Ok rs, w') ->
    w' = after_requests (length ids) w
    /\ answers E w (length ids)
    /\ Forall2 (fun id r => find_run id (runs (tracking w)) = Some r) ids rs.
Proof.
  induction ids as [|id ids IH]; intros w rs w' H.
  - cbn in H. injection H as <- <-. rewrite after_requests_0.
    split; [reflexivity|]. split; [intros k Hk; cbn in Hk; lia | constructor].
  - cbn [list_comp] in H. rewrite bind_eq, get_run_eq in H.
    destruct (reachable E (requests (tracking w))) eqn:Hr; [|discriminate].
    destruct (find_run id (runs (tracking w))) as [r|] eqn:Hf; [|discriminate].
    rewrite bind_eq in H.
    destruct (list_comp (get_run E) ids (after_requests 1 w)) as [[rs1|e] w1] eqn:Hl;
      [|discriminate].
    cbn in H. injection H as <- <-.
    apply IH in Hl as (-> & Hans & HF). rewrite after_requests_S.
    split; [reflexivity|]. split.
    + intros [|k] Hk; [exact Hr|].
      specialize (Hans k). cbn in Hans. rewrite Nat.add_succ_r in Hans.
      apply Hans. cbn in Hk. lia.
    + constructor; [exact Hf | exact HF].
Qed.

Lemma list_comp_get_run_missing ids :
  forall w id, id ∈ ids -> find_run id (runs (tracking w)) = None ->
    exists e w', list_comp (get_run E) ids w = (Err e, w').
Proof.
  intros w id Hin Hmiss.
  destruct (list_comp (get_run E) ids w) as [[rs|e] w'] eqn:H; [|eauto].
  apply list_comp_get_run_inv in H as (_ & _ & HF).
  apply list_elem_of_lookup in Hin as [i Hi].
  destruct (Forall2_lookup_l _ _ _ _ _ HF Hi) as (r & _ & Hr). congruence.
Qed.

Lemma list_comp_pure_inv {A B} (f : A -> result B) l :
  forall ys, list_comp_pure f l = Ok ys -> Forall2 (fun x y => f x = Ok y) l ys.
Proof.
  induction l as [|x l IH]; intros ys H; cbn in H.
  - injection H as <-. constructor.
  - destruct (f x) eqn:Hx; [|discriminate].
    destruct (list_comp_pure f l) eqn:Hl; [|discriminate].
    injection H as <-. constructor; [exact Hx | apply IH; reflexivity].
Qed.

Lemma list_comp_pure_ok {A B} (f : A -> result B) l ys :
  Forall2 (fun x y => f x = Ok y) l ys -> list_comp_pure f l = Ok ys.
Proof.
  induction 1 as [|x y l ys Hx _ IH]; cbn; [reflexivity|].
  rewrite Hx, IH. reflexivity.
Qed.

Lemma metric_ok key r v : metric key r = Ok v <-> metrics r !! key = Some v.
Proof.
  unfold metric. destruct (metrics r !! key); split; intros H;
    inversion H; reflexivity.
Qed.

(** What [best_of] returns when it returns: the run at the index that
    [np.argmax] gives on the R² values of the looked-up runs. *)
Lemma best_of_inv ids w best w' :
  best_of E ids w = (Ok best, w') ->
  exists rs l i,
    Forall2 (fun id r => find_run id (runs (tracking w)) = Some r) ids rs
    /\ Forall2 (fun r v => metrics r !! "r2" = Some v) rs l
    /\ np_argmax l = Ok i /\ rs !! i = Some best
    /\ answers E w (length ids)
    /\ w' = after_requests (length ids) w.
Proof.
  unfold best_of. rewrite bind_eq.
  destruct (list_comp (get_run E) ids w) as [[rs|e] w1] eqn:Hl; [|discriminate].
  apply list_comp_get_run_inv in Hl as (-> & Hans & HF).
  rewrite bind_eq. unfold lift at 1.
  destruct (list_comp_pure (metric "r2") rs) as [l|e] eqn:Hm; [|discriminate].
  rewrite bind_eq. unfold lift at 1.
  destruct (np_argmax l) as [i|e] eqn:Hi; [|discriminate].
  unfold lift, index. destruct (rs !! i) as [r|] eqn:Hr; [|discriminate].
  intros [= <- <-]. exists rs, l, i.
  apply list_comp_pure_inv in Hm.
  repeat split; auto.
  eapply Forall2_impl; [exact Hm|]. intros r' v Hv. apply metric_ok, Hv.
Qed.

Lemma best_of_ok ids w rs l i best :
  Forall2 (fun id r => find_run id (runs (tracking w)) = Some r) ids rs ->
  Forall2 (fun r v => metrics r !! "r2" = Some v) rs l ->
  np_argmax l = Ok i -> rs !! i = Some best ->
  answers E w (length ids) ->
  best_of E ids w = (Ok best, after_requests (length ids) w).
Proof.
  intros HF Hm Hi Hr Hans.
  destruct (list_comp_get_run_ok ids w Hans) as (rs' & Hrs & HF').
  { intros id Hin. apply list_elem_of_lookup in Hin as [k Hk].
    destruct (Forall2_lookup_l _ _ _ _ _ HF Hk) as (r & _ & Hr'). eauto. }
  assert (rs' = rs) as ->.
  { clear -HF HF'. revert rs' HF'. induction HF; intros rs' HF'; inversion HF'; subst.
    - reflexivity.
    - f_equal; [congruence | auto]. }
  unfold best_of. rewrite bind_eq, Hrs, bind_eq. unfold lift at 1.
  rewrite (list_comp_pure_ok (metric "r2") rs l).
  - rewrite bind_eq. unfold lift at 1. rewrite Hi. unfold lift, index.
    rewrite Hr. reflexivity.
  - eapply Forall2_impl; [exact Hm|]. intros r' v Hv. apply metric_ok, Hv.
Qed.

Lemma candidate_ids_eq w :
  candidate_ids w =
    (flatten [xcom w !! ("model_lr", "run_id"); xcom w !! ("model_rf", "run_id")], w).
Proof. reflexivity. Qed.

Lemma get_best_model_eq ti w :
  get_best_model E ti w =
    match candidate_ids w with
    | (Ok ids, _) =>
        match best_of E ids w with
        | (Ok best, w1) =>
            (Ok tt, mkWorld (tracking w1)
                      (<[(ti, "best_model_run_id") := XStr (run_id best)]> (xcom w1)))
        | (Err e, w1) => (Err e, w1)
        end
    | (Err e, _) => (Err e, w)
    end.
Proof.
  unfold get_best_model. rewrite bind_eq, candidate_ids_eq.
  destruct (flatten _) as [ids|e]; [|reflexivity].
  rewrite bind_eq. destruct (best_of E ids w) as [[best|e] w1]; reflexivity.
Qed.

(** The R² values of the looked-up runs, read through [r2_of]. *)
Lemma r2_of_lookup w ids rs l i id :
  Forall2 (fun id r => find_run id (runs (tracking w)) = Some r) ids rs ->
  Forall2 (fun r v => metrics r !! "r2" = Some v) rs l ->
  ids !! i = Some id -> r2_of w id = l !! i /\ is_Some (l !! i).
Proof.
  intros HF Hm Hi.
  destruct (Forall2_lookup_l _ _ _ _ _ HF Hi) as (r & Hr & Hfind).
  destruct (Forall2_lookup_l _ _ _ _ _ Hm Hr) as (v & Hv & Hmv).
  unfold r2_of. rewrite Hfind, Hmv, Hv. eauto.
Qed.

End Selector.

Section SelectorClaims.
Variable E : Env.

Lemma candidates_scored w ids :
  (forall id, id ∈ ids -> exists v, r2_of w id = Some v /\ is_nan v = false) ->
  exists rs l,
    Forall2 (fun id r => find_run id (runs (tracking w)) = Some r) ids rs
    /\ Forall2 (fun r v => metrics r !! "r2" = Some v) rs l
    /\ all_num l.
Proof.
  induction ids as [|id ids IH]; intros H.
  - exists [], []. repeat split; constructor.
  - destruct IH as (rs & l & HF & Hm & Hn).
    { intros id' Hin. apply H, list_elem_of_further, Hin. }
    destruct (H id) as (v & Hv & Hnn); [apply list_elem_of_here|].
    unfold r2_of in Hv.
    destruct (find_run id (runs (tracking w))) as [r|] eqn:Hr; [|discriminate].
    exists (r :: rs), (v :: l).
    repeat split; constructor; auto.
Qed.

(** The selector run by hand: the runs fetched, their R² values and the
    index [np.argmax] gives decide the world it ends in. *)
Lemma get_best_model_run ti w ids rs l i best :
  candidate_ids w = (Ok ids, w) ->
  Forall2 (fun id r => find_run id (runs (tracking w)) = Some r) ids rs ->
  Forall2 (fun r v => metrics r !! "r2" = Some v) rs l ->
  np_argmax l = Ok i -> rs !! i = Some best ->
  answers E w (length ids) ->
  get_best_model E ti w =
    (Ok tt, mkWorld (tracking (after_requests (length ids) w))
              (<[best_key ti := XStr (run_id best)]> (xcom w))).
Proof.
  intros Hc HF Hm Hi Hr Hans.
  rewrite get_best_model_eq, Hc.
  rewrite (best_of_ok E ids w rs l i best HF Hm Hi Hr Hans). reflexivity.
Qed.

(** The selection on NaN-free candidates, in full: the task succeeds, uses
    one request per candidate, and publishes the candidate at the first
    index where the maximum R² stands. *)
Lemma selector_total ti w ids :
  candidate_ids w = (Ok ids, w) -> ids <> [] ->
  (forall id, id ∈ ids -> exists v, r2_of w id = Some v /\ is_nan v = false) ->
  answers E w (length ids) ->
  exists i best,
    get_best_model E ti w =
      (Ok tt, mkWorld (tracking (after_requests (length ids) w))
                (<[best_key ti := XStr best]> (xcom w)))
    /\ ids !! i = Some best
    /\ (forall id, id ∈ ids -> r2_le w id best = true)
    /\ (forall j idj, (j < i)%nat -> ids !! j = Some idj -> r2_lt w idj best = true).
Proof.
  intros Hc Hne Hnum Hans.
  destruct (candidates_scored w ids Hnum) as (rs & l & HF & Hm & Hn).
  assert (Hl : l <> []).
  { intros ->. inversion Hm; subst. inversion HF; subst. congruence. }
  destruct (np_argmax_first_max l Hl Hn) as (i & v & Hi & Hv & Hmax & Hfirst).
  destruct (Forall2_lookup_r _ _ _ _ _ Hm Hv) as (r & Hr & Hrv).
  destruct (Forall2_lookup_r _ _ _ _ _ HF Hr) as (best & Hb & Hfb).
  pose proof (find_run_id _ _ _ Hfb) as Hid.
  exists i, best. split; [|split; [exact Hb|split]].
  - rewrite get_best_model_eq, Hc.
    rewrite (best_of_ok E ids w rs l i r HF Hm Hi Hr Hans). rewrite Hid. reflexivity.
  - intros id Hin. apply list_elem_of_lookup in Hin as [j Hj].
    destruct (r2_of_lookup w ids rs l j id HF Hm Hj) as [Hrj [y Hy]].
    destruct (r2_of_lookup w ids rs l i best HF Hm Hb) as [Hri _].
    unfold r2_le. rewrite Hrj, Hri, Hy, Hv.
    rewrite Forall_forall in Hmax. apply Hmax.
    apply list_elem_of_lookup. eauto.
  - intros j idj Hj Hidj.
    destruct (r2_of_lookup w ids rs l j idj HF Hm Hidj) as [Hrj [y Hy]].
    destruct (r2_of_lookup w ids rs l i best HF Hm Hb) as [Hri _].
    unfold r2_lt. rewrite Hrj, Hri, Hy, Hv. apply (Hfirst j y Hj Hy).
Qed.

Lemma r2_le_not_nan w a b :
  r2_le w a b = true -> exists x, r2_of w a = Some x /\ is_nan x = false.
Proof.
  unfold r2_le. destruct (r2_of w a) as [u|]; [|discriminate].
  destruct (r2_of w b) as [v|]; [|discriminate].
  intros [H _]%fle_not_nan. eauto.
Qed.

Lemma r2_lt_not_nan w a b :
  r2_lt w a b = true -> exists x, r2_of w a = Some x /\ is_nan x = false.
Proof.
  unfold r2_lt. destruct (r2_of w a) as [u|]; [|discriminate].
  destruct (r2_of w b) as [v|]; [|discriminate].
  intros [H _]%flt_not_nan. eauto.
Qed.

Lemma r2_of_tracking w1 w2 id : tracking w1 = tracking w2 -> r2_of w1 id = r2_of w2 id.
Proof. unfold r2_of. intros ->. reflexivity. Qed.

(** Any failure of the selector leaves the XCom table as it was. *)
Lemma get_best_model_err_frame ti w e w' :
  get_best_model E ti w = (Err e, w') -> xcom w' = xcom w.
Proof.
  rewrite get_best_model_eq, candidate_ids_eq.
  destruct (flatten _) as [ids|e1].
  - pose proof (keeps_best_of E ids w) as Hb.
    destruct (best_of E ids w) as [[b|e2] w2]; cbn in Hb.
    + discriminate.
    + intros [= _ <-]. exact Hb.
  - intros [= _ <-]. reflexivity.
Qed.

End SelectorClaims.

(** ** The claims on the Model Selector *)

Lemma r2_lt_not_le w a b : r2_lt w a b = true -> r2_le w b a = true -> False.
Proof.
  unfold r2_lt, r2_le. destruct (r2_of w a), (r2_of w b); try discriminate.
  apply flt_not_fle.
Qed.

Lemma published_lookup (t : Tracking) (x : gmap (string * string) xval)
    (ti : string) (v : xval) :
  xcom (mkWorld t (<[best_key ti := v]> x)) !! best_key ti = Some v.
Proof. cbn. apply lookup_insert_eq. Qed.

(** C1 (amended): for every non-empty candidate list whose runs all carry
    an R² that is a number (not NaN), and a server that answers one
    request per candidate, [get_best_model] succeeds and publishes under
    "best_model_run_id" the id of a candidate whose R² is at least the R²
    of every candidate. *)
Theorem get_best_model_selects_maximum (E : Env) (ti : string) (w : World)
    (ids : list string) :
  candidate_ids w = (Ok ids, w) -> ids <> [] ->
  (forall id, id ∈ ids -> exists v, r2_of w id = Some v /\ is_nan v = false) ->
  answers E w (length ids) ->
  exists best w',
    get_best_model E ti w = (Ok tt, w')
    /\ xcom w' = <[best_key ti := XStr best]> (xcom w)
    /\ best ∈ ids
    /\ forall id, id ∈ ids -> r2_le w id best = true.
Proof.
  intros Hc Hne Hnum Hans.
  destruct (selector_total E ti w ids Hc Hne Hnum Hans)
    as (i & best & Hrun & Hi & Hmax & _).
  exists best. eexists. split; [exact Hrun|]. split; [reflexivity|].
  split; [|exact Hmax]. apply list_elem_of_lookup. eauto.
Qed.

Lemma get_best_model_selects_maximum_witness :
  exists best w',
    get_best_model sample_env "get_best_model"
      (trained_world ranked_runs ["a"] ["b"]) = (Ok tt, w')
    /\ xcom w' = <[best_key "get_best_model" := XStr best]>
                   (xcom (trained_world ranked_runs ["a"] ["b"]))
    /\ best ∈ ["a"; "b"]
    /\ forall id, id ∈ ["a"; "b"] ->
         r2_le (trained_world ranked_runs ["a"] ["b"]) id best = true.
Proof.
  apply (get_best_model_selects_maximum sample_env "get_best_model"
           (trained_world ranked_runs ["a"] ["b"]) ["a"; "b"]).
  - reflexivity.
  - discriminate.
  - intros id Hin. apply elem_of_cons in Hin as [->|Hin].
    + exists (Num (1 / 4)). split; reflexivity.
    + apply elem_of_cons in Hin as [->|Hin].
      * exists (Num (3 / 4)). split; reflexivity.
      * apply elem_of_nil in Hin. destruct Hin.
  - intros k Hk. reflexivity.
Defined.

(** C1 as stated fails: with an R² that is NaN on the first candidate,
    [np.argmax] stops there, and NaN is not [>=] the other R². *)
Lemma selects_maximum_fails_on_nan : ~ selects_maximum_for_every_r2.
Proof.
  intros H.
  destruct (H sample_env "get_best_model" (trained_world nan_runs ["a"] ["b"])
              ["a"; "b"]) as (best & w' & Hrun & Hx & _ & Hmax).
  - reflexivity.
  - discriminate.
  - intros id Hin. apply elem_of_cons in Hin as [->|Hin].
    + exists NaN. reflexivity.
    + apply elem_of_cons in Hin as [->|Hin].
      * exists (Num (1 / 2)). reflexivity.
      * apply elem_of_nil in Hin. destruct Hin.
  - intros k Hk. reflexivity.
  - assert (Hbest : best = "a").
    { rewrite (get_best_model_run sample_env _ _ ["a"; "b"] nan_runs
                 [NaN; Num (1 / 2)] 0 (scored_run "a" NaN)) in Hrun.
      - injection Hrun as <-. rewrite published_lookup in Hx. congruence.
      - reflexivity.
      - repeat constructor.
      - repeat constructor.
      - reflexivity.
      - reflexivity.
      - intros k Hk. reflexivity. }
    subst best.
    specialize (Hmax "b"). cbn in Hmax.
    assert (Hb : "b" ∈ ["a"; "b"]) by (apply list_elem_of_further, list_elem_of_here).
    specialize (Hmax Hb). discriminate Hmax.
Qed.

Lemma candidate_ids_lists w lr rf :
  xcom w !! ("model_lr", "run_id") = Some (XList lr) ->
  xcom w !! ("model_rf", "run_id") = Some (XList rf) ->
  candidate_ids w = (Ok (lr ++ rf)%list, w).
Proof.
  intros Hlr Hrf. rewrite candidate_ids_eq, Hlr, Hrf. cbn.
  rewrite app_nil_r. reflexivity.
Qed.

(** The candidate that is strictly above all others is the one chosen. *)
Lemma strict_maximum_selected (E : Env) ti w ids b :
  candidate_ids w = (Ok ids, w) -> b ∈ ids ->
  (exists v, r2_of w b = Some v /\ is_nan v = false) ->
  (forall id, id ∈ ids -> id <> b -> r2_lt w id b = true) ->
  answers E w (length ids) ->
  exists w', get_best_model E ti w = (Ok tt, w')
    /\ xcom w' !! best_key ti = Some (XStr b).
Proof.
  intros Hc Hb Hvb Hstrict Hans.
  destruct (selector_total E ti w ids Hc) as (i & best & Hrun & Hi & Hmax & _).
  - intros ->. apply elem_of_nil in Hb. exact Hb.
  - intros id Hin. destruct (decide (id = b)) as [->|Hne]; [exact Hvb|].
    apply (r2_lt_not_nan _ _ _ (Hstrict id Hin Hne)).
  - exact Hans.
  - assert (best = b) as ->.
    { destruct (decide (best = b)) as [|Hne]; [assumption|]. exfalso.
      apply (r2_lt_not_le w best b).
      - apply Hstrict; [|exact Hne]. apply list_elem_of_lookup. eauto.
      - apply Hmax, Hb. }
    eexists. split; [exact Hrun|]. apply published_lookup.
Qed.

(** C3 (amended): when one candidate id has an R² strictly above that of
    every other candidate id, permuting the candidate list does not
    change the run id published under "best_model_run_id": both orders
    publish that candidate. *)
Theorem get_best_model_order_independent (E : Env) (ti : string)
    (w1 w2 : World) (ids1 ids2 : list string) (b : string) :
  tracking w1 = tracking w2 ->
  candidate_ids w1 = (Ok ids1, w1) -> candidate_ids w2 = (Ok ids2, w2) ->
  ids1 ≡ₚ ids2 ->
  b ∈ ids1 -> (exists v, r2_of w1 b = Some v /\ is_nan v = false) ->
  (forall id, id ∈ ids1 -> id <> b -> r2_lt w1 id b = true) ->
  answers E w1 (length ids1) ->
  exists w1' w2',
    get_best_model E ti w1 = (Ok tt, w1')
    /\ get_best_model E ti w2 = (Ok tt, w2')
    /\ xcom w1' !! best_key ti = Some (XStr b)
    /\ xcom w2' !! best_key ti = Some (XStr b).
Proof.
  intros Ht Hc1 Hc2 Hperm Hb Hvb Hstrict Hans.
  destruct (strict_maximum_selected E ti w1 ids1 b Hc1 Hb Hvb Hstrict Hans)
    as (w1' & Hrun1 & Hx1).
  destruct (strict_maximum_selected E ti w2 ids2 b Hc2) as (w2' & Hrun2 & Hx2).
  - rewrite <- Hperm. exact Hb.
  - destruct Hvb as (v & Hv & Hnn). exists v. split; [|exact Hnn].
    rewrite <- Hv. symmetry. apply r2_of_tracking, Ht.
  - intros id Hin Hne. rewrite <- Hperm in Hin.
    specialize (Hstrict id Hin Hne). unfold r2_lt in *.
    rewrite <- !(r2_of_tracking w1 w2) by exact Ht. exact Hstrict.
  - intros k Hk. rewrite <- Ht. apply Hans. rewrite Hperm. exact Hk.
  - eauto 10.
Qed.

Lemma get_best_model_order_independent_witness :
  exists w1' w2',
    get_best_model sample_env "get_best_model"
      (trained_world ranked_runs ["a"] ["b"]) = (Ok tt, w1')
    /\ get_best_model sample_env "get_best_model"
         (trained_world ranked_runs ["b"] ["a"]) = (Ok tt, w2')
    /\ xcom w1' !! best_key "get_best_model" = Some (XStr "b")
    /\ xcom w2' !! best_key "get_best_model" = Some (XStr "b").
Proof.
  apply (get_best_model_order_independent sample_env "get_best_model"
           (trained_world ranked_runs ["a"] ["b"])
           (trained_world ranked_runs ["b"] ["a"]) ["a"; "b"] ["b"; "a"] "b").
  - reflexivity.
  - reflexivity.
  - reflexivity.
  - apply Permutation_swap.
  - apply list_elem_of_further, list_elem_of_here.
  - exists (Num (3 / 4)). split; reflexivity.
  - intros id Hin Hne. apply elem_of_cons in Hin as [->|Hin].
    + cbn. apply Rltb_true. lra.
    + apply list_elem_of_singleton in Hin. congruence.
  - intros k Hk. reflexivity.
Defined.

(** C3 as stated fails: on a tie the first of the tied candidates wins, so
    the two orders of a tied pair publish different ids. *)
Lemma selection_depends_on_order_of_ties : ~ selection_ignores_order.
Proof.
  intros H.
  assert (Hle : fle (Num (1 / 2)) (Num (1 / 2)) = true) by apply fle_refl_num.
  eassert (Hab : get_best_model sample_env "get_best_model"
                  (trained_world tie_runs ["a"] ["b"]) = _).
  { apply (get_best_model_run sample_env _ _ ["a"; "b"] tie_runs
             [Num (1 / 2); Num (1 / 2)] 0 (scored_run "a" (Num (1 / 2)))).
    - reflexivity.
    - repeat constructor.
    - repeat constructor.
    - unfold np_argmax, argmax_scan, is_nan. rewrite Hle. reflexivity.
    - reflexivity.
    - intros k Hk. reflexivity. }
  eassert (Hba : get_best_model sample_env "get_best_model"
                  (trained_world tie_runs ["b"] ["a"]) = _).
  { apply (get_best_model_run sample_env _ _ ["b"; "a"]
             [scored_run "b" (Num (1 / 2)); scored_run "a" (Num (1 / 2))]
             [Num (1 / 2); Num (1 / 2)] 0 (scored_run "b" (Num (1 / 2)))).
    - reflexivity.
    - repeat constructor.
    - repeat constructor.
    - unfold np_argmax, argmax_scan, is_nan. rewrite Hle. reflexivity.
    - reflexivity.
    - intros k Hk. reflexivity. }
  specialize (H sample_env "get_best_model"
                (trained_world tie_runs ["a"] ["b"])
                (trained_world tie_runs ["b"] ["a"]) _ _ ["a"; "b"] ["b"; "a"]
                eq_refl eq_refl eq_refl (Permutation_swap _ _ _) Hab Hba).
  rewrite !published_lookup in H. discriminate H.
Qed.

(** C4: when some candidate's R² is a maximum of the candidates' R²
    values, [get_best_model] publishes the first candidate, in the order
    linear list then forest list, whose R² is that maximum: it is no
    later than any candidate holding the maximum, its R² is at least the
    maximum, and every candidate before it is strictly below it. *)
Theorem get_best_model_first_maximal (E : Env) (ti : string) (w : World)
    (lr rf : list string) (k : nat) (idk : string) :
  xcom w !! ("model_lr", "run_id") = Some (XList lr) ->
  xcom w !! ("model_rf", "run_id") = Some (XList rf) ->
  answers E w (length (lr ++ rf)) ->
  (lr ++ rf)%list !! k = Some idk ->
  (forall id, id ∈ (lr ++ rf)%list -> r2_le w id idk = true) ->
  exists i best w',
    get_best_model E ti w = (Ok tt, w')
    /\ xcom w' = <[best_key ti := XStr best]> (xcom w)
    /\ (lr ++ rf)%list !! i = Some best
    /\ (i <= k)%nat
    /\ r2_le w idk best = true
    /\ forall j idj, (j < i)%nat -> (lr ++ rf)%list !! j = Some idj ->
         r2_lt w idj best = true.
Proof.
  intros Hlr Hrf Hans Hk Hmaxk.
  pose proof (candidate_ids_lists w lr rf Hlr Hrf) as Hc.
  assert (Hin : idk ∈ (lr ++ rf)%list) by (apply list_elem_of_lookup; eauto).
  destruct (selector_total E ti w (lr ++ rf)%list Hc)
    as (i & best & Hrun & Hi & Hmax & Hfirst).
  - intros Hnil. rewrite Hnil in Hin. apply elem_of_nil in Hin. exact Hin.
  - intros id Hid. apply (r2_le_not_nan _ _ _ (Hmaxk id Hid)).
  - exact Hans.
  - exists i, best. eexists. split; [exact Hrun|]. split; [reflexivity|].
    split; [exact Hi|]. split; [|split; [apply Hmax, Hin | exact Hfirst]].
    destruct (le_lt_dec i k) as [|Hlt]; [assumption|]. exfalso.
    apply (r2_lt_not_le w idk best).
    + apply (Hfirst k idk Hlt Hk).
    + apply Hmaxk. apply list_elem_of_lookup. eauto.
Qed.

Lemma get_best_model_first_maximal_witness :
  exists i best w',
    get_best_model sample_env "get_best_model"
      (trained_world tie_runs ["a"] ["b"]) = (Ok tt, w')
    /\ xcom w' = <[best_key "get_best_model" := XStr best]>
                   (xcom (trained_world tie_runs ["a"] ["b"]))
    /\ ["a"; "b"] !! i = Some best
    /\ (i <= 1)%nat
    /\ r2_le (trained_world tie_runs ["a"] ["b"]) "b" best = true
    /\ forall j idj, (j < i)%nat -> ["a"; "b"] !! j = Some idj ->
         r2_lt (trained_world tie_runs ["a"] ["b"]) idj best = true.
Proof.
  apply (get_best_model_first_maximal sample_env "get_best_model"
           (trained_world tie_runs ["a"] ["b"]) ["a"] ["b"] 1 "b").
  - reflexivity.
  - reflexivity.
  - intros k Hk. reflexivity.
  - reflexivity.
  - intros id Hin. apply elem_of_cons in Hin as [->|Hin].
    + cbn. apply Rleb_true. lra.
    + apply list_elem_of_singleton in Hin. subst id. cbn. apply Rleb_true. lra.
Defined.

(** C7: when a list of run ids is missing from the channel, the candidate
    list is empty, or a candidate id is not on the server,
    [get_best_model] ends with an exception and the XCom table is the one
    it started from: no "best_model_run_id" is published. *)
Theorem get_best_model_aborts (E : Env) (ti : string) (w : World) :
  selection_error w ->
  exists e w', get_best_model E ti w = (Err e, w') /\ xcom w' = xcom w.
Proof.
  intros Herr.
  assert (Hfail : exists e w', get_best_model E ti w = (Err e, w')).
  { rewrite get_best_model_eq.
    destruct Herr as [e Hc | Hc | ids id Hc Hin Hmiss]; rewrite Hc.
    - eauto.
    - cbn. eauto.
    - destruct (best_of E ids w) as [[best|e] w1] eqn:Hb; [|eauto].
      apply best_of_inv in Hb as (rs & l & i & HF & _).
      apply list_elem_of_lookup in Hin as [j Hj].
      destruct (Forall2_lookup_l _ _ _ _ _ HF Hj) as (r & _ & Hr). congruence. }
  destruct Hfail as (e & w' & Hrun). exists e, w'. split; [exact Hrun|].
  apply (get_best_model_err_frame E ti w e w' Hrun).
Qed.

Lemma get_best_model_aborts_witness :
  exists e w',
    get_best_model sample_env "get_best_model"
      (trained_world ranked_runs ["a"] ["c"]) = (Err e, w')
    /\ xcom w' = xcom (trained_world ranked_runs ["a"] ["c"]).
Proof.
  apply (get_best_model_aborts sample_env "get_best_model"
           (trained_world ranked_runs ["a"] ["c"])).
  apply (missing_run _ ["a"; "c"] "c").
  - reflexivity.
  - apply list_elem_of_further, list_elem_of_here.
  - reflexivity.
Defined.

(** ** The trainers *)

Section Trainers.
Variable E : Env.

Lemma update_first_last id f rs r :
  (forall r', r' ∈ rs -> run_id r' <> id) -> run_id r = id ->
  update_first id f (rs ++ [r])%list = Some (rs ++ [f r])%list.
Proof.
  intros Hrs Hr. induction rs as [|r0 rs IH]; cbn.
  - rewrite bool_decide_eq_true_2 by exact Hr. reflexivity.
  - rewrite bool_decide_eq_false_2 by (apply Hrs, list_elem_of_here).
    rewrite IH; [reflexivity|].
    intros r' Hin. apply Hrs, list_elem_of_further, Hin.
Qed.

Lemma find_run_last id rs r :
  (forall r', r' ∈ rs -> run_id r' <> id) -> run_id r = id ->
  find_run id (rs ++ [r])%list = Some r.
Proof.
  intros Hrs Hr. unfold find_run. induction rs as [|r0 rs IH]; cbn.
  - rewrite bool_decide_eq_true_2 by exact Hr. reflexivity.
  - rewrite bool_decide_eq_false_2 by (apply Hrs, list_elem_of_here).
    apply IH. intros r' Hin. apply Hrs, list_elem_of_further, Hin.
Qed.

Lemma unique_ids_fresh rs r' :
  unique_ids E rs -> r' ∈ rs -> run_id r' <> new_run_id E (length rs).
Proof.
  intros [Hinj Hgen] Hin Heq. apply list_elem_of_lookup in Hin as [i Hi].
  pose proof (lookup_lt_Some _ _ _ Hi) as Hlt.
  rewrite (Hgen i r' Hi) in Heq. apply Hinj in Heq. lia.
Qed.

Lemma unique_ids_snoc rs r :
  unique_ids E rs -> run_id r = new_run_id E (length rs) -> unique_ids E (rs ++ [r])%list.
Proof.
  intros [Hinj Hgen] Hr. split; [exact Hinj|].
  intros i r' Hi. apply lookup_app_Some in Hi as [Hi | [Hge Hi]].
  - apply Hgen, Hi.
  - destruct (i - length rs)%nat as [|n] eqn:Hn; cbn in Hi; [|discriminate].
    injection Hi as <-. rewrite Hr. f_equal. lia.
Qed.

(** *** Symbolic execution of the tracking calls on the newest run *)

Lemma wp_update_run id f (Q : unit -> World -> Prop) w rs r :
  runs (tracking w) = (rs ++ [r])%list -> run_id r = id ->
  (forall r', r' ∈ rs -> run_id r' <> id) ->
  (reachable E (requests (tracking w)) = true ->
   Q tt (with_runs (rs ++ [f r])%list (after_requests 1 w))) ->
  wp (update_run E id f) Q w.
Proof.
  intros Hruns Hr Hrs HQ. unfold update_run.
  apply wp_bind, wp_request. intros Hup. apply wp_bind.
  unfold wp at 1, get_tracking. cbn [tracking after_requests set_tracking runs].
  rewrite Hruns, (update_first_last id f rs r Hrs Hr).
  unfold wp, set_runs, modify_tracking. apply HQ, Hup.
Qed.

Lemma wp_log_param id key value (Q : unit -> World -> Prop) w rs r :
  runs (tracking w) = (rs ++ [r])%list -> run_id r = id ->
  (forall r', r' ∈ rs -> run_id r' <> id) ->
  params r !! key = None ->
  (reachable E (requests (tracking w)) = true ->
   Q tt (with_runs
           (rs ++ [mkRun (run_id r) (run_name r) (status r)
                     (<[key := value]> (params r)) (metrics r) (artifacts r)])%list
           (after_requests 1 w))) ->
  wp (log_param E id key value) Q w.
Proof.
  intros Hruns Hr Hrs Hkey HQ. unfold log_param.
  apply wp_bind, wp_request. intros Hup. apply wp_bind.
  unfold wp at 1, get_tracking. cbn [tracking after_requests set_tracking runs].
  rewrite Hruns, (find_run_last id rs r Hrs Hr), Hkey.
  rewrite (update_first_last id _ rs r Hrs Hr).
  unfold wp, set_runs, modify_tracking. apply HQ, Hup.
Qed.

Lemma wp_start_run {A} name (body : string -> M A) (Q : A -> World -> Prop) w :
  (reachable E (requests (tracking w)) = true ->
   let id := new_run_id E (length (runs (tracking w))) in
   wp (body id)
      (fun a w2 => wp (set_terminated E id FINISHED) (fun _ w3 => Q a w3) w2)
      (with_runs (runs (tracking w) ++ [mkRun id name RUNNING ∅ ∅ []])%list
         (after_requests 1 w))) ->
  wp (start_run E name body) Q w.
Proof.
  intros H. unfold wp at 1, start_run, create_run.
  rewrite bind_eq. unfold request at 1.
  destruct (reachable E (requests (tracking w))) eqn:Hup; [|exact I].
  specialize (H eq_refl). cbn zeta in H.
  rewrite !bind_eq. unfold get_tracking at 1. cbn beta iota.
  rewrite bind_eq. unfold set_runs at 1, modify_tracking at 1. cbn beta iota.
  unfold mret, M_ret.
  unfold wp at 1 in H.
  match goal with
  | H : match body ?i ?w1 with _ => _ end |- context [body ?j ?w2] =>
      change (body j w2) with (body i w1)
  end.
  destruct (body _ _) as [[a|e] w2].
  - unfold wp in H. destruct (set_terminated E _ FINISHED w2) as [[u|e] w3];
      [exact H | exact I].
  - destruct (set_terminated E _ FAILED w2) as [[u|e'] w3]; exact I.
Qed.

Ltac newest_run :=
  cbn [runs tracking with_runs after_requests set_tracking]; reflexivity.

Ltac wp_log Hfresh :=
  first
    [ eapply wp_log_param;
      [newest_run | reflexivity | exact Hfresh | reflexivity | intros _]
    | eapply wp_update_run;
      [newest_run | reflexivity | exact Hfresh | intros _] ];
  cbn [run_id run_name status params metrics artifacts].

(** One grid point: a new run, named "rf", with the two params, the three
    metrics and the model, finished; its id appended to the list. *)
Lemma wp_rf_run d n m acc w :
  unique_ids E (runs (tracking w)) ->
  wp (rf_run E d n m acc)
     (fun acc' w' =>
        let id := new_run_id E (length (runs (tracking w))) in
        exists s, rf_scores E d n m = Ok s
          /\ acc' = (acc ++ [id])%list
          /\ runs (tracking w') = (runs (tracking w) ++ [rf_record id n m s])%list
          /\ xcom w' = xcom w) w.
Proof.
  intros Hu. unfold rf_run. apply wp_start_run. intros _ id.
  assert (Hfresh : forall r', r' ∈ runs (tracking w) -> run_id r' <> id)
    by (intros r' Hin; apply unique_ids_fresh; assumption).
  apply wp_bind, wp_lift. intros y_predict Hpred.
  apply wp_bind, wp_lift. intros [[rmse mae] r2] Hev.
  apply wp_bind. wp_log Hfresh.
  apply wp_bind. wp_log Hfresh.
  unfold log_metric, log_model, log_folder, set_terminated.
  apply wp_bind. wp_log Hfresh.
  apply wp_bind. wp_log Hfresh.
  apply wp_bind. wp_log Hfresh.
  apply wp_bind. wp_log Hfresh.
  apply wp_ret. wp_log Hfresh.
  cbv beta zeta. exists (rmse, mae, r2). split; [|split; [|split]].
  - unfold rf_scores. rewrite Hpred, Hev. reflexivity.
  - reflexivity.
  - reflexivity.
  - reflexivity.
Qed.

(** The whole grid: four runs appended, in the order of the two loops. *)
Lemma wp_rf_grid d w :
  unique_ids E (runs (tracking w)) ->
  wp (rf_grid E d)
     (fun ids w' =>
        let n := length (runs (tracking w)) in
        exists s1 s2 s3 s4,
          rf_scores E d 4 4 = Ok s1 /\ rf_scores E d 4 10 = Ok s2
          /\ rf_scores E d 25 4 = Ok s3 /\ rf_scores E d 25 10 = Ok s4
          /\ ids = [new_run_id E n; new_run_id E (S n);
                    new_run_id E (S (S n)); new_run_id E (S (S (S n)))]
          /\ runs (tracking w') =
               (runs (tracking w) ++
                [rf_record (new_run_id E n) 4 4 s1;
                 rf_record (new_run_id E (S n)) 4 10 s2;
                 rf_record (new_run_id E (S (S n))) 25 4 s3;
                 rf_record (new_run_id E (S (S (S n)))) 25 10 s4])%list
          /\ xcom w' = xcom w) w.
Proof.
  intros Hu. unfold rf_grid. cbn [for_each].
  apply wp_bind, wp_bind.
  eapply wp_mono; [apply wp_rf_run, Hu|].
  intros a1 w1 (s1 & Hs1 & -> & Hr1 & Hx1). cbn zeta in Hr1.
  assert (Hu1 : unique_ids E (runs (tracking w1))).
  { rewrite Hr1. apply unique_ids_snoc; [exact Hu | reflexivity]. }
  apply wp_bind.
  eapply wp_mono; [apply wp_rf_run, Hu1|].
  intros a2 w2 (s2 & Hs2 & -> & Hr2 & Hx2). cbn zeta in Hr2.
  assert (Hu2 : unique_ids E (runs (tracking w2))).
  { rewrite Hr2. apply unique_ids_snoc; [exact Hu1 | reflexivity]. }
  apply wp_ret, wp_bind, wp_bind.
  eapply wp_mono; [apply wp_rf_run, Hu2|].
  intros a3 w3 (s3 & Hs3 & -> & Hr3 & Hx3). cbn zeta in Hr3.
  assert (Hu3 : unique_ids E (runs (tracking w3))).
  { rewrite Hr3. apply unique_ids_snoc; [exact Hu2 | reflexivity]. }
  apply wp_bind.
  eapply wp_mono; [apply wp_rf_run, Hu3|].
  intros a4 w4 (s4 & Hs4 & -> & Hr4 & Hx4). cbn zeta in Hr4.
  apply wp_ret, wp_ret.
  assert (L1 : length (runs (tracking w1)) = S (length (runs (tracking w))))
    by (rewrite Hr1, length_app; cbn; lia).
  assert (L2 : length (runs (tracking w2)) = S (S (length (runs (tracking w)))))
    by (rewrite Hr2, length_app, L1; cbn; lia).
  assert (L3 : length (runs (tracking w3)) = S (S (S (length (runs (tracking w))))))
    by (rewrite Hr3, length_app, L2; cbn; lia).
  rewrite L3 in Hr4. rewrite L2 in Hr3. rewrite L1 in Hr2.
  exists s1, s2, s3, s4. rewrite L1, L2, L3.
  repeat split; try assumption.
  - rewrite Hr4, Hr3, Hr2, Hr1. rewrite <- !app_assoc. reflexivity.
  - congruence.
Qed.

(** Loading the data asks the server once and changes neither the runs
    nor the XCom table. *)
Lemma wp_load_data w :
  wp (load_data E)
     (fun d w' => runs (tracking w') = runs (tracking w) /\ xcom w' = xcom w) w.
Proof.
  unfold load_data. apply wp_bind. unfold wp at 1, xcom_pull.
  apply wp_bind. unfold download_artifacts.
  destruct (xcom w !! ("process_data", "run_id")) as [[id|l]|]; try exact I.
  eapply wp_mono.
  - apply wp_bind. unfold wp at 1. rewrite get_run_eq.
    destruct (reachable E (requests (tracking w))); [|exact I].
    destruct (find_run id (runs (tracking w))) as [r|]; [|exact I].
    instantiate (1 := fun _ w' =>
      runs (tracking w') = runs (tracking w) /\ xcom w' = xcom w).
    destruct (bool_decide _); [|exact I]. split; reflexivity.
  - intros path w' [Hr Hx]. apply wp_lift. intros d _. split; assumption.
Qed.

(** The Ensemble Model Trainer, when it succeeds. *)
Lemma wp_make_rf ti w :
  unique_ids E (runs (tracking w)) ->
  wp (make_rf E ti)
     (fun _ w' =>
        let n := length (runs (tracking w)) in
        exists d s1 s2 s3 s4,
          rf_scores E d 4 4 = Ok s1 /\ rf_scores E d 4 10 = Ok s2
          /\ rf_scores E d 25 4 = Ok s3 /\ rf_scores E d 25 10 = Ok s4
          /\ runs (tracking w') =
               (runs (tracking w) ++
                [rf_record (new_run_id E n) 4 4 s1;
                 rf_record (new_run_id E (S n)) 4 10 s2;
                 rf_record (new_run_id E (S (S n))) 25 4 s3;
                 rf_record (new_run_id E (S (S (S n)))) 25 10 s4])%list
          /\ xcom w' =
               <[(ti, "run_id") :=
                   XList [new_run_id E n; new_run_id E (S n);
                          new_run_id E (S (S n)); new_run_id E (S (S (S n)))]]>
                 (xcom w)) w.
Proof.
  intros Hu. unfold make_rf. apply wp_bind.
  eapply wp_mono; [apply wp_load_data|].
  intros d w0 [Hr0 Hx0]. apply wp_bind.
  eapply wp_mono; [apply wp_rf_grid; rewrite Hr0; exact Hu|].
  intros ids w1 (s1 & s2 & s3 & s4 & H1 & H2 & H3 & H4 & -> & Hr1 & Hx1).
  unfold wp, xcom_push. cbn [tracking xcom].
  exists d, s1, s2, s3, s4. rewrite Hr0 in *.
  repeat split; try assumption. congruence.
Qed.

(** The Linear Model Trainer, when it succeeds. *)
Lemma wp_make_lr ti w :
  unique_ids E (runs (tracking w)) ->
  wp (make_lr E ti)
     (fun _ w' =>
        let id := new_run_id E (length (runs (tracking w))) in
        exists d s, lr_scores E d = Ok s
          /\ runs (tracking w') = (runs (tracking w) ++ [lr_record id s])%list
          /\ xcom w' = <[(ti, "run_id") := XList [id]]> (xcom w)) w.
Proof.
  intros Hu. unfold make_lr. apply wp_bind.
  eapply wp_mono; [apply wp_load_data|].
  intros d w0 [Hr0 Hx0]. apply wp_start_run. intros _ id.
  assert (Hfresh : forall r', r' ∈ runs (tracking w0) -> run_id r' <> id).
  { intros r' Hin. apply unique_ids_fresh; [rewrite Hr0|]; assumption. }
  apply wp_bind, wp_lift. intros y_predict Hpred.
  apply wp_bind, wp_lift. intros [[rmse mae] r2] Hev.
  unfold log_metric, log_model, log_folder, set_terminated.
  apply wp_bind. wp_log Hfresh.
  apply wp_bind. wp_log Hfresh.
  apply wp_bind. wp_log Hfresh.
  apply wp_bind. wp_log Hfresh.
  unfold wp at 1, xcom_push.
  wp_log Hfresh.
  cbv beta zeta. cbn [runs tracking xcom with_runs after_requests set_tracking].
  exists d, (rmse, mae, r2). unfold lr_scores. rewrite Hpred, Hev.
  subst id. rewrite Hr0, Hx0. repeat split; reflexivity.
Qed.



End Trainers.

(** ** The claims on the trainers *)

Lemma run_result {A} (c : M A) (w : World) (a : A) :
  fst (c w) = Ok a -> c w = (Ok a, snd (c w)).
Proof. destruct (c w) as [r w']. cbn. intros ->. reflexivity. Qed.

Lemma run_failure {A} (c : M A) (w : World) :
  is_ok (fst (c w)) = false -> exists e, c w = (Err e, snd (c w)).
Proof. destruct (c w) as [[a|e] w']; cbn; [discriminate | eauto]. Qed.

Lemma sample_ids_inj m n : new_run_id sample_env m = new_run_id sample_env n -> m = n.
Proof.
  cbn. intros H. injection H as H. exact (pretty_nat_inj m n H).
Qed.

Lemma published_world_unique : unique_ids sample_env (runs (tracking published_world)).
Proof.
  split; [exact sample_ids_inj|].
  intros [|i] r Hi; cbn in Hi; [|discriminate].
  injection Hi as <-. reflexivity.
Qed.

(** C2: a successful [make_rf] leaves exactly four new runs on the
    server, appended in the order (4,4), (4,10), (25,4), (25,10) of the
    outer loop over n_estimators and the inner loop over max_depth, each
    finished, named "rf" and holding both hyperparameters as params. *)
Theorem make_rf_four_runs (E : Env) (ti : string) (w w' : World) :
  unique_ids E (runs (tracking w)) ->
  make_rf E ti w = (Ok tt, w') ->
  exists id1 id2 id3 id4 s1 s2 s3 s4,
    runs (tracking w') =
      (runs (tracking w) ++
       [rf_record id1 4 4 s1; rf_record id2 4 10 s2;
        rf_record id3 25 4 s3; rf_record id4 25 10 s4])%list
    /\ length (runs (tracking w')) = (length (runs (tracking w)) + 4)%nat
    /\ Forall2 (fun r p =>
         params r !! "n_estimators" = Some (fst p)
         /\ params r !! "max_depth" = Some (snd p)
         /\ size (params r) = 2%nat)
         (drop (length (runs (tracking w))) (runs (tracking w')))
         [(4, 4); (4, 10); (25, 4); (25, 10)]%Z.
Proof.
  intros Hu Hrun.
  pose proof (wp_elim _ _ _ _ _ (wp_make_rf E ti w Hu) Hrun) as H.
  cbv beta zeta in H.
  destruct H as (d & s1 & s2 & s3 & s4 & _ & _ & _ & _ & Hr & _).
  do 4 eexists. exists s1, s2, s3, s4. split; [exact Hr|]. rewrite Hr. split.
  - rewrite length_app. reflexivity.
  - rewrite drop_app_length.
    repeat constructor.
Qed.

Lemma make_rf_four_runs_witness :
  exists w' id1 id2 id3 id4 s1 s2 s3 s4,
    runs (tracking w') =
      (runs (tracking published_world) ++
       [rf_record id1 4 4 s1; rf_record id2 4 10 s2;
        rf_record id3 25 4 s3; rf_record id4 25 10 s4])%list
    /\ length (runs (tracking w')) = (length (runs (tracking published_world)) + 4)%nat
    /\ Forall2 (fun r p =>
         params r !! "n_estimators" = Some (fst p)
         /\ params r !! "max_depth" = Some (snd p)
         /\ size (params r) = 2%nat)
         (drop (length (runs (tracking published_world))) (runs (tracking w')))
         [(4, 4); (4, 10); (25, 4); (25, 10)]%Z.
Proof.
  exists (snd (make_rf sample_env "model_rf" published_world)).
  apply (make_rf_four_runs sample_env "model_rf" published_world).
  - exact published_world_unique.
  - apply run_result. vm_compute. reflexivity.
Defined.

(** C10: when [make_rf] raises, in loading the data or in any of the
    four iterations, the XCom table is the one it started from: no
    "run_id" message, whole or partial, has been pushed. *)
Theorem make_rf_failure_publishes_nothing (E : Env) (ti : string) (w w' : World)
    (e : exn) :
  make_rf E ti w = (Err e, w') -> xcom w' = xcom w.
Proof.
  unfold make_rf. rewrite bind_eq.
  pose proof (keeps_load_data E w) as Hl.
  destruct (load_data E w) as [[d|e0] w0]; cbn in Hl.
  - intros H. rewrite <- Hl.
    apply (push_last_err (rf_grid E d) ti "run_id" XList w0 e w');
      [apply keeps_rf_grid | exact H].
  - intros [= _ <-]. exact Hl.
Qed.

Lemma make_rf_failure_publishes_nothing_witness :
  exists e,
    make_rf failing_env "model_rf" published_world
      = (Err e, snd (make_rf failing_env "model_rf" published_world))
    /\ xcom (snd (make_rf failing_env "model_rf" published_world))
       = xcom published_world.
Proof.
  destruct (run_failure (make_rf failing_env "model_rf") published_world)
    as [e He]; [vm_compute; reflexivity|].
  exists e. split; [exact He|].
  apply (make_rf_failure_publishes_nothing failing_env "model_rf"
           published_world _ e He).
Defined.

(** C5: a successful Linear Model Trainer publishes under "run_id" the
    one-element list of the id of the run it created; a successful
    Ensemble Model Trainer publishes under the same key the list of the
    ids of its four runs, in creation order; and in a world holding
    these two messages the Model Selector's candidate list is the linear
    id followed by the four forest ids: five run ids. *)
Theorem trainers_publish_five_candidates (E : Env) (wa wa' wb wb' w : World) :
  unique_ids E (runs (tracking wa)) -> unique_ids E (runs (tracking wb)) ->
  task_lr E wa = (Ok tt, wa') -> task_rf E wb = (Ok tt, wb') ->
  xcom w !! ("model_lr", "run_id") = xcom wa' !! ("model_lr", "run_id") ->
  xcom w !! ("model_rf", "run_id") = xcom wb' !! ("model_rf", "run_id") ->
  exists a s b1 b2 b3 b4,
    xcom wa' !! ("model_lr", "run_id") = Some (XList [a])
    /\ runs (tracking wa') = (runs (tracking wa) ++ [lr_record a s])%list
    /\ xcom wb' !! ("model_rf", "run_id") = Some (XList [b1; b2; b3; b4])
    /\ map run_id (drop (length (runs (tracking wb))) (runs (tracking wb')))
       = [b1; b2; b3; b4]
    /\ candidate_ids w = (Ok [a; b1; b2; b3; b4], w)
    /\ length [a; b1; b2; b3; b4] = 5%nat.
Proof.
  intros Hua Hub Hlr Hrf Hwa Hwb.
  pose proof (wp_elim _ _ _ _ _ (wp_make_lr E "model_lr" wa Hua) Hlr) as Ha.
  pose proof (wp_elim _ _ _ _ _ (wp_make_rf E "model_rf" wb Hub) Hrf) as Hb.
  cbv beta zeta in Ha, Hb.
  destruct Ha as (_ & s & _ & Hra & Hxa).
  destruct Hb as (_ & s1 & s2 & s3 & s4 & _ & _ & _ & _ & Hrb & Hxb).
  do 2 eexists. do 4 eexists.
  assert (Hma : xcom wa' !! ("model_lr", "run_id") = Some (XList [_]))
    by (rewrite Hxa; apply lookup_insert_eq).
  assert (Hmb : xcom wb' !! ("model_rf", "run_id") = Some (XList [_; _; _; _]))
    by (rewrite Hxb; apply lookup_insert_eq).
  split; [exact Hma|]. split; [exact Hra|]. split; [exact Hmb|]. split.
  - rewrite Hrb, drop_app_length. reflexivity.
  - split; [|reflexivity].
    rewrite Hma in Hwa. rewrite Hmb in Hwb.
    apply (candidate_ids_lists w [_] [_; _; _; _] Hwa Hwb).
Qed.

Lemma trainers_publish_five_candidates_witness :
  exists wa' wb' a s b1 b2 b3 b4,
    xcom wa' !! ("model_lr", "run_id") = Some (XList [a])
    /\ runs (tracking wa') = (runs (tracking published_world) ++ [lr_record a s])%list
    /\ xcom wb' !! ("model_rf", "run_id") = Some (XList [b1; b2; b3; b4])
    /\ map run_id (drop (length (runs (tracking wa'))) (runs (tracking wb')))
       = [b1; b2; b3; b4]
    /\ candidate_ids wb' = (Ok [a; b1; b2; b3; b4], wb')
    /\ length [a; b1; b2; b3; b4] = 5%nat.
Proof.
  exists (snd (task_lr sample_env published_world)).
  exists (snd (task_rf sample_env (snd (task_lr sample_env published_world)))).
  assert (Hlr : task_lr sample_env published_world
                = (Ok tt, snd (task_lr sample_env published_world)))
    by (apply run_result; vm_compute; reflexivity).
  apply (trainers_publish_five_candidates sample_env published_world).
  - exact published_world_unique.
  - pose proof (wp_elim _ _ _ _ _
      (wp_make_lr sample_env "model_lr" published_world published_world_unique)
      Hlr) as (_ & s & _ & Hr & _).
    rewrite Hr. apply unique_ids_snoc; [exact published_world_unique | reflexivity].
  - exact Hlr.
  - apply run_result. vm_compute. reflexivity.
  - vm_compute. reflexivity.
  - reflexivity.
Defined.

(** ** The Model Promoter *)

Section Promoter.
Variable E : Env.

Lemma split_slash_path id path :
  slash_free id = true ->
  split_slash (id ++ String "/"%char path) = (id, Some path).
Proof.
  induction id as [|c id IH]; intros H.
  - reflexivity.
  - cbn [slash_free] in H. apply andb_prop in H as [Hc Hid].
    apply negb_true_iff in Hc.
    change (split_slash (String c (id ++ String "/"%char path))
            = (String c id, Some path)).
    cbn [split_slash]. rewrite Hc, (IH Hid). reflexivity.
Qed.

Lemma parse_runs_uri_model id :
  id <> EmptyString -> slash_free id = true ->
  parse_runs_uri ("runs:/" ++ id ++ "/model") = Some (id, "model").
Proof.
  intros Hne Hs. unfold parse_runs_uri.
  assert (Hp : strip_prefix "runs:/" ("runs:/" ++ id ++ "/model")
               = Some (id ++ String "/"%char "model")) by reflexivity.
  rewrite Hp, (split_slash_path id "model" Hs).
  destruct id; [congruence | reflexivity].
Qed.

Lemma set_stage_last name version s vs id path :
  (forall v, v ∈ vs -> mv_name v = name -> mv_version v <> version) ->
  set_stage name version s (vs ++ [mkVersion name version id path StageNone])
  = Some (vs ++ [mkVersion name version id path s])%list.
Proof.
  intros Hfree. induction vs as [|v vs IH]; cbn.
  - rewrite bool_decide_eq_true_2 by reflexivity.
    rewrite Nat.eqb_refl. reflexivity.
  - destruct (bool_decide (mv_name v = name)) eqn:Hn; cbn.
    + apply bool_decide_eq_true in Hn.
      rewrite (proj2 (Nat.eqb_neq _ _) (Hfree v (list_elem_of_here _ _) Hn)).
      rewrite IH; [reflexivity|].
      intros v' Hin. apply Hfree, list_elem_of_further, Hin.
    + rewrite IH; [reflexivity|].
      intros v' Hin. apply Hfree, list_elem_of_further, Hin.
Qed.

Lemma twp_get_run id r (Q : Run -> World -> Prop) w :
  reachable E (requests (tracking w)) = true ->
  find_run id (runs (tracking w)) = Some r ->
  Q r (after_requests 1 w) ->
  twp (get_run E id) Q w.
Proof.
  intros Hup Hf HQ. unfold twp. rewrite get_run_eq, Hup, Hf. exact HQ.
Qed.

(** The promotion in full: four requests, a new version of "BestModel"
    for the model of the selected run, in stage Production. *)
Lemma twp_register_best_model ti w id r :
  xcom w !! ("get_best_model", "best_model_run_id") = Some (XStr id) ->
  id <> EmptyString -> slash_free id = true ->
  find_run id (runs (tracking w)) = Some r ->
  version_free "BestModel" (versions (tracking w)) ->
  answers E w 4 ->
  twp (register_best_model E ti)
    (fun _ w' =>
       versions (tracking w') =
         (versions (tracking w) ++
          [mkVersion "BestModel"
             (next_version "BestModel" (versions (tracking w)))
             id "model" Production])%list
       /\ "BestModel" ∈ registered (tracking w')
       /\ runs (tracking w') = runs (tracking w)
       /\ xcom w' = xcom w) w.
Proof.
  intros Hx Hne Hs Hr Hfree Hans.
  unfold register_best_model. apply twp_bind.
  unfold twp at 1, xcom_pull. rewrite Hx. cbn [py_str].
  apply twp_bind. unfold register_model.
  apply twp_bind, twp_request; [apply (Hans 0%nat); lia|].
  apply twp_bind. unfold twp at 1, modify_tracking.
  rewrite (parse_runs_uri_model id Hne Hs).
  apply twp_bind. apply (twp_get_run id r); [apply (Hans 1%nat); lia | exact Hr|].
  apply twp_bind, twp_request; [apply (Hans 2%nat); lia|].
  apply twp_bind. unfold twp at 1, get_tracking.
  apply twp_bind. unfold twp at 1, set_versions, modify_tracking.
  unfold twp at 1, mret, M_ret.
  unfold transition_model_version_stage.
  apply twp_bind, twp_request; [apply (Hans 3%nat); lia|].
  apply twp_bind. unfold twp at 1, get_tracking.
  cbn [tracking versions set_tracking after_requests mv_name mv_version].
  rewrite (set_stage_last "BestModel" _ Production _ id "model" Hfree).
  unfold twp, set_versions, modify_tracking.
  cbn [tracking versions registered runs xcom set_tracking after_requests].
  repeat split. set_solver.
Qed.

End Promoter.

(** C6: whatever the metrics of the selected run, when it is on the
    server and the server answers, [register_best_model] registers the
    model of "runs:/<id>/model" under the name "BestModel" as a new
    version and leaves that same version in stage "Production"; nothing
    in it looks at a metric, asks for approval or undoes the step. *)
Theorem register_best_model_promotes (E : Env) (ti : string) (w : World)
    (id : string) (r : Run) :
  xcom w !! ("get_best_model", "best_model_run_id") = Some (XStr id) ->
  id <> EmptyString -> slash_free id = true ->
  find_run id (runs (tracking w)) = Some r ->
  version_free "BestModel" (versions (tracking w)) ->
  answers E w 4 ->
  exists w',
    register_best_model E ti w = (Ok tt, w')
    /\ versions (tracking w') =
         (versions (tracking w) ++
          [mkVersion "BestModel"
             (next_version "BestModel" (versions (tracking w)))
             id "model" Production])%list
    /\ "BestModel" ∈ registered (tracking w')
    /\ runs (tracking w') = runs (tracking w)
    /\ xcom w' = xcom w.
Proof.
  intros Hx Hne Hs Hr Hfree Hans.
  destruct (twp_elim _ _ _
              (twp_register_best_model E ti w id r Hx Hne Hs Hr Hfree Hans))
    as ([] & w' & Hrun & Hpost).
  exists w'. split; [exact Hrun | exact Hpost].
Qed.

Lemma register_best_model_promotes_witness :
  exists w',
    register_best_model sample_env "register_best_model" selected_world = (Ok tt, w')
    /\ versions (tracking w') =
         (versions (tracking selected_world) ++
          [mkVersion "BestModel"
             (next_version "BestModel" (versions (tracking selected_world)))
             "b" "model" Production])%list
    /\ "BestModel" ∈ registered (tracking w')
    /\ runs (tracking w') = runs (tracking selected_world)
    /\ xcom w' = xcom selected_world.
Proof.
  apply (register_best_model_promotes sample_env "register_best_model"
           selected_world "b" (scored_run "b" (Num (3 / 4)))).
  - reflexivity.
  - discriminate.
  - reflexivity.
  - reflexivity.
  - intros v Hv. apply elem_of_nil in Hv. destruct Hv.
  - intros k Hk. reflexivity.
Defined.

(** ** The metrics *)

Module MetricsFacts.
Import Metrics.
Local Open Scope R_scope.

Lemma Rltb_false x y : Rltb x y = false <-> y <= x.
Proof.
  unfold Rltb. destruct (Rlt_dec x y); split; intros;
    try discriminate; try lra; reflexivity.
Qed.

(** *** Rounding *)

Section Rounding.
Variable F : format.

Lemma rnd_zero : rnd F 0 = Num 0.
Proof.
  apply (rnd_int F 0). pose proof (exact_ints_pos F). lia.
Qed.

Lemma rnd_one : rnd F 1 = Num 1.
Proof. apply (rnd_int F 1). pose proof (exact_ints_pos F). lia. Qed.










(** The count of a non-empty array whose length is a float. *)
Lemma of_nat_exact n :
  (Z.of_nat n <= exact_ints F)%Z -> of_nat F n = Num (INR n).
Proof. apply rnd_int. Qed.






(** *** The bound on one R² score and on their average *)






End Rounding.

(** *** Shapes *)

Definition width {A} (k : nat) (m : list (list A)) : Prop :=
  Forall (fun row => length row = k) m.

Lemma rectangular_width m : rectangular m = true -> width (n_outputs m) m.
Proof.
  unfold rectangular, width. intros H. apply Forall_forall. intros row Hin.
  rewrite forallb_forall in H. apply Nat.eqb_eq, H, list_elem_of_In, Hin.
Qed.

Lemma check_reg_targets_shape a p :
  check_reg_targets a p = true ->
  length a <> 0%nat /\ n_outputs a <> 0%nat
  /\ width (n_outputs a) a /\ width (n_outputs a) p /\ length a = length p.
Proof.
  unfold check_reg_targets. intros H.
  repeat (apply andb_prop in H as [H ?]).
  repeat match goal with
         | H : negb _ = true |- _ => apply negb_true_iff, Nat.eqb_neq in H
         | H : Nat.eqb _ _ = true |- _ => apply Nat.eqb_eq in H
         end.
  repeat split; try assumption.
  - apply rectangular_width. assumption.
  - replace (n_outputs a) with (n_outputs p) by congruence.
    apply rectangular_width. assumption.
Qed.

Lemma zip_matrix_width (f : R -> R -> pyfloat) k a p :
  width k a -> width k p -> width k (zip_matrix f a p).
Proof.
  unfold width, zip_matrix. intros Ha. revert p.
  induction Ha as [|r a Hr _ IH]; intros p Hp; [constructor|].
  destruct Hp as [|q p Hq Hp]; constructor; [|apply IH, Hp].
  rewrite length_zip_with. lia.
Qed.

Lemma zip_matrix_length (f : R -> R -> pyfloat) a p :
  length a = length p -> length (zip_matrix f a p) = length a.
Proof. intros H. unfold zip_matrix. rewrite length_zip_with. lia. Qed.


Lemma zip_with_forall {A B} (P : A -> Prop) (Q : B -> Prop) (f : A -> B -> A) u v :
  (forall x y, P x -> Q y -> P (f x y)) ->
  Forall P u -> Forall Q v -> Forall P (zip_with f u v).
Proof.
  intros Hf Hu. revert v. induction Hu as [|x u Hx _ IH]; intros v Hv; cbn;
    [constructor|].
  destruct Hv as [|y v Hy Hv]; constructor; [apply Hf; assumption | apply IH, Hv].
Qed.

Section Sums.
Variable F : format.

Lemma fold_zip_length k rest :
  forall acc, width k rest -> length acc = k ->
    length (fold_left (zip_with (fadd F)) rest acc) = k.
Proof.
  induction rest as [|row rest IH]; intros acc Hw Hacc; cbn; [exact Hacc|].
  inversion Hw as [|? ? Hrow Hrest]; subst.
  apply IH; [exact Hrest|]. rewrite length_zip_with. lia.
Qed.

Lemma sum_axis0_length k m :
  m <> [] -> width k m -> length (sum_axis0 F m) = k.
Proof.
  destruct m as [|row rest]; [congruence|]. intros _ Hw.
  inversion Hw; subst. cbn. apply fold_zip_length; [assumption | reflexivity].
Qed.

Lemma fold_zip_forall (P Q : pyfloat -> Prop) rest :
  (forall x y, P x -> Q y -> P (fadd F x y)) ->
  forall acc, Forall P acc -> Forall (Forall Q) rest ->
    Forall P (fold_left (zip_with (fadd F)) rest acc).
Proof.
  intros Hf. induction rest as [|row rest IH]; intros acc Hacc Hrest; cbn;
    [exact Hacc|].
  inversion Hrest; subst. apply IH; [|assumption].
  apply (zip_with_forall P Q); assumption.
Qed.

Lemma sum_axis0_forall (P Q : pyfloat -> Prop) m :
  (forall x, Q x -> P x) ->
  (forall x y, P x -> Q y -> P (fadd F x y)) ->
  Forall (Forall Q) m -> Forall P (sum_axis0 F m).
Proof.
  intros HQP Hf Hm. destruct m as [|row rest]; [constructor|].
  inversion Hm; subst. cbn. apply (fold_zip_forall P Q); try assumption.
  eapply Forall_impl; [eassumption | exact HQP].
Qed.







Lemma centred_sq_width k a : width k a -> width k (centred_sq F a).
Proof.
  intros Ha. unfold centred_sq, width.
  destruct a as [|row0 rest]; [constructor|].
  assert (Hmu : length (average_axis0 F (map (map Num) (row0 :: rest))) = k).
  { unfold average_axis0. rewrite length_map.
    apply sum_axis0_length; [discriminate|].
    apply Forall_fmap. eapply Forall_impl; [exact Ha|].
    intros row Hrow. cbn. rewrite length_map. exact Hrow. }
  apply Forall_forall. intros x Hx.
  apply list_elem_of_fmap in Hx as (row & -> & Hin).
  rewrite length_zip_with, Hmu.
  pose proof (proj1 (Forall_forall _ _) Ha row Hin) as Hrow. cbn in Hrow. lia.
Qed.


End Sums.

End MetricsFacts.

(** ** The array computation, column by column *)

Module MetricsColumns.
Import Metrics MetricsFacts.








Section Columns.
Variable F : format.










End Columns.
End MetricsColumns.

(** ** A prediction without error *)

Module MetricsPerfect.
Import Metrics MetricsFacts.
Local Open Scope R_scope.

Section Perfect.
Variable F : format.

Definition zero (x : pyfloat) : Prop := x = Num 0.

Lemma sq_err_same x : zero (sq_err F x x).
Proof.
  unfold zero, sq_err. cbn. rewrite Rminus_diag, rnd_zero. cbn.
  rewrite Rmult_0_l. apply rnd_zero.
Qed.

Lemma abs_err_same x : zero (abs_err F x x).
Proof.
  unfold zero, abs_err. cbn. rewrite Rminus_diag, rnd_zero. cbn.
  rewrite Rabs_R0. reflexivity.
Qed.

Lemma fadd_zero x y : zero x -> zero y -> zero (fadd F x y).
Proof. intros -> ->. unfold zero. cbn. rewrite Rplus_0_l. apply rnd_zero. Qed.

(** The count of a non-empty array is a float that is at least one, or
    +inf. *)
Lemma count_cases n :
  (0 < n)%nat -> of_nat F n = PInf \/ exists c, of_nat F n = Num c /\ 1 <= c.
Proof.
  intros Hn. unfold of_nat.
  assert (H : fle (rnd F 1) (rnd F (INR n)) = true).
  { apply rnd_mono. change 1 with (INR 1). apply le_INR. lia. }
  rewrite rnd_one in H.
  destruct (rnd F (INR n)) as [c| | |]; cbn in H; try discriminate; auto.
  right. exists c. split; [reflexivity | apply Rleb_true, H].
Qed.

Lemma fdiv_zero_count x n : zero x -> (0 < n)%nat -> zero (fdiv F x (of_nat F n)).
Proof.
  intros -> Hn. unfold zero.
  destruct (count_cases n Hn) as [->|(c & -> & Hc)]; cbn; [reflexivity|].
  rewrite (proj2 (Reqb_false _ _)) by lra.
  unfold Rdiv. rewrite Rmult_0_l. apply rnd_zero.
Qed.

Lemma sum_zero v : Forall zero v -> zero (sum F v).
Proof.
  destruct v as [|x t]; intros Hv; [reflexivity|]. cbn.
  inversion Hv as [|? ? Hx Ht]; subst. clear Hv. revert x Hx.
  induction Ht as [|y t Hy _ IH]; intros x Hx; cbn; [exact Hx|].
  apply IH, fadd_zero; assumption.
Qed.

(** The average over the outputs of the column averages of a matrix of
    zeros. *)
Lemma averages_zero k m :
  m <> [] -> k <> 0%nat -> width k m -> Forall (Forall zero) m ->
  zero (average F (average_axis0 F m)).
Proof.
  intros Hm Hk Hw Hz.
  assert (Hlen : (0 < length m)%nat) by (destruct m; [congruence | cbn; lia]).
  assert (Hcol : Forall zero (average_axis0 F m)).
  { unfold average_axis0. apply Forall_fmap.
    eapply Forall_impl;
      [apply (sum_axis0_forall F zero zero); [auto | apply fadd_zero | exact Hz]|].
    intros x Hx. cbn. apply fdiv_zero_count; assumption. }
  unfold average. apply fdiv_zero_count; [apply sum_zero, Hcol|].
  unfold average_axis0. rewrite length_map, (sum_axis0_length F k m Hm Hw). lia.
Qed.

Lemma output_score_zero den : output_score F (Num 0) den = Num 1.
Proof.
  unfold output_score. cbn [feq]. rewrite (proj2 (Reqb_true 0 0) eq_refl).
  cbn. rewrite !andb_false_r. reflexivity.
Qed.

Lemma scores_of_zero num den :
  Forall zero num -> length den = length num ->
  zip_with (output_score F) num den = replicate (length num) (Num 1).
Proof.
  intros Hn. revert den. induction Hn as [|x num Hx _ IH]; intros [|y den] H;
    cbn in *; try discriminate; [reflexivity|].
  rewrite Hx, output_score_zero, IH by lia. reflexivity.
Qed.

Lemma fold_ones t :
  forall i, (Z.of_nat (i + t) <= exact_ints F)%Z ->
    fold_left (fadd F) (replicate t (Num 1)) (Num (INR i)) = Num (INR (i + t)).
Proof.
  induction t as [|t IH]; intros i Hfit; cbn [replicate fold_left].
  - rewrite Nat.add_0_r. reflexivity.
  - cbn [fadd]. rewrite <- S_INR, (rnd_int F (S i)) by lia.
    rewrite (IH (S i)) by lia. f_equal. f_equal. lia.
Qed.

Lemma average_ones k :
  k <> 0%nat -> (Z.of_nat k <= exact_ints F)%Z ->
  average F (replicate k (Num 1)) = Num 1.
Proof.
  intros Hk Hfit. unfold average. rewrite length_replicate, (of_nat_exact F k Hfit).
  destruct k as [|k]; [congruence|]. cbn [replicate sum].
  change (Num 1) with (Num (INR 1)) at 2.
  rewrite (fold_ones k 1) by lia. change (1 + k)%nat with (S k).
  assert (Hpos : 0 < INR (S k)) by (apply lt_0_INR; lia).
  cbn [fdiv]. rewrite (proj2 (Reqb_false _ _)) by lra.
  unfold Rdiv. rewrite Rinv_r by lra. apply rnd_one.
Qed.

(** A prediction equal to the targets. *)
Lemma eval_metrics_same a :
  check_reg_targets a a = true -> (2 <= length a)%nat ->
  (Z.of_nat (n_outputs a) <= exact_ints F)%Z ->
  eval_metrics F a a = Ok (Num 0, Num 0, Num 1).
Proof.
  intros Hc Hlen Hfit.
  destruct (check_reg_targets_shape a a Hc) as (Hn & Hk & Ha & _ & _).
  assert (Hne : forall f, zip_matrix f a a <> []).
  { intros f Hnil. apply (f_equal length) in Hnil.
    rewrite zip_matrix_length in Hnil by reflexivity. exact (Hn Hnil). }
  assert (Hmean : forall f, (forall x, zero (f x x)) ->
            average F (average_axis0 F (zip_matrix f a a)) = Num 0).
  { intros f Hf. apply (averages_zero (n_outputs a)).
    - apply Hne.
    - exact Hk.
    - apply zip_matrix_width; assumption.
    - clear -Hf. unfold zip_matrix. induction a as [|r a IH]; cbn; constructor;
        [|exact IH].
      induction r as [|x r IHr]; cbn; constructor; [apply Hf | exact IHr]. }
  unfold eval_metrics, mean_squared_error, mean_absolute_error, r2_score.
  rewrite Hc. rewrite (Hmean _ sq_err_same), (Hmean _ abs_err_same).
  destruct (Nat.ltb_spec (length a) 2) as [Hlt|_]; [lia|].
  assert (Hnum : Forall zero (sum_axis0 F (zip_matrix (sq_err F) a a))).
  { apply (sum_axis0_forall F zero zero); [auto | apply fadd_zero|].
    unfold zip_matrix. clear. induction a as [|r a IH]; cbn; constructor;
      [|exact IH].
    induction r as [|x r IHr]; cbn; constructor; [apply sq_err_same | exact IHr]. }
  assert (Hl1 : length (sum_axis0 F (zip_matrix (sq_err F) a a)) = n_outputs a).
  { apply sum_axis0_length; [apply Hne | apply zip_matrix_width; assumption]. }
  assert (Hl2 : length (sum_axis0 F (centred_sq F a)) = n_outputs a).
  { apply sum_axis0_length; [|apply centred_sq_width, Ha].
    unfold centred_sq. intros Hnil. apply (f_equal length) in Hnil.
    rewrite length_map in Hnil. exact (Hn Hnil). }
  rewrite (scores_of_zero _ _ Hnum) by congruence.
  rewrite Hl1, (average_ones _ Hk Hfit).
  cbn [fsqrt]. rewrite (proj2 (Rltb_false 0 0)) by lra.
  rewrite sqrt_0, rnd_zero. reflexivity.
Qed.

End Perfect.
End MetricsPerfect.

(** ** Overflow *)

Section Overflow.
Local Open Scope R_scope.






End Overflow.









(** ** The model on small inputs *)

Example argmax_of_tie : np_argmax [Num 1; Num 3; Num 3; Num 2] = Ok 1%nat.
Proof.
  unfold np_argmax, argmax_scan, is_nan, fle.
  rewrite (proj2 (Rleb_false 3 1)) by lra.
  rewrite (proj2 (Rleb_true 3 3)) by lra.
  rewrite (proj2 (Rleb_true 2 3)) by lra.
  reflexivity.
Qed.

Example argmax_of_nan : np_argmax [Num 1; NaN; Num 3] = Ok 1%nat.
Proof. reflexivity. Qed.

Example argmax_of_nothing : np_argmax [] = Err ValueError.
Proof. reflexivity. Qed.

Example shapes_must_agree :
  Metrics.eval_metrics exact_format [[1; 2]; [3; 4]]%R [[1; 2]]%R = Err ValueError.
Proof. reflexivity. Qed.

Example uri_of_run : parse_runs_uri "runs:/4f2a/model" = Some ("4f2a", "model").
Proof. reflexivity. Qed.

Example selector_without_lists :
  fst (get_best_model sample_env "get_best_model" published_world) = Err TypeError.
Proof. reflexivity. Qed.

Example failing_forest_leaves_runs :
  map status (runs (tracking (snd (make_rf failing_env "model_rf" published_world))))
  = [FINISHED; FINISHED; FINISHED; FAILED].
Proof. vm_compute. reflexivity. Qed.

(** ** What the tasks leave alone *)

Section Frames.
Variable E : Env.

Lemma keeps_writes_only {A} (c : M A) k : keeps_xcom c -> writes_only k c.
Proof. intros H w k' _. rewrite H. reflexivity. Qed.

Lemma writes_only_bind {A B} (c : M A) (f : A -> M B) k :
  writes_only k c -> (forall a, writes_only k (f a)) -> writes_only k (c ≫= f).
Proof.
  intros Hc Hf w k' Hk. rewrite bind_eq. specialize (Hc w k' Hk).
  destruct (c w) as [[a|e] w1]; cbn in *; [|exact Hc].
  rewrite (Hf a w1 k' Hk). exact Hc.
Qed.

Lemma writes_only_push ti key v : writes_only (ti, key) (xcom_push ti key v).
Proof. intros w k' Hk. cbn. apply lookup_insert_ne. congruence. Qed.

Lemma writes_only_start_run {A} name (body : string -> M A) k :
  (forall id, writes_only k (body id)) -> writes_only k (start_run E name body).
Proof.
  intros Hb w k' Hk. unfold start_run.
  pose proof (keeps_create_run E name w) as Hc.
  destruct (create_run E name w) as [[id|e] w1]; cbn in Hc; [|cbn; congruence].
  pose proof (Hb id w1 k' Hk) as Hb1.
  destruct (body id w1) as [[a|e] w2]; cbn in Hb1.
  - pose proof (keeps_set_terminated E id FINISHED w2) as Ht.
    destruct (set_terminated E id FINISHED w2) as [[u|e] w3]; cbn in *; congruence.
  - pose proof (keeps_set_terminated E id FAILED w2) as Ht.
    destruct (set_terminated E id FAILED w2) as [[u|e'] w3]; cbn in *; congruence.
Qed.

Lemma keeps_register_model uri name : keeps_xcom (register_model E uri name).
Proof.
  unfold register_model, set_versions.
  apply keeps_bind; [apply keeps_request | intros _].
  apply keeps_bind; [apply keeps_modify | intros _].
  destruct (parse_runs_uri uri) as [[id path]|]; [|apply keeps_raise].
  apply keeps_bind; [apply keeps_get_run | intros _].
  apply keeps_bind; [apply keeps_request | intros _].
  apply keeps_bind; [apply keeps_get_tracking | intros t].
  apply keeps_bind; [apply keeps_modify | intros _]. apply keeps_ret.
Qed.

Lemma keeps_transition name v s : keeps_xcom (transition_model_version_stage E name v s).
Proof.
  unfold transition_model_version_stage, set_versions.
  apply keeps_bind; [apply keeps_request | intros _].
  apply keeps_bind; [apply keeps_get_tracking | intros t].
  destruct (set_stage name v s (versions t)); [apply keeps_modify | apply keeps_raise].
Qed.

Lemma keeps_register_best_model ti : keeps_xcom (register_best_model E ti).
Proof.
  unfold register_best_model.
  apply keeps_bind; [apply keeps_xcom_pull | intros v].
  apply keeps_bind; [apply keeps_register_model | intros mv].
  apply keeps_transition.
Qed.

End Frames.

(** X1: whatever their outcome, the three producing tasks change no XCom
    entry but the "run_id" of their own task instance, the Model Selector
    none but its own "best_model_run_id", and the Model Promoter none at
    all: no task can overwrite the message of another. *)
Theorem tasks_write_their_own_key (E : Env) (ti : string) :
  writes_only (ti, "run_id") (process_data E ti)
  /\ writes_only (ti, "run_id") (make_lr E ti)
  /\ writes_only (ti, "run_id") (make_rf E ti)
  /\ writes_only (best_key ti) (get_best_model E ti)
  /\ keeps_xcom (register_best_model E ti).
Proof.
  split; [|split; [|split; [|split]]].
  - unfold process_data. apply writes_only_start_run. intros id.
    apply writes_only_bind; [apply keeps_writes_only, keeps_log_artifact|].
    intros _. apply writes_only_push.
  - unfold make_lr.
    apply writes_only_bind; [apply keeps_writes_only, keeps_load_data|].
    intros d. apply writes_only_start_run. intros id.
    apply writes_only_bind; [apply keeps_writes_only, keeps_lift|].
    intros y. apply writes_only_bind; [apply keeps_writes_only, keeps_lift|].
    intros [[rmse mae] r2].
    do 3 (apply writes_only_bind; [apply keeps_writes_only, keeps_log_metric|];
          intros _).
    apply writes_only_bind; [apply keeps_writes_only, keeps_log_model|].
    intros _. apply writes_only_push.
  - unfold make_rf.
    apply writes_only_bind; [apply keeps_writes_only, keeps_load_data|].
    intros d. apply writes_only_bind; [apply keeps_writes_only, keeps_rf_grid|].
    intros ids. apply writes_only_push.
  - unfold get_best_model.
    apply writes_only_bind; [apply keeps_writes_only, keeps_candidate_ids|].
    intros ids. apply writes_only_bind; [apply keeps_writes_only, keeps_best_of|].
    intros r. apply writes_only_push.
  - apply keeps_register_best_model.
Qed.

Section ServerFrames.
Variable E : Env.

Lemma preserves_bind {A B X} (obs : World -> X) (c : M A) (f : A -> M B) :
  preserves obs c -> (forall a, preserves obs (f a)) -> preserves obs (c ≫= f).
Proof.
  intros Hc Hf w. rewrite bind_eq. specialize (Hc w).
  destruct (c w) as [[a|e] w1]; cbn in *; [|exact Hc].
  rewrite Hf. exact Hc.
Qed.

Lemma preserves_pure {A X} (obs : World -> X) (c : M A) :
  (forall w, snd (c w) = w) -> preserves obs c.
Proof. intros H w. rewrite H. reflexivity. Qed.

Lemma preserves_list_comp {A B X} (obs : World -> X) (f : A -> M B) l :
  (forall a, preserves obs (f a)) -> preserves obs (list_comp f l).
Proof.
  intros Hf. induction l; cbn [list_comp].
  - apply preserves_pure. reflexivity.
  - apply preserves_bind; [apply Hf | intros y].
    apply preserves_bind; [exact IHl | intros ys].
    apply preserves_pure. reflexivity.
Qed.

(** Observations that do not depend on the request counter or on XCom. *)
Definition of_server {X} (obs : World -> X) : Prop :=
  forall t t' x x',
    runs t = runs t' -> registered t = registered t' -> versions t = versions t' ->
    obs (mkWorld t x) = obs (mkWorld t' x').

Lemma of_server_runs : of_server server_runs.
Proof. intros t t' x x' H _ _. exact H. Qed.

Lemma of_server_ids : of_server run_ids.
Proof. intros t t' x x' H _ _. unfold run_ids. cbn. rewrite H. reflexivity. Qed.

Lemma of_server_registry : of_server registry.
Proof. intros t t' x x' _ H1 H2. unfold registry. cbn. rewrite H1, H2. reflexivity. Qed.

Lemma preserves_request {X} (obs : World -> X) : of_server obs -> preserves obs (request E).
Proof.
  intros H [t x]. unfold request. destruct (reachable E _); apply H; reflexivity.
Qed.

Lemma preserves_push {X} (obs : World -> X) ti key v :
  of_server obs -> preserves obs (xcom_push ti key v).
Proof. intros H [t x]. apply H; reflexivity. Qed.

Lemma preserves_get_run {X} (obs : World -> X) id :
  of_server obs -> preserves obs (get_run E id).
Proof.
  intros H. unfold get_run.
  apply preserves_bind; [apply preserves_request, H | intros _].
  apply preserves_bind; [apply preserves_pure; reflexivity | intros t].
  destruct (find_run id (runs t)); apply preserves_pure; reflexivity.
Qed.

Lemma preserves_candidate_ids {X} (obs : World -> X) : preserves obs candidate_ids.
Proof. apply preserves_pure. intros w. rewrite candidate_ids_eq. reflexivity. Qed.

Lemma preserves_best_of {X} (obs : World -> X) ids :
  of_server obs -> preserves obs (best_of E ids).
Proof.
  intros H. unfold best_of.
  apply preserves_bind;
    [apply preserves_list_comp; intros; apply preserves_get_run, H | intros rs].
  apply preserves_bind; [apply preserves_pure; reflexivity | intros l].
  apply preserves_bind; [apply preserves_pure; reflexivity | intros i].
  apply preserves_pure. reflexivity.
Qed.

Lemma preserves_get_best_model {X} (obs : World -> X) ti :
  of_server obs -> preserves obs (get_best_model E ti).
Proof.
  intros H. unfold get_best_model.
  apply preserves_bind; [apply preserves_candidate_ids | intros ids].
  apply preserves_bind; [apply preserves_best_of, H | intros r].
  apply preserves_push, H.
Qed.

Lemma preserves_runs_modify f :
  (forall t, runs (f t) = runs t) -> preserves server_runs (modify_tracking f).
Proof. intros H [t x]. unfold server_runs. cbn. apply H. Qed.

Lemma preserves_runs_register_model uri name :
  preserves server_runs (register_model E uri name).
Proof.
  unfold register_model, set_versions.
  apply preserves_bind; [apply preserves_request, of_server_runs | intros _].
  apply preserves_bind; [apply preserves_runs_modify; reflexivity | intros _].
  destruct (parse_runs_uri uri) as [[id path]|];
    [|apply preserves_pure; reflexivity].
  apply preserves_bind; [apply preserves_get_run, of_server_runs | intros _].
  apply preserves_bind; [apply preserves_request, of_server_runs | intros _].
  apply preserves_bind; [apply preserves_pure; reflexivity | intros t].
  apply preserves_bind; [apply preserves_runs_modify; reflexivity | intros _].
  apply preserves_pure. reflexivity.
Qed.

Lemma preserves_runs_transition name v s :
  preserves server_runs (transition_model_version_stage E name v s).
Proof.
  unfold transition_model_version_stage, set_versions.
  apply preserves_bind; [apply preserves_request, of_server_runs | intros _].
  apply preserves_bind; [apply preserves_pure; reflexivity | intros t].
  destruct (set_stage name v s (versions t));
    [apply preserves_runs_modify; reflexivity | apply preserves_pure; reflexivity].
Qed.

Lemma preserves_runs_register_best_model ti :
  preserves server_runs (register_best_model E ti).
Proof.
  unfold register_best_model.
  apply preserves_bind; [apply preserves_pure; reflexivity | intros v].
  apply preserves_bind; [apply preserves_runs_register_model | intros mv].
  apply preserves_runs_transition.
Qed.

End ServerFrames.

(** ** More on the Model Selector *)

(** X2: the Model Selector only reads the server: whatever its outcome,
    the runs and the model registry are as before; the Model Promoter
    leaves the runs as they were. *)
Theorem selector_only_reads (E : Env) (ti : string) :
  preserves server_runs (get_best_model E ti)
  /\ preserves registry (get_best_model E ti)
  /\ preserves server_runs (register_best_model E ti).
Proof.
  split; [|split].
  - apply preserves_get_best_model, of_server_runs.
  - apply preserves_get_best_model, of_server_registry.
  - apply preserves_runs_register_best_model.
Qed.

Lemma argmax_scan_bound (t : list pyfloat) :
  forall mp max_ind i, (max_ind < i)%nat ->
    (argmax_scan mp max_ind i t < i + length t)%nat.
Proof.
  induction t as [|x t IH]; intros mp max_ind i Hlt; cbn [argmax_scan length].
  - lia.
  - destruct (is_nan mp); [lia|].
    destruct (negb (fle x mp)).
    + specialize (IH x i (S i)). lia.
    + specialize (IH mp max_ind (S i)). lia.
Qed.

(** The index [np.argmax] returns is within the list. *)
Lemma np_argmax_in_range l i : np_argmax l = Ok i -> (i < length l)%nat.
Proof.
  destruct l as [|x t]; [discriminate|]. cbn [np_argmax]. intros [= <-].
  pose proof (argmax_scan_bound t x 0%nat 1%nat). cbn [length]. lia.
Qed.

Lemma list_comp_get_run_err (E : Env) ids :
  forall w e w', list_comp (get_run E) ids w = (Err e, w') -> e = MlflowException.
Proof.
  induction ids as [|id ids IH]; intros w e w' H; [discriminate|].
  cbn [list_comp] in H. rewrite bind_eq, get_run_eq in H.
  destruct (reachable E _); [|congruence].
  destruct (find_run id _); [|congruence].
  rewrite bind_eq in H.
  destruct (list_comp (get_run E) ids (after_requests 1 w)) as [[rs|e1] w1] eqn:Hl.
  - discriminate.
  - injection H as <- _. eapply IH, Hl.
Qed.

Lemma list_comp_pure_metric_err key rs e :
  list_comp_pure (metric key) rs = Err e -> e = KeyError.
Proof.
  induction rs as [|r rs IH]; cbn; [discriminate|].
  unfold metric at 1. destruct (metrics r !! key); [|congruence].
  destruct (list_comp_pure (metric key) rs); [discriminate|].
  intros [= <-]. apply IH. reflexivity.
Qed.

Lemma flatten_err pulled e : flatten pulled = Err e -> e = TypeError.
Proof.
  induction pulled as [|v t IH]; cbn; [discriminate|].
  destruct v as [[s|l]|]; cbn; try congruence;
    (destruct (flatten t); [discriminate | intros [= <-]; apply IH; reflexivity]).
Qed.

Lemma list_comp_pure_length {A B} (f : A -> result B) l ys :
  list_comp_pure f l = Ok ys -> length ys = length l.
Proof.
  intros H. apply list_comp_pure_inv in H. symmetry. eapply Forall2_length, H.
Qed.

Lemma list_comp_get_run_length (E : Env) ids w rs w' :
  list_comp (get_run E) ids w = (Ok rs, w') -> length rs = length ids.
Proof.
  intros H. apply list_comp_get_run_inv in H as (_ & _ & HF).
  symmetry. eapply Forall2_length, HF.
Qed.

(** X3: the exceptions of the Model Selector.  It raises TypeError (a
    list of run ids is missing), MlflowException (the server does not
    answer or does not know a run), KeyError (a run has no "r2") or
    ValueError (no candidate), and never IndexError: the index that
    [np.argmax] returns is always within the list of runs. *)
Theorem get_best_model_exceptions (E : Env) (ti : string) (w w' : World) (e : exn) :
  get_best_model E ti w = (Err e, w') ->
  e = TypeError \/ e = MlflowException \/ e = KeyError \/ e = ValueError.
Proof.
  rewrite get_best_model_eq, candidate_ids_eq.
  destruct (flatten _) as [ids|e0] eqn:Hf.
  - unfold best_of. rewrite bind_eq.
    destruct (list_comp (get_run E) ids w) as [[rs|e1] w1] eqn:Hl.
    + rewrite bind_eq. unfold lift at 1.
      destruct (list_comp_pure (metric "r2") rs) as [l|e2] eqn:Hm.
      * rewrite bind_eq. unfold lift at 1.
        destruct (np_argmax l) as [i|e3] eqn:Hi.
        -- unfold lift, index.
           destruct (rs !! i) as [r|] eqn:Hr; [discriminate|].
           apply lookup_ge_None in Hr. apply np_argmax_in_range in Hi.
           apply list_comp_pure_length in Hm. lia.
        -- destruct l; [|discriminate]. cbn in Hi. intros [= <- _].
           injection Hi as <-. auto.
      * intros [= <- _]. apply list_comp_pure_metric_err in Hm. auto.
    + intros [= <- _]. apply list_comp_get_run_err in Hl. auto.
  - intros [= <- _]. apply flatten_err in Hf. auto.
Qed.

Lemma get_best_model_exceptions_witness :
  TypeError = TypeError \/ TypeError = MlflowException
  \/ TypeError = KeyError \/ TypeError = ValueError.
Proof.
  apply (get_best_model_exceptions sample_env "get_best_model" published_world
           published_world TypeError).
  reflexivity.
Defined.

(** X4: when every candidate is on the server and the server answers,
    but some candidate has no "r2" metric, the Model Selector raises
    KeyError and publishes nothing. *)
Theorem get_best_model_without_r2 (E : Env) (ti : string) (w : World)
    (ids : list string) (id : string) :
  candidate_ids w = (Ok ids, w) ->
  answers E w (length ids) ->
  (forall c, c ∈ ids -> is_Some (find_run c (runs (tracking w)))) ->
  id ∈ ids -> r2_of w id = None ->
  exists w', get_best_model E ti w = (Err KeyError, w') /\ xcom w' = xcom w.
Proof.
  intros Hc Hans Hall Hin Hnone.
  destruct (list_comp_get_run_ok E ids w Hans Hall) as (rs & Hrs & HF).
  assert (Hm : list_comp_pure (metric "r2") rs = Err KeyError).
  { destruct (list_comp_pure (metric "r2") rs) as [l|e] eqn:Hm.
    - exfalso. apply list_comp_pure_inv in Hm.
      apply list_elem_of_lookup in Hin as [i Hi].
      assert (HM : Forall2 (fun r v => metrics r !! "r2" = Some v) rs l).
      { eapply Forall2_impl; [exact Hm|]. intros r v Hv. apply metric_ok, Hv. }
      destruct (r2_of_lookup w ids rs l i id HF HM Hi) as [Hr [v Hv]]. congruence.
    - f_equal. eapply list_comp_pure_metric_err, Hm. }
  eexists. split.
  - rewrite get_best_model_eq, Hc. unfold best_of.
    rewrite bind_eq, Hrs, bind_eq. unfold lift at 1. rewrite Hm. reflexivity.
  - reflexivity.
Qed.

Lemma get_best_model_without_r2_witness :
  exists w',
    get_best_model sample_env "get_best_model"
      (trained_world
         [scored_run "a" (Num (1 / 2)); mkRun "d" "process" FINISHED ∅ ∅ []]
         ["a"] ["d"])
    = (Err KeyError, w')
    /\ xcom w' = xcom (trained_world
         [scored_run "a" (Num (1 / 2)); mkRun "d" "process" FINISHED ∅ ∅ []]
         ["a"] ["d"]).
Proof.
  apply (get_best_model_without_r2 sample_env "get_best_model" _ ["a"; "d"] "d").
  - reflexivity.
  - intros k Hk. reflexivity.
  - intros c Hc. apply elem_of_cons in Hc as [->|Hc].
    + eexists. reflexivity.
    + apply list_elem_of_singleton in Hc. subst c. eexists. reflexivity.
  - apply list_elem_of_further, list_elem_of_here.
  - reflexivity.
Defined.

(** ** More on the Model Promoter *)

Section PromoterCases.
Variable E : Env.

(** [register_model] either fails and leaves the versions as they are,
    or appends one version, in stage None, for the run of the URI. *)
Lemma register_model_cases uri name w :
  match register_model E uri name w with
  | (Ok mv, w') =>
      exists id path,
        parse_runs_uri uri = Some (id, path)
        /\ mv = mkVersion name (next_version name (versions (tracking w)))
                  id path StageNone
        /\ versions (tracking w') = (versions (tracking w) ++ [mv])%list
  | (Err _, w') => versions (tracking w') = versions (tracking w)
  end.
Proof.
  unfold register_model. rewrite bind_eq. unfold request at 1.
  destruct (reachable E (requests (tracking w))); [|reflexivity].
  rewrite bind_eq. unfold modify_tracking at 1.
  destruct (parse_runs_uri uri) as [[id path]|]; [|reflexivity].
  rewrite bind_eq, get_run_eq. cbn [tracking set_tracking requests runs].
  destruct (reachable E (S (requests (tracking w)))); [|reflexivity].
  destruct (find_run id (runs (tracking w))) as [r|]; [|reflexivity].
  rewrite bind_eq. unfold request at 1.
  cbn [tracking set_tracking after_requests requests].
  destruct (reachable E _); [|reflexivity].
  exists id, path. repeat split.
Qed.

Lemma transition_cases name v s w :
  match transition_model_version_stage E name v s w with
  | (Ok _, w') => set_stage name v s (versions (tracking w)) = Some (versions (tracking w'))
  | (Err _, w') => versions (tracking w') = versions (tracking w)
  end.
Proof.
  unfold transition_model_version_stage. rewrite bind_eq. unfold request at 1.
  destruct (reachable E (requests (tracking w))); [|reflexivity].
  rewrite bind_eq. unfold get_tracking at 1.
  cbn [tracking set_tracking versions].
  destruct (set_stage name v s (versions (tracking w))) as [vs|]; reflexivity.
Qed.

Lemma set_stage_numbered name version s vs id path vs' :
  (forall v, v ∈ vs -> mv_name v = name -> mv_version v <> version) ->
  set_stage name version s (vs ++ [mkVersion name version id path StageNone]) = Some vs' ->
  vs' = (vs ++ [mkVersion name version id path s])%list.
Proof.
  intros Hfree H. rewrite (set_stage_last name version s vs id path Hfree) in H.
  congruence.
Qed.

Lemma numbered_free name vs : versions_numbered name vs -> version_free name vs.
Proof. intros H v Hin Hn. specialize (H v Hin Hn). lia. Qed.

Lemma next_version_snoc name vs v :
  mv_name v = name -> next_version name (vs ++ [v]) = S (next_version name vs).
Proof.
  intros Hn. unfold next_version. rewrite List.filter_app, length_app. cbn.
  rewrite bool_decide_eq_true_2 by exact Hn. cbn. lia.
Qed.

Lemma numbered_snoc name vs id path s :
  versions_numbered name vs ->
  versions_numbered name
    (vs ++ [mkVersion name (next_version name vs) id path s]).
Proof.
  intros H v Hin Hn. rewrite next_version_snoc by reflexivity.
  apply elem_of_app in Hin as [Hin|Hin].
  - specialize (H v Hin Hn). lia.
  - apply list_elem_of_singleton in Hin. subst v. cbn. lia.
Qed.

(** What a successful promotion did. *)
Lemma register_best_model_inv ti w w' :
  version_free "BestModel" (versions (tracking w)) ->
  register_best_model E ti w = (Ok tt, w') ->
  exists id path,
    versions (tracking w') =
      (versions (tracking w) ++
       [mkVersion "BestModel" (next_version "BestModel" (versions (tracking w)))
          id path Production])%list.
Proof.
  intros Hfree. unfold register_best_model. rewrite bind_eq. unfold xcom_pull at 1.
  rewrite bind_eq.
  pose proof (register_model_cases
                ("runs:/" ++ py_str (xcom w !! ("get_best_model", "best_model_run_id"))
                 ++ "/model") "BestModel" w) as Hreg.
  destruct (register_model E _ "BestModel" w) as [[mv|e] w1]; [|discriminate].
  destruct Hreg as (id & path & _ & -> & Hvs). cbn [mv_name mv_version].
  pose proof (transition_cases "BestModel"
                (next_version "BestModel" (versions (tracking w))) Production w1) as Htr.
  intros Hrun. rewrite Hrun in Htr. rewrite Hvs in Htr.
  apply set_stage_numbered in Htr; [|exact Hfree].
  exists id, path. exact Htr.
Qed.

End PromoterCases.

(** X5: a Model Promoter that raises has moved nothing to Production: the
    versions in stage Production are those there were. *)
Theorem failed_promotion_promotes_nothing (E : Env) (ti : string) (w w' : World)
    (e : exn) :
  register_best_model E ti w = (Err e, w') -> in_production w' = in_production w.
Proof.
  unfold register_best_model. rewrite bind_eq. unfold xcom_pull at 1.
  rewrite bind_eq.
  pose proof (register_model_cases E
                ("runs:/" ++ py_str (xcom w !! ("get_best_model", "best_model_run_id"))
                 ++ "/model") "BestModel" w) as Hreg.
  destruct (register_model E _ "BestModel" w) as [[mv|e1] w1].
  - destruct Hreg as (id & path & _ & -> & Hvs). cbn [mv_name mv_version].
    pose proof (transition_cases E "BestModel"
                  (next_version "BestModel" (versions (tracking w))) Production w1)
      as Htr.
    intros Hrun. rewrite Hrun in Htr. unfold in_production.
    rewrite Htr, Hvs, List.filter_app. cbn. apply app_nil_r.
  - intros [= _ <-]. unfold in_production. rewrite Hreg. reflexivity.
Qed.

Lemma failed_promotion_promotes_nothing_witness :
  exists e,
    register_best_model sample_env "register_best_model" published_world
    = (Err e, snd (register_best_model sample_env "register_best_model" published_world))
    /\ in_production
         (snd (register_best_model sample_env "register_best_model" published_world))
       = in_production published_world.
Proof.
  destruct (run_failure (register_best_model sample_env "register_best_model")
              published_world) as [e He]; [vm_compute; reflexivity|].
  exists e. split; [exact He|].
  apply (failed_promotion_promotes_nothing sample_env "register_best_model"
           published_world _ e He).
Defined.

(** X6: two successful promotions, one after the other on the same
    server, leave two new versions of "BestModel" with consecutive
    numbers, both in stage Production: the earlier one is not archived,
    and the numbering of the versions stays within their count. *)
Theorem promoting_twice (E : Env) (ti : string) (w1 w1' w2 w2' : World) :
  versions_numbered "BestModel" (versions (tracking w1)) ->
  register_best_model E ti w1 = (Ok tt, w1') ->
  tracking w2 = tracking w1' ->
  register_best_model E ti w2 = (Ok tt, w2') ->
  exists id1 path1 id2 path2,
    let n := next_version "BestModel" (versions (tracking w1)) in
    versions (tracking w2') =
      (versions (tracking w1) ++
       [mkVersion "BestModel" n id1 path1 Production;
        mkVersion "BestModel" (S n) id2 path2 Production])%list
    /\ versions_numbered "BestModel" (versions (tracking w2')).
Proof.
  intros Hnum Hrun1 Ht Hrun2.
  destruct (register_best_model_inv E ti w1 w1' (numbered_free _ _ Hnum) Hrun1)
    as (id1 & path1 & Hv1).
  assert (Hnum1 : versions_numbered "BestModel" (versions (tracking w2))).
  { rewrite Ht, Hv1. apply numbered_snoc, Hnum. }
  destruct (register_best_model_inv E ti w2 w2' (numbered_free _ _ Hnum1) Hrun2)
    as (id2 & path2 & Hv2).
  exists id1, path1, id2, path2. cbv zeta.
  assert (Hv : versions (tracking w2') =
    ((versions (tracking w1) ++
      [mkVersion "BestModel" (next_version "BestModel" (versions (tracking w1)))
         id1 path1 Production]) ++
     [mkVersion "BestModel"
        (S (next_version "BestModel" (versions (tracking w1)))) id2 path2
        Production])%list).
  { rewrite Hv2, Ht, Hv1, next_version_snoc by reflexivity. reflexivity. }
  split.
  - rewrite Hv, <- app_assoc. reflexivity.
  - rewrite Hv.
    rewrite <- (next_version_snoc "BestModel" (versions (tracking w1))
                  (mkVersion "BestModel"
                     (next_version "BestModel" (versions (tracking w1)))
                     id1 path1 Production)) by reflexivity.
    apply numbered_snoc, numbered_snoc, Hnum.
Qed.

Lemma promoting_twice_witness :
  exists w1' w2' id1 path1 id2 path2,
    register_best_model sample_env "register_best_model" selected_world = (Ok tt, w1')
    /\ register_best_model sample_env "register_best_model" w1' = (Ok tt, w2')
    /\ versions (tracking w2') =
         (versions (tracking selected_world) ++
          [mkVersion "BestModel" 1 id1 path1 Production;
           mkVersion "BestModel" 2 id2 path2 Production])%list
    /\ versions_numbered "BestModel" (versions (tracking w2')).
Proof.
  exists (snd (register_best_model sample_env "register_best_model" selected_world)).
  exists (snd (register_best_model sample_env "register_best_model"
                 (snd (register_best_model sample_env "register_best_model"
                         selected_world)))).
  assert (H1 : register_best_model sample_env "register_best_model" selected_world
               = (Ok tt, snd (register_best_model sample_env "register_best_model"
                                selected_world)))
    by (apply run_result; vm_compute; reflexivity).
  assert (H2 : register_best_model sample_env "register_best_model"
                 (snd (register_best_model sample_env "register_best_model"
                         selected_world))
               = (Ok tt, snd (register_best_model sample_env "register_best_model"
                   (snd (register_best_model sample_env "register_best_model"
                           selected_world)))))
    by (apply run_result; vm_compute; reflexivity).
  destruct (promoting_twice sample_env "register_best_model" selected_world _ _ _
              (fun v Hv => match proj1 (elem_of_nil v) Hv with end) H1 eq_refl H2)
    as (id1 & path1 & id2 & path2 & Hv & Hn).
  exists id1, path1, id2, path2. split; [exact H1|]. split; [exact H2|].
  split; [exact Hv | exact Hn].
Defined.

(** ** The trainers, run to the end *)

Section TrainerRuns.
Variable E : Env.

Lemma twp_ret {A} (a : A) (Q : A -> World -> Prop) w : Q a w -> twp (mret a) Q w.
Proof. auto. Qed.

Lemma twp_lift {A} (r : result A) (a : A) (Q : A -> World -> Prop) w :
  r = Ok a -> Q a w -> twp (lift r) Q w.
Proof. intros -> HQ. exact HQ. Qed.

Lemma twp_update_run id f (Q : unit -> World -> Prop) w rs r :
  runs (tracking w) = (rs ++ [r])%list -> run_id r = id ->
  (forall r', r' ∈ rs -> run_id r' <> id) ->
  reachable E (requests (tracking w)) = true ->
  Q tt (with_runs (rs ++ [f r])%list (after_requests 1 w)) ->
  twp (update_run E id f) Q w.
Proof.
  intros Hruns Hr Hrs Hup HQ. unfold update_run.
  apply twp_bind, twp_request; [exact Hup|]. apply twp_bind.
  unfold twp at 1, get_tracking. cbn [tracking after_requests set_tracking runs].
  rewrite Hruns, (update_first_last id f rs r Hrs Hr).
  unfold twp, set_runs, modify_tracking. exact HQ.
Qed.

Lemma twp_log_param id key value (Q : unit -> World -> Prop) w rs r :
  runs (tracking w) = (rs ++ [r])%list -> run_id r = id ->
  (forall r', r' ∈ rs -> run_id r' <> id) ->
  params r !! key = None ->
  reachable E (requests (tracking w)) = true ->
  Q tt (with_runs
          (rs ++ [mkRun (run_id r) (run_name r) (status r)
                    (<[key := value]> (params r)) (metrics r) (artifacts r)])%list
          (after_requests 1 w)) ->
  twp (log_param E id key value) Q w.
Proof.
  intros Hruns Hr Hrs Hkey Hup HQ. unfold log_param.
  apply twp_bind, twp_request; [exact Hup|]. apply twp_bind.
  unfold twp at 1, get_tracking. cbn [tracking after_requests set_tracking runs].
  rewrite Hruns, (find_run_last id rs r Hrs Hr), Hkey.
  rewrite (update_first_last id _ rs r Hrs Hr).
  unfold twp, set_runs, modify_tracking. exact HQ.
Qed.

(** A with-block whose body runs through. *)
Lemma twp_start_run {A} name (body : string -> M A) (Q : A -> World -> Prop) w :
  reachable E (requests (tracking w)) = true ->
  (let id := new_run_id E (length (runs (tracking w))) in
   twp (body id)
     (fun a w2 => twp (set_terminated E id FINISHED) (fun _ w3 => Q a w3) w2)
     (with_runs (runs (tracking w) ++ [mkRun id name RUNNING ∅ ∅ []])%list
        (after_requests 1 w))) ->
  twp (start_run E name body) Q w.
Proof.
  intros Hup H. unfold twp at 1, start_run, create_run.
  rewrite bind_eq. unfold request at 1. rewrite Hup.
  cbn zeta in H.
  rewrite !bind_eq. unfold get_tracking at 1. cbn beta iota.
  rewrite bind_eq. unfold set_runs at 1, modify_tracking at 1. cbn beta iota.
  unfold mret, M_ret.
  unfold twp at 1 in H.
  match goal with
  | H : match body ?i ?w1 with _ => _ end |- context [body ?j ?w2] =>
      change (body j w2) with (body i w1)
  end.
  destruct (body _ _) as [[a|e] w2]; [|destruct H].
  unfold twp in H. destruct (set_terminated E _ FINISHED w2) as [[u|e] w3];
    [exact H | destruct H].
Qed.

(** A with-block whose body raises: the run is ended as FAILED and the
    exception goes on. *)
Lemma start_run_failed {A} name (body : string -> M A) w e w2 rs r :
  reachable E (requests (tracking w)) = true ->
  body (new_run_id E (length (runs (tracking w))))
    (with_runs (runs (tracking w) ++
                [mkRun (new_run_id E (length (runs (tracking w)))) name
                   RUNNING ∅ ∅ []])%list
       (after_requests 1 w)) = (Err e, w2) ->
  runs (tracking w2) = (rs ++ [r])%list ->
  run_id r = new_run_id E (length (runs (tracking w))) ->
  (forall r', r' ∈ rs -> run_id r' <> new_run_id E (length (runs (tracking w)))) ->
  reachable E (requests (tracking w2)) = true ->
  start_run (A := A) E name body w =
    (Err e, with_runs
              (rs ++ [mkRun (run_id r) (run_name r) FAILED (params r) (metrics r)
                        (artifacts r)])%list
              (after_requests 1 w2)).
Proof.
  intros Hup Hbody Hruns Hr Hrs Hup2. unfold start_run, create_run.
  rewrite bind_eq. unfold request at 1. rewrite Hup.
  rewrite !bind_eq. unfold get_tracking at 1. cbn beta iota.
  rewrite bind_eq. unfold set_runs at 1, modify_tracking at 1. cbn beta iota.
  unfold mret, M_ret.
  match goal with
  | |- context [body ?j ?w1] =>
      change (body j w1) with
        (body (new_run_id E (length (runs (tracking w))))
           (with_runs (runs (tracking w) ++
                       [mkRun (new_run_id E (length (runs (tracking w)))) name
                          RUNNING ∅ ∅ []])%list
              (after_requests 1 w)))
  end.
  rewrite Hbody.
  pose proof (twp_update_run (new_run_id E (length (runs (tracking w))))
                (fun r => mkRun (run_id r) (run_name r) FAILED (params r)
                            (metrics r) (artifacts r))
                (fun _ w3 => w3 = with_runs
                   (rs ++ [mkRun (run_id r) (run_name r) FAILED (params r)
                             (metrics r) (artifacts r)])%list
                   (after_requests 1 w2))
                w2 rs r Hruns Hr Hrs Hup2 eq_refl) as Ht.
  unfold twp in Ht. fold (set_terminated E (new_run_id E (length (runs (tracking w)))) FAILED) in Ht.
  destruct (set_terminated E _ FAILED w2) as [[u|e'] w3]; [|destruct Ht].
  rewrite Ht. reflexivity.
Qed.

End TrainerRuns.

Section TrainerTotals.
Variable E : Env.

Lemma load_data_run rs reg vs n x did dr d :
  x !! ("process_data", "run_id") = Some (XStr did) ->
  find_run did rs = Some dr -> "processed_data" ∈ artifacts dr ->
  read_split E (local_copy E did "processed_data" ++ "/germany.csv") = Ok d ->
  reachable E n = true ->
  load_data E (mkWorld (mkTracking rs reg vs n) x)
  = (Ok d, mkWorld (mkTracking rs reg vs (S n)) x).
Proof.
  intros Hx Hf Hart Hread Hup. unfold load_data.
  rewrite bind_eq. unfold xcom_pull at 1. cbn [xcom]. rewrite Hx.
  rewrite bind_eq. unfold download_artifacts.
  rewrite bind_eq, get_run_eq. cbn [tracking requests runs]. rewrite Hup, Hf.
  rewrite bool_decide_eq_true_2 by exact Hart.
  unfold mret, M_ret, lift. rewrite Hread. reflexivity.
Qed.

Ltac last_run :=
  cbn [runs tracking with_runs after_requests set_tracking]; reflexivity.

Ltac answered Hans k :=
  cbn [runs tracking requests with_runs after_requests set_tracking];
  apply (Hans k); cbn; lia.

Ltac twp_log Hfresh Hans k :=
  first
    [ eapply twp_log_param;
      [last_run | reflexivity | exact Hfresh | reflexivity | answered Hans k |]
    | eapply twp_update_run;
      [last_run | reflexivity | exact Hfresh | answered Hans k |] ];
  cbn [run_id run_name status params metrics artifacts].

(** The Linear Model Trainer from start to end. *)
Lemma make_lr_run ti rs reg vs n x did dr d s :
  x !! ("process_data", "run_id") = Some (XStr did) ->
  find_run did rs = Some dr -> "processed_data" ∈ artifacts dr ->
  read_split E (local_copy E did "processed_data" ++ "/germany.csv") = Ok d ->
  lr_scores E d = Ok s ->
  unique_ids E rs ->
  answers E (mkWorld (mkTracking rs reg vs n) x) 7 ->
  make_lr E ti (mkWorld (mkTracking rs reg vs n) x)
  = (Ok tt,
     mkWorld (mkTracking (rs ++ [lr_record (new_run_id E (length rs)) s]) reg vs (7 + n))
       (<[(ti, "run_id") := XList [new_run_id E (length rs)]]> x)).
Proof.
  intros Hx Hf Hart Hread Hs Hu Hans.
  assert (Hfresh : forall r', r' ∈ rs -> run_id r' <> new_run_id E (length rs))
    by (intros r' Hin; apply unique_ids_fresh; assumption).
  unfold lr_scores in Hs.
  destruct (lr_fit_predict E (X_train d) (y_train d) (X_test d)) as [y_predict|]
    eqn:Hpred; [|discriminate].
  destruct s as [[rmse mae] r2].
  enough (Ht : twp (make_lr E ti)
                 (fun _ w' => w' = mkWorld
                    (mkTracking (rs ++ [lr_record (new_run_id E (length rs))
                                          (rmse, mae, r2)]) reg vs (7 + n))
                    (<[(ti, "run_id") := XList [new_run_id E (length rs)]]> x))
                 (mkWorld (mkTracking rs reg vs n) x)).
  { apply twp_elim in Ht as ([] & w' & Hrun & ->). exact Hrun. }
  unfold make_lr. apply twp_bind. unfold twp at 1.
  rewrite (load_data_run rs reg vs n x did dr d Hx Hf Hart Hread)
    by (apply (Hans 0%nat); lia).
  apply twp_start_run; [answered Hans 1%nat|]. intros id.
  cbn [runs tracking] in id. subst id.
  apply twp_bind. apply (twp_lift _ y_predict); [exact Hpred|].
  apply twp_bind. apply (twp_lift _ (rmse, mae, r2)); [exact Hs|].
  unfold log_metric, log_model, log_folder, set_terminated.
  apply twp_bind. twp_log Hfresh Hans 2%nat.
  apply twp_bind. twp_log Hfresh Hans 3%nat.
  apply twp_bind. twp_log Hfresh Hans 4%nat.
  apply twp_bind. twp_log Hfresh Hans 5%nat.
  unfold twp at 1, xcom_push.
  twp_log Hfresh Hans 6%nat.
  reflexivity.
Qed.

(** One grid point from start to end. *)
Lemma rf_run_run d nE mD acc rs reg vs n x s :
  rf_scores E d nE mD = Ok s ->
  unique_ids E rs ->
  answers E (mkWorld (mkTracking rs reg vs n) x) 8 ->
  rf_run E d nE mD acc (mkWorld (mkTracking rs reg vs n) x)
  = (Ok (acc ++ [new_run_id E (length rs)])%list,
     mkWorld (mkTracking (rs ++ [rf_record (new_run_id E (length rs)) nE mD s])
                reg vs (8 + n)) x).
Proof.
  intros Hs Hu Hans.
  assert (Hfresh : forall r', r' ∈ rs -> run_id r' <> new_run_id E (length rs))
    by (intros r' Hin; apply unique_ids_fresh; assumption).
  unfold rf_scores in Hs.
  destruct (rf_fit_predict E nE mD (X_train d) (y_train d) (X_test d))
    as [y_predict|] eqn:Hpred; [|discriminate].
  destruct s as [[rmse mae] r2].
  enough (Ht : twp (rf_run E d nE mD acc)
                 (fun a w' =>
                    a = (acc ++ [new_run_id E (length rs)])%list
                    /\ w' = mkWorld
                         (mkTracking
                            (rs ++ [rf_record (new_run_id E (length rs)) nE mD
                                      (rmse, mae, r2)]) reg vs (8 + n)) x)
                 (mkWorld (mkTracking rs reg vs n) x)).
  { apply twp_elim in Ht as (a & w' & Hrun & -> & ->). exact Hrun. }
  unfold rf_run.
  apply twp_start_run; [answered Hans 0%nat|]. intros id.
  cbn [runs tracking] in id. subst id.
  apply twp_bind. apply (twp_lift _ y_predict); [exact Hpred|].
  apply twp_bind. apply (twp_lift _ (rmse, mae, r2)); [exact Hs|].
  apply twp_bind. twp_log Hfresh Hans 1%nat.
  apply twp_bind. twp_log Hfresh Hans 2%nat.
  unfold log_metric, log_model, log_folder, set_terminated.
  apply twp_bind. twp_log Hfresh Hans 3%nat.
  apply twp_bind. twp_log Hfresh Hans 4%nat.
  apply twp_bind. twp_log Hfresh Hans 5%nat.
  apply twp_bind. twp_log Hfresh Hans 6%nat.
  apply twp_ret. twp_log Hfresh Hans 7%nat.
  split; reflexivity.
Qed.

Lemma answers_later rs reg vs n x rs' reg' vs' x' a b :
  answers E (mkWorld (mkTracking rs reg vs n) x) (a + b) ->
  answers E (mkWorld (mkTracking rs' reg' vs' (a + n)) x') b.
Proof.
  intros H k Hk. cbn. replace (k + (a + n))%nat with (a + k + n)%nat by lia.
  apply (H (a + k)%nat). lia.
Qed.

(** The grid from start to end: thirty-two requests, four runs. *)
Lemma rf_grid_run d rs reg vs n x s1 s2 s3 s4 :
  rf_scores E d 4 4 = Ok s1 -> rf_scores E d 4 10 = Ok s2 ->
  rf_scores E d 25 4 = Ok s3 -> rf_scores E d 25 10 = Ok s4 ->
  unique_ids E rs ->
  answers E (mkWorld (mkTracking rs reg vs n) x) 32 ->
  let k := length rs in
  rf_grid E d (mkWorld (mkTracking rs reg vs n) x)
  = (Ok [new_run_id E k; new_run_id E (S k);
         new_run_id E (S (S k)); new_run_id E (S (S (S k)))],
     mkWorld
       (mkTracking
          (rs ++ [rf_record (new_run_id E k) 4 4 s1;
                  rf_record (new_run_id E (S k)) 4 10 s2;
                  rf_record (new_run_id E (S (S k))) 25 4 s3;
                  rf_record (new_run_id E (S (S (S k)))) 25 10 s4])
          reg vs (32 + n)) x).
Proof.
  intros H1 H2 H3 H4 Hu Hans k.
  set (r1 := rf_record (new_run_id E k) 4 4 s1).
  set (r2 := rf_record (new_run_id E (S k)) 4 10 s2).
  set (r3 := rf_record (new_run_id E (S (S k))) 25 4 s3).
  assert (L1 : length (rs ++ [r1]) = S k) by (rewrite length_app; cbn; lia).
  assert (L2 : length ((rs ++ [r1]) ++ [r2]) = S (S k))
    by (rewrite length_app, L1; cbn; lia).
  assert (L3 : length (((rs ++ [r1]) ++ [r2]) ++ [r3]) = S (S (S k)))
    by (rewrite length_app, L2; cbn; lia).
  assert (Hu1 : unique_ids E (rs ++ [r1]))
    by (apply unique_ids_snoc; [exact Hu | reflexivity]).
  assert (Hu2 : unique_ids E ((rs ++ [r1]) ++ [r2]))
    by (apply unique_ids_snoc; [exact Hu1 | rewrite L1; reflexivity]).
  assert (Hu3 : unique_ids E (((rs ++ [r1]) ++ [r2]) ++ [r3]))
    by (apply unique_ids_snoc; [exact Hu2 | rewrite L2; reflexivity]).
  unfold rf_grid. cbn [for_each]. rewrite !bind_eq.
  rewrite (rf_run_run d 4 4 [] rs reg vs n x s1 H1 Hu)
    by (eapply answers_le; [|exact Hans]; lia).
  fold k. fold r1. rewrite bind_eq.
  rewrite (rf_run_run d 4 10 _ (rs ++ [r1]) reg vs (8 + n) x s2 H2 Hu1)
    by (apply (answers_later rs reg vs n x _ _ _ _ 8 8);
        eapply answers_le; [|exact Hans]; lia).
  rewrite L1. fold r2. unfold mret at 1, M_ret at 1. rewrite !bind_eq.
  rewrite (rf_run_run d 25 4 _ ((rs ++ [r1]) ++ [r2]) reg vs (8 + (8 + n)) x s3 H3 Hu2)
    by (apply (answers_later rs reg vs n x _ _ _ _ 16 8);
        eapply answers_le; [|exact Hans]; lia).
  rewrite L2. fold r3. rewrite bind_eq.
  rewrite (rf_run_run d 25 10 _ (((rs ++ [r1]) ++ [r2]) ++ [r3]) reg vs
             (8 + (8 + (8 + n))) x s4 H4 Hu3)
    by (apply (answers_later rs reg vs n x _ _ _ _ 24 8);
        eapply answers_le; [|exact Hans]; lia).
  rewrite L3. unfold mret, M_ret. cbn [app].
  rewrite <- !app_assoc. reflexivity.
Qed.

(** The Ensemble Model Trainer from start to end. *)
Lemma make_rf_run ti rs reg vs n x did dr d s1 s2 s3 s4 :
  x !! ("process_data", "run_id") = Some (XStr did) ->
  find_run did rs = Some dr -> "processed_data" ∈ artifacts dr ->
  read_split E (local_copy E did "processed_data" ++ "/germany.csv") = Ok d ->
  rf_scores E d 4 4 = Ok s1 -> rf_scores E d 4 10 = Ok s2 ->
  rf_scores E d 25 4 = Ok s3 -> rf_scores E d 25 10 = Ok s4 ->
  unique_ids E rs ->
  answers E (mkWorld (mkTracking rs reg vs n) x) 33 ->
  let k := length rs in
  make_rf E ti (mkWorld (mkTracking rs reg vs n) x)
  = (Ok tt,
     mkWorld
       (mkTracking
          (rs ++ [rf_record (new_run_id E k) 4 4 s1;
                  rf_record (new_run_id E (S k)) 4 10 s2;
                  rf_record (new_run_id E (S (S k))) 25 4 s3;
                  rf_record (new_run_id E (S (S (S k)))) 25 10 s4])
          reg vs (33 + n))
       (<[(ti, "run_id") :=
            XList [new_run_id E k; new_run_id E (S k);
                   new_run_id E (S (S k)); new_run_id E (S (S (S k)))]]> x)).
Proof.
  intros Hx Hf Hart Hread H1 H2 H3 H4 Hu Hans k.
  unfold make_rf. rewrite bind_eq.
  rewrite (load_data_run rs reg vs n x did dr d Hx Hf Hart Hread)
    by (apply (Hans 0%nat); lia).
  rewrite bind_eq.
  rewrite (rf_grid_run d rs reg vs (S n) x s1 s2 s3 s4 H1 H2 H3 H4 Hu)
    by (apply (answers_later rs reg vs n x _ _ _ _ 1 32); exact Hans).
  unfold xcom_push. cbn [tracking xcom].
  replace (32 + S n)%nat with (33 + n)%nat by lia. reflexivity.
Qed.

(** The Data Publisher from start to end. *)
Lemma process_data_run ti rs reg vs n x :
  csv_present E = true ->
  unique_ids E rs ->
  answers E (mkWorld (mkTracking rs reg vs n) x) 3 ->
  process_data E ti (mkWorld (mkTracking rs reg vs n) x)
  = (Ok tt,
     mkWorld
       (mkTracking
          (rs ++ [mkRun (new_run_id E (length rs)) "process" FINISHED ∅ ∅
                    ["processed_data"]]) reg vs (3 + n))
       (<[(ti, "run_id") := XStr (new_run_id E (length rs))]> x)).
Proof.
  intros Hcsv Hu Hans.
  assert (Hfresh : forall r', r' ∈ rs -> run_id r' <> new_run_id E (length rs))
    by (intros r' Hin; apply unique_ids_fresh; assumption).
  enough (Ht : twp (process_data E ti)
                 (fun _ w' => w' = mkWorld
                    (mkTracking
                       (rs ++ [mkRun (new_run_id E (length rs)) "process" FINISHED
                                 ∅ ∅ ["processed_data"]]) reg vs (3 + n))
                    (<[(ti, "run_id") := XStr (new_run_id E (length rs))]> x))
                 (mkWorld (mkTracking rs reg vs n) x)).
  { apply twp_elim in Ht as ([] & w' & Hrun & ->). exact Hrun. }
  unfold process_data.
  apply twp_start_run; [answered Hans 0%nat|]. intros id.
  cbn [runs tracking] in id. subst id.
  unfold log_artifact. rewrite Hcsv.
  unfold log_folder, set_terminated.
  apply twp_bind. twp_log Hfresh Hans 1%nat.
  unfold twp at 1, xcom_push.
  twp_log Hfresh Hans 2%nat.
  reflexivity.
Qed.

End TrainerTotals.

(** ** More on the Data Publisher and the trainers *)

Lemma twp_run {A} (c : M A) (w : World) (a0 : A) (w0 : World) :
  twp c (fun a w' => a = a0 /\ w' = w0) w -> c w = (Ok a0, w0).
Proof. intros H. apply twp_elim in H as (a & w' & Hrun & -> & ->). exact Hrun. Qed.

(** A with-block whose body runs through but whose final request to end
    the run is not answered. *)
Lemma start_run_unended (E : Env) {A} name (body : string -> M A) w a w2 :
  reachable E (requests (tracking w)) = true ->
  body (new_run_id E (length (runs (tracking w))))
    (with_runs (runs (tracking w) ++
                [mkRun (new_run_id E (length (runs (tracking w)))) name
                   RUNNING ∅ ∅ []])%list
       (after_requests 1 w)) = (Ok a, w2) ->
  reachable E (requests (tracking w2)) = false ->
  start_run E name body w = (Err MlflowException, after_requests 1 w2).
Proof.
  intros Hup Hbody Hdown. unfold start_run, create_run.
  rewrite bind_eq. unfold request at 1. rewrite Hup.
  rewrite !bind_eq. unfold get_tracking at 1. cbn beta iota.
  rewrite bind_eq. unfold set_runs at 1, modify_tracking at 1. cbn beta iota.
  unfold mret, M_ret.
  match goal with
  | |- context [body ?j ?w1] =>
      change (body j w1) with
        (body (new_run_id E (length (runs (tracking w))))
           (with_runs (runs (tracking w) ++
                       [mkRun (new_run_id E (length (runs (tracking w)))) name
                          RUNNING ∅ ∅ []])%list
              (after_requests 1 w)))
  end.
  rewrite Hbody. unfold set_terminated, update_run. rewrite bind_eq.
  unfold request at 1. rewrite Hdown. reflexivity.
Qed.

Lemma preserves_runs_load_data (E : Env) : preserves server_runs (load_data E).
Proof.
  unfold load_data.
  apply preserves_bind; [apply preserves_pure; reflexivity | intros v].
  apply preserves_bind; [|intros path; apply preserves_pure; reflexivity].
  unfold download_artifacts. destruct v as [[id|l]|];
    try (apply preserves_pure; reflexivity).
  apply preserves_bind; [apply preserves_get_run, of_server_runs | intros r].
  destruct (bool_decide _); apply preserves_pure; reflexivity.
Qed.

(** X7: with germany.csv in place, unique run ids and a server that
    answers three requests, the Data Publisher succeeds: it leaves one
    new finished run named "process" whose only artifact folder is
    "processed_data", publishes the id of that run, as a plain string,
    under "run_id", and does not touch the model registry. *)
Theorem process_data_publishes (E : Env) (ti : string) (w : World) :
  csv_present E = true ->
  unique_ids E (runs (tracking w)) ->
  answers E w 3 ->
  let id := new_run_id E (length (runs (tracking w))) in
  exists w',
    process_data E ti w = (Ok tt, w')
    /\ runs (tracking w') =
         (runs (tracking w) ++ [mkRun id "process" FINISHED ∅ ∅ ["processed_data"]])%list
    /\ xcom w' = <[(ti, "run_id") := XStr id]> (xcom w)
    /\ registry w' = registry w.
Proof.
  destruct w as [[rs reg vs n] x]. intros Hcsv Hu Hans id.
  eexists. split; [apply (process_data_run E ti rs reg vs n x Hcsv Hu Hans)|].
  repeat split.
Qed.

Lemma process_data_publishes_witness :
  exists w',
    process_data sample_env "process_data" (mkWorld (mkTracking [] ∅ [] 0) ∅)
    = (Ok tt, w')
    /\ runs (tracking w') = [mkRun "run-0" "process" FINISHED ∅ ∅ ["processed_data"]]
    /\ xcom w' = <[("process_data", "run_id") := XStr "run-0"]> ∅
    /\ registry w' = registry (mkWorld (mkTracking [] ∅ [] 0) ∅).
Proof.
  apply (process_data_publishes sample_env "process_data"
           (mkWorld (mkTracking [] ∅ [] 0) ∅)).
  - reflexivity.
  - split; [exact sample_ids_inj|]. intros i r Hi. discriminate Hi.
  - intros k Hk. reflexivity.
Defined.

(** X8: without germany.csv next to the DAG file the Data Publisher
    raises OSError inside its with-block: the run it created is ended as
    FAILED, holds no artifact, and no "run_id" is published. *)
Theorem process_data_without_csv (E : Env) (ti : string) (w : World) :
  csv_present E = false ->
  unique_ids E (runs (tracking w)) ->
  answers E w 2 ->
  let id := new_run_id E (length (runs (tracking w))) in
  exists w',
    process_data E ti w = (Err OSError, w')
    /\ runs (tracking w') =
         (runs (tracking w) ++ [mkRun id "process" FAILED ∅ ∅ []])%list
    /\ xcom w' = xcom w.
Proof.
  intros Hcsv Hu Hans id. unfold process_data.
  rewrite (start_run_failed E "process" _ w OSError
             (with_runs (runs (tracking w) ++ [mkRun id "process" RUNNING ∅ ∅ []])
                (after_requests 1 w))
             (runs (tracking w)) (mkRun id "process" RUNNING ∅ ∅ [])).
  - eexists. split; [reflexivity|]. split; reflexivity.
  - apply (Hans 0%nat). lia.
  - unfold log_artifact. rewrite Hcsv. reflexivity.
  - reflexivity.
  - reflexivity.
  - intros r' Hin. apply unique_ids_fresh; assumption.
  - cbn. apply (Hans 1%nat). lia.
Qed.

Lemma process_data_without_csv_witness :
  exists w',
    process_data
      (mkEnv (fun _ => true) (new_run_id sample_env) false (local_copy sample_env)
         (read_split sample_env) (lr_fit_predict sample_env)
         (rf_fit_predict sample_env) (float_format sample_env))
      "process_data" (mkWorld (mkTracking [] ∅ [] 0) ∅)
    = (Err OSError, w')
    /\ runs (tracking w') = [mkRun "run-0" "process" FAILED ∅ ∅ []]
    /\ xcom w' = ∅.
Proof.
  apply (process_data_without_csv
           (mkEnv (fun _ => true) (new_run_id sample_env) false
              (local_copy sample_env) (read_split sample_env)
              (lr_fit_predict sample_env) (rf_fit_predict sample_env)
              (float_format sample_env))
           "process_data" (mkWorld (mkTracking [] ∅ [] 0) ∅)).
  - reflexivity.
  - split; [exact sample_ids_inj|]. intros i r Hi. discriminate Hi.
  - intros k Hk. reflexivity.
Defined.

(** X9: when the data run is published and holds the data, the split is
    readable, the estimator and [eval_metrics] return, run ids are unique
    and the server answers seven requests, the Linear Model Trainer
    succeeds; its run is named "lr", is finished, has no params, holds
    the model, and its metrics "rmse", "mae" and "r2" are exactly the
    triple [eval_metrics] returned for the predictions on the held-out
    rows; it publishes the one-element list of that run's id. *)
Theorem make_lr_logs_metrics (E : Env) (ti : string) (w : World)
    (did : string) (dr : Run) (d : split) (y_predict : Metrics.matrix)
    (rmse mae r2 : pyfloat) :
  xcom w !! ("process_data", "run_id") = Some (XStr did) ->
  find_run did (runs (tracking w)) = Some dr -> "processed_data" ∈ artifacts dr ->
  read_split E (local_copy E did "processed_data" ++ "/germany.csv") = Ok d ->
  lr_fit_predict E (X_train d) (y_train d) (X_test d) = Ok y_predict ->
  Metrics.eval_metrics (float_format E) (y_test d) y_predict = Ok (rmse, mae, r2) ->
  unique_ids E (runs (tracking w)) ->
  answers E w 7 ->
  let id := new_run_id E (length (runs (tracking w))) in
  exists w' r,
    make_lr E ti w = (Ok tt, w')
    /\ runs (tracking w') = (runs (tracking w) ++ [r])%list
    /\ run_id r = id /\ run_name r = "lr" /\ status r = FINISHED
    /\ params r = ∅ /\ artifacts r = ["model"]
    /\ metrics r !! "rmse" = Some rmse
    /\ metrics r !! "mae" = Some mae
    /\ metrics r !! "r2" = Some r2
    /\ size (metrics r) = 3%nat
    /\ xcom w' = <[(ti, "run_id") := XList [id]]> (xcom w).
Proof.
  destruct w as [[rs reg vs n] x].
  intros Hx Hf Hart Hread Hpred Hev Hu Hans id. cbn [xcom tracking runs] in *.
  assert (Hs : lr_scores E d = Ok (rmse, mae, r2))
    by (unfold lr_scores; rewrite Hpred; exact Hev).
  eexists. exists (lr_record id (rmse, mae, r2)).
  split; [apply (make_lr_run E ti rs reg vs n x did dr d _ Hx Hf Hart Hread Hs Hu Hans)|].
  repeat split.
Qed.

Lemma make_lr_logs_metrics_witness :
  exists rmse mae r2 w' r,
    Metrics.eval_metrics exact_format (y_test sample_split) [[4; 5]; [5; 6]]%R
      = Ok (rmse, mae, r2)
    /\ make_lr sample_env "model_lr" published_world = (Ok tt, w')
    /\ runs (tracking w') = (runs (tracking published_world) ++ [r])%list
    /\ run_id r = "run-1" /\ run_name r = "lr" /\ status r = FINISHED
    /\ params r = ∅ /\ artifacts r = ["model"]
    /\ metrics r !! "rmse" = Some rmse
    /\ metrics r !! "mae" = Some mae
    /\ metrics r !! "r2" = Some r2
    /\ size (metrics r) = 3%nat
    /\ xcom w' = <[("model_lr", "run_id") := XList ["run-1"]]> (xcom published_world).
Proof.
  do 3 eexists.
  assert (Hev : Metrics.eval_metrics exact_format (y_test sample_split)
                  [[4; 5]; [5; 6]]%R
                = Ok (_, _, _)) by reflexivity.
  destruct (make_lr_logs_metrics sample_env "model_lr" published_world "run-0"
              (mkRun "run-0" "process" FINISHED ∅ ∅ ["processed_data"])
              sample_split [[4; 5]; [5; 6]]%R _ _ _
              eq_refl eq_refl (list_elem_of_here _ _) eq_refl eq_refl Hev
              published_world_unique (fun k _ => eq_refl))
    as (w' & r & H).
  exists w', r. split; [exact Hev | exact H].
Defined.

(** X10: under the same conditions, with thirty-three answered requests,
    the Ensemble Model Trainer succeeds, and the metrics of each of its
    four runs are the triple [eval_metrics] returned for the predictions
    of the forest with that run's hyperparameters. *)
Theorem make_rf_logs_metrics (E : Env) (ti : string) (w : World)
    (did : string) (dr : Run) (d : split) (s1 s2 s3 s4 : pyfloat * pyfloat * pyfloat) :
  xcom w !! ("process_data", "run_id") = Some (XStr did) ->
  find_run did (runs (tracking w)) = Some dr -> "processed_data" ∈ artifacts dr ->
  read_split E (local_copy E did "processed_data" ++ "/germany.csv") = Ok d ->
  rf_scores E d 4 4 = Ok s1 -> rf_scores E d 4 10 = Ok s2 ->
  rf_scores E d 25 4 = Ok s3 -> rf_scores E d 25 10 = Ok s4 ->
  unique_ids E (runs (tracking w)) ->
  answers E w 33 ->
  let k := length (runs (tracking w)) in
  exists w',
    make_rf E ti w = (Ok tt, w')
    /\ runs (tracking w') =
         (runs (tracking w) ++
          [rf_record (new_run_id E k) 4 4 s1;
           rf_record (new_run_id E (S k)) 4 10 s2;
           rf_record (new_run_id E (S (S k))) 25 4 s3;
           rf_record (new_run_id E (S (S (S k)))) 25 10 s4])%list
    /\ requests (tracking w') = (33 + requests (tracking w))%nat
    /\ xcom w' =
         <[(ti, "run_id") :=
             XList [new_run_id E k; new_run_id E (S k);
                    new_run_id E (S (S k)); new_run_id E (S (S (S k)))]]> (xcom w).
Proof.
  destruct w as [[rs reg vs n] x].
  intros Hx Hf Hart Hread H1 H2 H3 H4 Hu Hans k.
  cbn [xcom tracking runs requests] in *.
  eexists.
  split; [apply (make_rf_run E ti rs reg vs n x did dr d s1 s2 s3 s4
                   Hx Hf Hart Hread H1 H2 H3 H4 Hu Hans)|].
  repeat split.
Qed.

Lemma make_rf_logs_metrics_witness :
  exists s w',
    Metrics.eval_metrics exact_format (y_test sample_split) [[4; 5]; [5; 6]]%R = Ok s
    /\ make_rf sample_env "model_rf" published_world = (Ok tt, w')
    /\ runs (tracking w') =
         (runs (tracking published_world) ++
          [rf_record "run-1" 4 4 s; rf_record "run-2" 4 10 s;
           rf_record "run-3" 25 4 s; rf_record "run-4" 25 10 s])%list
    /\ requests (tracking w') = (33 + requests (tracking published_world))%nat
    /\ xcom w' =
         <[("model_rf", "run_id") := XList ["run-1"; "run-2"; "run-3"; "run-4"]]>
           (xcom published_world).
Proof.
  eexists.
  assert (Hev : Metrics.eval_metrics exact_format (y_test sample_split)
                  [[4; 5]; [5; 6]]%R
                = Ok _) by reflexivity.
  destruct (make_rf_logs_metrics sample_env "model_rf" published_world "run-0"
              (mkRun "run-0" "process" FINISHED ∅ ∅ ["processed_data"])
              sample_split _ _ _ _
              eq_refl eq_refl (list_elem_of_here _ _) eq_refl Hev Hev Hev Hev
              published_world_unique (fun k _ => eq_refl))
    as (w' & H).
  exists w'. split; [exact Hev | exact H].
Defined.

(** X11: when the estimator or [eval_metrics] raises inside the
    with-block of the Linear Model Trainer, the exception goes on, the
    run that was created is ended as FAILED with no metric and no model,
    and no "run_id" is published. *)
Theorem make_lr_failed_run (E : Env) (ti : string) (w : World)
    (did : string) (dr : Run) (d : split) (e : exn) :
  xcom w !! ("process_data", "run_id") = Some (XStr did) ->
  find_run did (runs (tracking w)) = Some dr -> "processed_data" ∈ artifacts dr ->
  read_split E (local_copy E did "processed_data" ++ "/germany.csv") = Ok d ->
  lr_scores E d = Err e ->
  unique_ids E (runs (tracking w)) ->
  answers E w 3 ->
  let id := new_run_id E (length (runs (tracking w))) in
  exists w',
    make_lr E ti w = (Err e, w')
    /\ runs (tracking w') = (runs (tracking w) ++ [mkRun id "lr" FAILED ∅ ∅ []])%list
    /\ xcom w' = xcom w.
Proof.
  destruct w as [[rs reg vs n] x].
  intros Hx Hf Hart Hread Hs Hu Hans id. cbn [xcom tracking runs] in *.
  unfold make_lr. rewrite bind_eq.
  rewrite (load_data_run E rs reg vs n x did dr d Hx Hf Hart Hread)
    by (apply (Hans 0%nat); lia).
  rewrite (start_run_failed E "lr" _ _ e
             (mkWorld (mkTracking (rs ++ [mkRun id "lr" RUNNING ∅ ∅ []]) reg vs
                         (S (S n))) x)
             rs (mkRun id "lr" RUNNING ∅ ∅ [])).
  - eexists. split; [reflexivity|]. split; reflexivity.
  - apply (Hans 1%nat). lia.
  - cbn [runs tracking]. unfold lr_scores in Hs. rewrite bind_eq. unfold lift at 1.
    destruct (lr_fit_predict E (X_train d) (y_train d) (X_test d)) as [y|e0];
      [|injection Hs as <-; reflexivity].
    rewrite bind_eq. unfold lift at 1. rewrite Hs. reflexivity.
  - reflexivity.
  - reflexivity.
  - intros r' Hin. apply unique_ids_fresh; assumption.
  - apply (Hans 2%nat). lia.
Qed.

Lemma make_lr_failed_run_witness :
  exists w',
    make_lr misshapen_env "model_lr" published_world = (Err ValueError, w')
    /\ runs (tracking w') =
         (runs (tracking published_world) ++ [mkRun "run-1" "lr" FAILED ∅ ∅ []])%list
    /\ xcom w' = xcom published_world.
Proof.
  apply (make_lr_failed_run misshapen_env "model_lr" published_world "run-0"
           (mkRun "run-0" "process" FINISHED ∅ ∅ ["processed_data"])
           sample_split ValueError).
  - reflexivity.
  - reflexivity.
  - apply list_elem_of_here.
  - reflexivity.
  - reflexivity.
  - exact published_world_unique.
  - intros k Hk. reflexivity.
Defined.

(** X12: the Linear Model Trainer pushes its message inside the
    with-block, before the run is ended.  When everything up to there
    succeeds and the request that ends the run is not answered, the task
    raises, the run stays RUNNING with its metrics and model, and the
    "run_id" message has been published all the same. *)
Theorem make_lr_published_before_end (E : Env) (ti : string) (w : World)
    (did : string) (dr : Run) (d : split) (s : pyfloat * pyfloat * pyfloat) :
  xcom w !! ("process_data", "run_id") = Some (XStr did) ->
  find_run did (runs (tracking w)) = Some dr -> "processed_data" ∈ artifacts dr ->
  read_split E (local_copy E did "processed_data" ++ "/germany.csv") = Ok d ->
  lr_scores E d = Ok s ->
  unique_ids E (runs (tracking w)) ->
  answers E w 6 ->
  reachable E (6 + requests (tracking w)) = false ->
  let id := new_run_id E (length (runs (tracking w))) in
  exists w',
    make_lr E ti w = (Err MlflowException, w')
    /\ xcom w' = <[(ti, "run_id") := XList [id]]> (xcom w)
    /\ runs (tracking w') =
         (runs (tracking w) ++
          [mkRun id "lr" RUNNING ∅ (logged_metrics s) ["model"]])%list.
Proof.
  destruct w as [[rs reg vs n] x].
  intros Hx Hf Hart Hread Hs Hu Hans Hdown id.
  cbn [xcom tracking runs requests] in *.
  assert (Hfresh : forall r', r' ∈ rs -> run_id r' <> id)
    by (intros r' Hin; apply unique_ids_fresh; assumption).
  unfold lr_scores in Hs.
  destruct (lr_fit_predict E (X_train d) (y_train d) (X_test d)) as [y_predict|]
    eqn:Hpred; [|discriminate].
  destruct s as [[rmse mae] r2].
  unfold make_lr. rewrite bind_eq.
  rewrite (load_data_run E rs reg vs n x did dr d Hx Hf Hart Hread)
    by (apply (Hans 0%nat); lia).
  rewrite (start_run_unended E "lr" _ _ tt
             (mkWorld
                (mkTracking
                   (rs ++ [mkRun id "lr" RUNNING ∅ (logged_metrics (rmse, mae, r2))
                             ["model"]]) reg vs (6 + n))
                (<[(ti, "run_id") := XList [id]]> x))).
  - eexists. split; [reflexivity|]. split; reflexivity.
  - apply (Hans 1%nat). lia.
  - cbn [runs tracking]. fold id. apply twp_run.
    apply twp_bind. apply (twp_lift _ y_predict); [exact Hpred|].
    apply twp_bind. apply (twp_lift _ (rmse, mae, r2)); [exact Hs|].
    unfold log_metric, log_model, log_folder.
    apply twp_bind. eapply twp_update_run;
      [reflexivity | reflexivity | exact Hfresh | apply (Hans 2%nat); lia |].
    cbn [run_id run_name status params metrics artifacts].
    apply twp_bind. eapply twp_update_run;
      [reflexivity | reflexivity | exact Hfresh | apply (Hans 3%nat); lia |].
    cbn [run_id run_name status params metrics artifacts].
    apply twp_bind. eapply twp_update_run;
      [reflexivity | reflexivity | exact Hfresh | apply (Hans 4%nat); lia |].
    cbn [run_id run_name status params metrics artifacts].
    apply twp_bind. eapply twp_update_run;
      [reflexivity | reflexivity | exact Hfresh | apply (Hans 5%nat); lia |].
    cbn [run_id run_name status params metrics artifacts].
    unfold twp, xcom_push. split; reflexivity.
  - exact Hdown.
Qed.

Lemma make_lr_published_before_end_witness :
  exists s w',
    lr_scores dropping_env sample_split = Ok s
    /\ make_lr dropping_env "model_lr" published_world = (Err MlflowException, w')
    /\ xcom w' = <[("model_lr", "run_id") := XList ["run-1"]]> (xcom published_world)
    /\ runs (tracking w') =
         (runs (tracking published_world) ++
          [mkRun "run-1" "lr" RUNNING ∅ (logged_metrics s) ["model"]])%list.
Proof.
  eexists.
  assert (Hs : lr_scores dropping_env sample_split = Ok _) by reflexivity.
  destruct (make_lr_published_before_end dropping_env "model_lr" published_world
              "run-0" (mkRun "run-0" "process" FINISHED ∅ ∅ ["processed_data"])
              sample_split _ eq_refl eq_refl (list_elem_of_here _ _) eq_refl Hs
              published_world_unique) as (w' & H).
  - intros k Hk. cbn.
    do 6 (destruct k as [|k]; [reflexivity|]). lia.
  - reflexivity.
  - exists w'. split; [exact Hs | exact H].
Defined.

(** X13: a trainer whose data cannot be loaded (no "run_id" from the
    Data Publisher, a run the server does not know, a run without the
    "processed_data" folder, an unreadable file) raises that exception
    before it starts a run: both trainers end in the world the loading
    ended in, with the runs and the XCom table they started from. *)
Theorem trainers_need_data (E : Env) (w w1 : World) (e : exn) :
  load_data E w = (Err e, w1) ->
  task_lr E w = (Err e, w1)
  /\ task_rf E w = (Err e, w1)
  /\ runs (tracking w1) = runs (tracking w)
  /\ xcom w1 = xcom w.
Proof.
  intros H. unfold task_lr, task_rf, make_lr, make_rf. rewrite !bind_eq, H.
  split; [reflexivity|]. split; [reflexivity|].
  pose proof (preserves_runs_load_data E w) as Hr.
  pose proof (keeps_load_data E w) as Hx.
  rewrite H in Hr, Hx. split; [exact Hr | exact Hx].
Qed.

Lemma trainers_need_data_witness :
  task_lr sample_env selected_world = (Err MlflowException, selected_world)
  /\ task_rf sample_env selected_world = (Err MlflowException, selected_world)
  /\ runs (tracking selected_world) = runs (tracking selected_world)
  /\ xcom selected_world = xcom selected_world.
Proof.
  apply (trainers_need_data sample_env selected_world selected_world MlflowException).
  reflexivity.
Defined.

(** ** The runs on the server only grow *)

Section RunIds.
Variable E : Env.

Lemma appends_keeps {A} (c : M A) : preserves run_ids c -> appends_at_most E 0 c.
Proof.
  intros H w. exists 0%nat. split; [lia|]. rewrite H. cbn. symmetry. apply app_nil_r.
Qed.

Lemma appends_weaken {A} (c : M A) k k' :
  (k <= k')%nat -> appends_at_most E k c -> appends_at_most E k' c.
Proof. intros Hle H w. destruct (H w) as (n & Hn & Heq). exists n. split; [lia | exact Heq]. Qed.

Lemma appends_bind {A B} (c : M A) (f : A -> M B) k1 k2 :
  appends_at_most E k1 c -> (forall a, appends_at_most E k2 (f a)) ->
  appends_at_most E (k1 + k2) (c ≫= f).
Proof.
  intros Hc Hf w. rewrite bind_eq. destruct (Hc w) as (n1 & Hn1 & H1).
  destruct (c w) as [[a|e] w1]; cbn [snd] in *.
  - destruct (Hf a w1) as (n2 & Hn2 & H2). exists (n1 + n2)%nat. split; [lia|].
    rewrite H2, H1, length_app, length_map, length_seq, seq_app, map_app, app_assoc.
    reflexivity.
  - exists n1. split; [lia | exact H1].
Qed.

Lemma update_first_ids id f rs rs' :
  (forall r, run_id (f r) = run_id r) ->
  update_first id f rs = Some rs' -> map run_id rs' = map run_id rs.
Proof.
  intros Hf. revert rs'. induction rs as [|r rs IH]; intros rs' H; cbn in H;
    [discriminate|].
  destruct (bool_decide (run_id r = id)).
  - injection H as <-. cbn. rewrite Hf. reflexivity.
  - destruct (update_first id f rs) as [t|]; [|discriminate].
    injection H as <-. cbn. rewrite (IH t eq_refl). reflexivity.
Qed.

Lemma preserves_ids_update_run id f :
  (forall r, run_id (f r) = run_id r) -> preserves run_ids (update_run E id f).
Proof.
  intros Hf [[rs reg vs n] x]. unfold update_run. rewrite bind_eq.
  unfold request at 1. cbn [tracking requests].
  destruct (reachable E n); [|reflexivity].
  rewrite bind_eq. unfold get_tracking at 1. cbn [tracking set_tracking runs].
  destruct (update_first id f rs) as [rs'|] eqn:Hu; [|reflexivity].
  unfold run_ids. cbn. apply (update_first_ids id f rs rs' Hf Hu).
Qed.

Lemma preserves_ids_log_param id key value : preserves run_ids (log_param E id key value).
Proof.
  intros [[rs reg vs n] x]. unfold log_param. rewrite bind_eq.
  unfold request at 1. cbn [tracking requests].
  destruct (reachable E n); [|reflexivity].
  rewrite bind_eq. unfold get_tracking at 1. cbn [tracking set_tracking runs].
  destruct (find_run id rs) as [r|]; [|reflexivity].
  destruct (params r !! key) as [old|].
  - destruct (bool_decide (old = value)); reflexivity.
  - destruct (update_first id _ rs) as [rs'|] eqn:Hu; [|reflexivity].
    unfold run_ids. cbn. eapply update_first_ids; [|exact Hu]. reflexivity.
Qed.

Lemma appends_create_run name : appends_at_most E 1 (create_run E name).
Proof.
  intros [[rs reg vs n] x]. unfold create_run. rewrite bind_eq.
  unfold request at 1. cbn [tracking requests].
  destruct (reachable E n).
  - rewrite !bind_eq. unfold get_tracking at 1. cbn beta iota.
    rewrite bind_eq. unfold set_runs at 1, modify_tracking at 1. cbn beta iota.
    unfold mret, M_ret.
    exists 1%nat. split; [lia|].
    unfold run_ids. cbn. rewrite map_app, length_map. reflexivity.
  - exists 0%nat. split; [lia|].
    unfold run_ids. cbn. symmetry. apply app_nil_r.
Qed.

Lemma appends_start_run {A} name (body : string -> M A) :
  (forall id, preserves run_ids (body id)) ->
  appends_at_most E 1 (start_run E name body).
Proof.
  intros Hb w. unfold start_run.
  destruct (appends_create_run name w) as (n & Hn & Hc).
  destruct (create_run E name w) as [[id|e] w1]; cbn [snd] in Hc;
    [|exists n; split; [exact Hn | exact Hc]].
  pose proof (Hb id w1) as Hb1.
  assert (Ht : forall s w2, run_ids (snd (set_terminated E id s w2)) = run_ids w2)
    by (intros s w2; apply preserves_ids_update_run; reflexivity).
  exists n. split; [exact Hn|].
  destruct (body id w1) as [[a|e] w2]; cbn [snd] in Hb1.
  - specialize (Ht FINISHED w2).
    destruct (set_terminated E id FINISHED w2) as [[u|e] w3]; cbn [snd] in *;
      congruence.
  - specialize (Ht FAILED w2).
    destruct (set_terminated E id FAILED w2) as [[u|e'] w3]; cbn [snd] in *;
      congruence.
Qed.

Lemma appends_for_each {A St} (body : A -> St -> M St) k l :
  (forall a s, appends_at_most E k (body a s)) ->
  forall acc, appends_at_most E (length l * k) (for_each l body acc).
Proof.
  intros Hb. induction l as [|a l IH]; intros acc; cbn [for_each length].
  - apply appends_keeps. intros w. reflexivity.
  - change (S (length l) * k)%nat with (k + length l * k)%nat.
    apply appends_bind; [apply Hb | intros s; apply IH].
Qed.

Lemma preserves_ids_of_runs {A} (c : M A) : preserves server_runs c -> preserves run_ids c.
Proof. intros H w. unfold run_ids. fold (server_runs (snd (c w))). rewrite H. reflexivity. Qed.

Lemma preserves_ids_pure {A} (c : M A) : (forall w, snd (c w) = w) -> preserves run_ids c.
Proof. apply preserves_pure. Qed.

Lemma preserves_ids_log_metric id key v : preserves run_ids (log_metric E id key v).
Proof. apply preserves_ids_update_run. reflexivity. Qed.

Lemma preserves_ids_log_folder id p : preserves run_ids (log_folder E id p).
Proof. apply preserves_ids_update_run. reflexivity. Qed.

Lemma appends_process_data ti : appends_at_most E 1 (process_data E ti).
Proof.
  unfold process_data. apply appends_start_run. intros id.
  apply preserves_bind; [|intros _; apply preserves_push, of_server_ids].
  unfold log_artifact. destruct (csv_present E);
    [apply preserves_ids_log_folder | apply preserves_pure; reflexivity].
Qed.

Lemma appends_make_lr ti : appends_at_most E 1 (make_lr E ti).
Proof.
  unfold make_lr. change 1%nat with (0 + 1)%nat.
  apply appends_bind;
    [apply appends_keeps, preserves_ids_of_runs, preserves_runs_load_data|].
  intros d. apply appends_start_run. intros id.
  apply preserves_bind; [apply preserves_pure; reflexivity | intros y].
  apply preserves_bind; [apply preserves_pure; reflexivity | intros [[rmse mae] r2]].
  do 3 (apply preserves_bind; [apply preserves_ids_log_metric | intros _]).
  apply preserves_bind; [apply preserves_ids_log_folder | intros _].
  apply preserves_push, of_server_ids.
Qed.

Lemma appends_rf_run d n m acc : appends_at_most E 1 (rf_run E d n m acc).
Proof.
  unfold rf_run. apply appends_start_run. intros id.
  apply preserves_bind; [apply preserves_pure; reflexivity | intros y].
  apply preserves_bind; [apply preserves_pure; reflexivity | intros [[rmse mae] r2]].
  do 2 (apply preserves_bind; [apply preserves_ids_log_param | intros _]).
  do 3 (apply preserves_bind; [apply preserves_ids_log_metric | intros _]).
  apply preserves_bind; [apply preserves_ids_log_folder | intros _].
  apply preserves_pure. reflexivity.
Qed.

Lemma appends_make_rf ti : appends_at_most E 4 (make_rf E ti).
Proof.
  unfold make_rf. change 4%nat with (0 + (4 + 0))%nat.
  apply appends_bind;
    [apply appends_keeps, preserves_ids_of_runs, preserves_runs_load_data|].
  intros d. apply appends_bind.
  - unfold rf_grid.
    apply (appends_for_each _ 2 [4; 25]%Z). intros n acc.
    apply (appends_for_each _ 1 [4; 10]%Z). intros m acc'.
    apply appends_rf_run.
  - intros ids. apply appends_keeps, preserves_push, of_server_ids.
Qed.

(** A server whose ids are unique stays so when runs with the next ids
    are appended. *)
Lemma appended_ids_unique (w w' : World) n :
  run_ids w' = (run_ids w ++ map (new_run_id E) (seq (length (run_ids w)) n))%list ->
  unique_ids E (runs (tracking w)) -> unique_ids E (runs (tracking w')).
Proof.
  intros Heq [Hinj Hgen]. split; [exact Hinj|].
  intros i r Hi.
  assert (Hid : run_ids w' !! i = Some (run_id r))
    by (unfold run_ids; rewrite list_lookup_fmap, Hi; reflexivity).
  rewrite Heq in Hid. apply lookup_app_Some in Hid as [Hid | [Hge Hid]].
  - unfold run_ids in Hid. rewrite list_lookup_fmap in Hid.
    destruct (runs (tracking w) !! i) as [r0|] eqn:Hr0; [|discriminate].
    injection Hid as Hid. rewrite <- Hid. apply Hgen, Hr0.
  - rewrite list_lookup_fmap in Hid.
    destruct (seq (length (run_ids w)) n !! (i - length (run_ids w))%nat)
      as [j|] eqn:Hj; [|discriminate].
    injection Hid as Hid. apply lookup_seq in Hj as [-> _].
    rewrite <- Hid. f_equal. lia.
Qed.

End RunIds.

(** X14: whatever their outcome, the tasks remove and rename no run; the
    ids on the server afterwards are those before, followed by the next
    ids of the server: at most one for the Data Publisher and for the
    Linear Model Trainer, at most four for the Ensemble Model Trainer,
    none for the Model Selector and the Model Promoter. *)
Theorem tasks_only_append_runs (E : Env) (ti : string) :
  appends_at_most E 1 (process_data E ti)
  /\ appends_at_most E 1 (make_lr E ti)
  /\ appends_at_most E 4 (make_rf E ti)
  /\ appends_at_most E 0 (get_best_model E ti)
  /\ appends_at_most E 0 (register_best_model E ti).
Proof.
  split; [apply appends_process_data|].
  split; [apply appends_make_lr|].
  split; [apply appends_make_rf|].
  split.
  - apply appends_keeps, preserves_get_best_model, of_server_ids.
  - apply appends_keeps, preserves_ids_of_runs, preserves_runs_register_best_model.
Qed.

(** X15: on a server whose run ids are unique, they are still unique
    after any of the five tasks, whether it succeeded or raised. *)
Theorem tasks_keep_ids_unique (E : Env) (ti : string) (w : World) :
  unique_ids E (runs (tracking w)) ->
  unique_ids E (runs (tracking (snd (process_data E ti w))))
  /\ unique_ids E (runs (tracking (snd (make_lr E ti w))))
  /\ unique_ids E (runs (tracking (snd (make_rf E ti w))))
  /\ unique_ids E (runs (tracking (snd (get_best_model E ti w))))
  /\ unique_ids E (runs (tracking (snd (register_best_model E ti w)))).
Proof.
  intros Hu.
  assert (H : forall (k : nat) (c : M unit), appends_at_most E k c ->
              unique_ids E (runs (tracking (snd (c w))))).
  { intros k c Hc. destruct (Hc w) as (n & _ & Heq).
    apply (appended_ids_unique E w _ n Heq Hu). }
  split; [apply (H 1%nat), appends_process_data|].
  split; [apply (H 1%nat), appends_make_lr|].
  split; [apply (H 4%nat), appends_make_rf|].
  split.
  - apply (H 0%nat), appends_keeps, preserves_get_best_model, of_server_ids.
  - apply (H 0%nat), appends_keeps, preserves_ids_of_runs,
      preserves_runs_register_best_model.
Qed.

Lemma tasks_keep_ids_unique_witness :
  unique_ids failing_env
    (runs (tracking (snd (process_data failing_env "model_rf" published_world))))
  /\ unique_ids failing_env
       (runs (tracking (snd (make_lr failing_env "model_rf" published_world))))
  /\ unique_ids failing_env
       (runs (tracking (snd (make_rf failing_env "model_rf" published_world))))
  /\ unique_ids failing_env
       (runs (tracking (snd (get_best_model failing_env "model_rf" published_world))))
  /\ unique_ids failing_env
       (runs (tracking (snd (register_best_model failing_env "model_rf"
                               published_world)))).
Proof.
  apply (tasks_keep_ids_unique failing_env "model_rf" published_world).
  exact published_world_unique.
Defined.

(** ** The model registry under the Data Publisher and the trainers *)

Section RegistryFrames.
Variable E : Env.

Lemma preserves_registry_set_runs rs : preserves registry (set_runs rs).
Proof. intros [t x]. reflexivity. Qed.

Lemma preserves_registry_update_run id f : preserves registry (update_run E id f).
Proof.
  unfold update_run.
  apply preserves_bind; [apply preserves_request, of_server_registry | intros _].
  apply preserves_bind; [apply preserves_pure; reflexivity | intros t].
  destruct (update_first id f (runs t));
    [apply preserves_registry_set_runs | apply preserves_pure; reflexivity].
Qed.

Lemma preserves_registry_log_param id key value :
  preserves registry (log_param E id key value).
Proof.
  unfold log_param.
  apply preserves_bind; [apply preserves_request, of_server_registry | intros _].
  apply preserves_bind; [apply preserves_pure; reflexivity | intros t].
  destruct (find_run id (runs t)) as [r|]; [|apply preserves_pure; reflexivity].
  destruct (params r !! key) as [old|].
  - destruct (bool_decide (old = value)); apply preserves_pure; reflexivity.
  - destruct (update_first id _ (runs t));
      [apply preserves_registry_set_runs | apply preserves_pure; reflexivity].
Qed.

Lemma preserves_registry_create_run name : preserves registry (create_run E name).
Proof.
  unfold create_run.
  apply preserves_bind; [apply preserves_request, of_server_registry | intros _].
  apply preserves_bind; [apply preserves_pure; reflexivity | intros t].
  apply preserves_bind; [apply preserves_registry_set_runs | intros _].
  apply preserves_pure. reflexivity.
Qed.

(** A with-block keeps what its body, the creation of the run and its
    ending keep. *)
Lemma preserves_start_run {A X} (obs : World -> X) name (body : string -> M A) :
  preserves obs (create_run E name) ->
  (forall id s, preserves obs (set_terminated E id s)) ->
  (forall id, preserves obs (body id)) ->
  preserves obs (start_run E name body).
Proof.
  intros Hc Ht Hb w. unfold start_run. specialize (Hc w).
  destruct (create_run E name w) as [[id|e] w1]; cbn [snd] in Hc; [|exact Hc].
  pose proof (Hb id w1) as Hb1.
  destruct (body id w1) as [[a|e] w2]; cbn [snd] in Hb1.
  - pose proof (Ht id FINISHED w2) as Ht2.
    destruct (set_terminated E id FINISHED w2) as [[u|e] w3]; cbn [snd] in *;
      congruence.
  - pose proof (Ht id FAILED w2) as Ht2.
    destruct (set_terminated E id FAILED w2) as [[u|e'] w3]; cbn [snd] in *;
      congruence.
Qed.

Lemma preserves_for_each {A St X} (obs : World -> X) (body : A -> St -> M St) l :
  (forall a s, preserves obs (body a s)) ->
  forall acc, preserves obs (for_each l body acc).
Proof.
  intros Hb. induction l as [|a l IH]; intros acc; cbn [for_each].
  - apply preserves_pure. reflexivity.
  - apply preserves_bind; [apply Hb | intros s; apply IH].
Qed.

Lemma preserves_registry_start_run {A} name (body : string -> M A) :
  (forall id, preserves registry (body id)) ->
  preserves registry (start_run E name body).
Proof.
  apply preserves_start_run.
  - apply preserves_registry_create_run.
  - intros id s. apply preserves_registry_update_run.
Qed.

Lemma preserves_load_data {X} (obs : World -> X) :
  of_server obs -> preserves obs (load_data E).
Proof.
  intros H. unfold load_data.
  apply preserves_bind; [apply preserves_pure; reflexivity | intros v].
  apply preserves_bind; [|intros p; apply preserves_pure; reflexivity].
  unfold download_artifacts. destruct v as [[id|l]|];
    try (apply preserves_pure; reflexivity).
  apply preserves_bind; [apply preserves_get_run, H | intros r].
  destruct (bool_decide _); apply preserves_pure; reflexivity.
Qed.

Lemma preserves_registry_process_data ti : preserves registry (process_data E ti).
Proof.
  unfold process_data. apply preserves_registry_start_run. intros id.
  apply preserves_bind; [|intros _; apply preserves_push, of_server_registry].
  unfold log_artifact. destruct (csv_present E);
    [apply preserves_registry_update_run | apply preserves_pure; reflexivity].
Qed.

Lemma preserves_registry_make_lr ti : preserves registry (make_lr E ti).
Proof.
  unfold make_lr.
  apply preserves_bind; [apply preserves_load_data, of_server_registry | intros d].
  apply preserves_registry_start_run. intros id.
  apply preserves_bind; [apply preserves_pure; reflexivity | intros y].
  apply preserves_bind; [apply preserves_pure; reflexivity | intros [[rmse mae] r2]].
  do 4 (apply preserves_bind; [apply preserves_registry_update_run | intros _]).
  apply preserves_push, of_server_registry.
Qed.

Lemma preserves_registry_make_rf ti : preserves registry (make_rf E ti).
Proof.
  unfold make_rf.
  apply preserves_bind; [apply preserves_load_data, of_server_registry | intros d].
  apply preserves_bind; [|intros ids; apply preserves_push, of_server_registry].
  unfold rf_grid.
  apply preserves_for_each. intros n acc.
  apply preserves_for_each. intros m acc'.
  unfold rf_run. apply preserves_registry_start_run. intros id.
  apply preserves_bind; [apply preserves_pure; reflexivity | intros y].
  apply preserves_bind; [apply preserves_pure; reflexivity | intros [[rmse mae] r2]].
  do 2 (apply preserves_bind; [apply preserves_registry_log_param | intros _]).
  do 4 (apply preserves_bind; [apply preserves_registry_update_run | intros _]).
  apply preserves_pure. reflexivity.
Qed.

End RegistryFrames.

(** X16: the Data Publisher and the two trainers never touch the model
    registry: whatever their outcome, the registered models and their
    versions are as before. *)
Theorem trainers_leave_registry (E : Env) (ti : string) :
  preserves registry (process_data E ti)
  /\ preserves registry (make_lr E ti)
  /\ preserves registry (make_rf E ti).
Proof.
  split; [apply preserves_registry_process_data|].
  split; [apply preserves_registry_make_lr | apply preserves_registry_make_rf].
Qed.

(** ** The DAG *)

(** The edges leave two orders: the Data Publisher, the two trainers
    either way round, the Model Selector, the Model Promoter. *)
Lemma schedule_cases order :
  schedule order = true ->
  order = [op_process; op_lr; op_rf; op_get_best_model; op_register_best_model]
  \/ order = [op_process; op_rf; op_lr; op_get_best_model; op_register_best_model].
Proof.
  unfold schedule. intros H. apply andb_prop in H as [H Hlen].
  apply Nat.eqb_eq in Hlen.
  do 5 (destruct order as [|t order]; [discriminate|];
        cbn [respects] in H; apply andb_prop in H as [Ht H];
        destruct t; try (vm_compute in Ht; discriminate Ht); clear Ht;
        cbn [app] in H).
  all: destruct order; [auto | discriminate].
Qed.

Lemma dag_run_success E t rest done w w' :
  ready done t = true -> python_callable E t w = (Ok tt, w') ->
  dag_run E (t :: rest) done w = dag_run E rest (done ++ [(t, success)])%list w'.
Proof. intros Hr Hc. cbn [dag_run]. rewrite Hr, Hc. reflexivity. Qed.

Lemma dag_run_failed E t rest done w e w' :
  ready done t = true -> python_callable E t w = (Err e, w') ->
  dag_run E (t :: rest) done w = dag_run E rest (done ++ [(t, failed e)])%list w'.
Proof. intros Hr Hc. cbn [dag_run]. rewrite Hr, Hc. reflexivity. Qed.

Lemma dag_run_skipped E t rest done w :
  ready done t = false ->
  dag_run E (t :: rest) done w = dag_run E rest (done ++ [(t, upstream_failed)])%list w.
Proof. intros Hr. cbn [dag_run]. rewrite Hr. reflexivity. Qed.

(** One step of a DAG run, by the state of the upstream tasks and the
    outcome of the callable. *)
Ltac dag_step :=
  match goal with
  | |- context [dag_run ?E (?t :: ?rest) ?done ?w] =>
      let b := eval vm_compute in (ready done t) in
      lazymatch b with
      | true =>
          let e := fresh "e" in let w' := fresh "w" in let Hc := fresh "Hc" in
          destruct (python_callable E t w) as [[[]|e] w'] eqn:Hc;
          [ rewrite (dag_run_success E t rest done w w' eq_refl Hc)
          | rewrite (dag_run_failed E t rest done w e w' eq_refl Hc) ]
      | false => rewrite (dag_run_skipped E t rest done w eq_refl)
      end; cbn [app]
  end.

Lemma callable_keeps_registry E t w r w' :
  t <> op_register_best_model ->
  python_callable E t w = (r, w') -> registry w' = registry w.
Proof.
  intros Ht Hc. change w' with (snd (r, w')). rewrite <- Hc.
  destruct t; cbn [python_callable]; [| | | |congruence].
  - apply preserves_registry_process_data.
  - apply preserves_registry_make_lr.
  - apply preserves_registry_make_rf.
  - apply preserves_get_best_model, of_server_registry.
Qed.

(** X17: in every order the scheduler may take, a task other than the
    Model Promoter that does not succeed keeps the Model Promoter from
    running: it ends upstream_failed, and the model registry is as it
    was before the DAG run. *)
Theorem failure_stops_promotion (E : Env) (order : list operator) (w : World)
    (t : operator) :
  schedule order = true ->
  t <> op_register_best_model ->
  state_of (fst (dag_run E order [] w)) t <> Some success ->
  state_of (fst (dag_run E order [] w)) op_register_best_model = Some upstream_failed
  /\ registry (snd (dag_run E order [] w)) = registry w.
Proof.
  intros Hs Ht.
  destruct (schedule_cases order Hs) as [-> | ->].
  all: do 5 (try dag_step).
  all: cbn [dag_run fst snd]; intros Hst.
  all: try (exfalso; destruct t; solve [congruence | apply Hst; reflexivity]).
  all: split; [reflexivity|].
  all: repeat match goal with
              | Hc : python_callable _ _ _ = _ |- _ =>
                  apply callable_keeps_registry in Hc; [|discriminate]
              end; congruence.
Qed.

Lemma failure_stops_promotion_witness :
  state_of
    (fst (dag_run failing_env
            [op_process; op_lr; op_rf; op_get_best_model; op_register_best_model]
            [] fresh_world))
    op_register_best_model = Some upstream_failed
  /\ registry
       (snd (dag_run failing_env
               [op_process; op_lr; op_rf; op_get_best_model; op_register_best_model]
               [] fresh_world))
     = registry fresh_world.
Proof.
  apply (failure_stops_promotion failing_env
           [op_process; op_lr; op_rf; op_get_best_model; op_register_best_model]
           fresh_world op_rf).
  - reflexivity.
  - discriminate.
  - vm_compute. discriminate.
Defined.

(** *** The DAG run on a good day *)

Section DagFacts.
Variable E : Env.

Lemma find_run_skip id l1 l2 :
  (forall r, r ∈ l1 -> run_id r <> id) -> find_run id (l1 ++ l2) = find_run id l2.
Proof.
  intros H. unfold find_run. induction l1 as [|r l1 IH]; [reflexivity|].
  cbn. rewrite bool_decide_eq_false_2 by (apply H, list_elem_of_here).
  apply IH. intros r' Hin. apply H, list_elem_of_further, Hin.
Qed.

(** On a server with unique ids a run is found by the id of its place. *)
Lemma find_run_unique rs i r :
  unique_ids E rs -> rs !! i = Some r -> find_run (new_run_id E i) rs = Some r.
Proof.
  intros [Hinj Hgen] Hi.
  rewrite <- (take_drop_middle rs i r Hi).
  rewrite find_run_skip.
  - unfold find_run. cbn.
    rewrite bool_decide_eq_true_2 by (apply Hgen, Hi). reflexivity.
  - intros r' Hin. apply list_elem_of_lookup in Hin as [j Hj].
    apply lookup_take_Some in Hj as [Hj Hlt].
    rewrite (Hgen j r' Hj). intros Heq. apply Hinj in Heq. lia.
Qed.

Lemma unique_ids_app rs l :
  unique_ids E rs ->
  (forall j r, l !! j = Some r -> run_id r = new_run_id E (length rs + j)) ->
  unique_ids E (rs ++ l).
Proof.
  intros [Hinj Hgen] Hl. split; [exact Hinj|].
  intros i r Hi. apply lookup_app_Some in Hi as [Hi | [Hge Hi]].
  - apply Hgen, Hi.
  - rewrite (Hl _ _ Hi). f_equal. lia.
Qed.

Lemma r2_of_runs w1 w2 id :
  runs (tracking w1) = runs (tracking w2) -> r2_of w1 id = r2_of w2 id.
Proof. unfold r2_of. intros ->. reflexivity. Qed.

Lemma r2_le_runs w1 w2 a b :
  runs (tracking w1) = runs (tracking w2) -> r2_le w1 a b = r2_le w2 a b.
Proof. intros H. unfold r2_le. rewrite !(r2_of_runs w1 w2) by exact H. reflexivity. Qed.

Lemma answers_tail rs reg vs n x rs' reg' vs' x' a b c :
  answers E (mkWorld (mkTracking rs reg vs n) x) c -> (a + b <= c)%nat ->
  answers E (mkWorld (mkTracking rs' reg' vs' (a + n)) x') b.
Proof.
  intros H Hle k Hk. cbn. replace (k + (a + n))%nat with (a + k + n)%nat by lia.
  apply (H (a + k)%nat). lia.
Qed.

(** The selection followed by the promotion. *)
Lemma selection_then_promotion w ids :
  candidate_ids w = (Ok ids, w) -> ids <> [] ->
  (forall id, id ∈ ids -> exists v, r2_of w id = Some v /\ is_nan v = false) ->
  (forall id, id ∈ ids -> id <> "" /\ slash_free id = true) ->
  version_free "BestModel" (versions (tracking w)) ->
  answers E w (length ids + 4) ->
  exists best w1 w2,
    task_get_best_model E w = (Ok tt, w1)
    /\ task_register_best_model E w1 = (Ok tt, w2)
    /\ best ∈ ids
    /\ (forall id, id ∈ ids -> r2_le w2 id best = true)
    /\ versions (tracking w2) =
         (versions (tracking w) ++
          [mkVersion "BestModel" (next_version "BestModel" (versions (tracking w)))
             best "model" Production])%list
    /\ runs (tracking w2) = runs (tracking w).
Proof.
  intros Hc Hne Hnum Hid Hfree Hans.
  destruct (selector_total E "get_best_model" w ids Hc Hne Hnum)
    as (i & best & Hsel & Hi & Hmax & _).
  { intros k Hk. apply Hans. lia. }
  assert (Hin : best ∈ ids) by (apply list_elem_of_lookup; eauto).
  destruct (Hnum best Hin) as (v & Hv & _).
  assert (Hr : exists r, find_run best (runs (tracking w)) = Some r).
  { unfold r2_of in Hv. destruct (find_run best (runs (tracking w))) as [r|];
      [eauto | discriminate]. }
  destruct Hr as [r Hr]. destruct (Hid best Hin) as [Hbne Hbs].
  set (w1 := mkWorld (tracking (after_requests (length ids) w))
               (<[best_key "get_best_model" := XStr best]> (xcom w))) in *.
  assert (Ht : twp (register_best_model E "register_best_model")
                 (fun _ w' =>
                    versions (tracking w') =
                      (versions (tracking w1) ++
                       [mkVersion "BestModel"
                          (next_version "BestModel" (versions (tracking w1)))
                          best "model" Production])%list
                    /\ "BestModel" ∈ registered (tracking w')
                    /\ runs (tracking w') = runs (tracking w1)
                    /\ xcom w' = xcom w1) w1).
  { apply (twp_register_best_model E "register_best_model" w1 best r).
    - apply lookup_insert_eq.
    - exact Hbne.
    - exact Hbs.
    - exact Hr.
    - exact Hfree.
    - intros k Hk. cbn. replace (k + (length ids + requests (tracking w)))%nat
        with (length ids + k + requests (tracking w))%nat by lia.
      apply Hans. lia. }
  apply twp_elim in Ht as ([] & w2 & Hreg & Hvs & _ & Hruns & _).
  exists best, w1, w2. split; [exact Hsel|]. split; [exact Hreg|].
  split; [exact Hin|]. split; [|split; [exact Hvs | exact Hruns]].
  intros id Hid'. rewrite (r2_le_runs w2 w) by exact Hruns. apply Hmax, Hid'.
Qed.

End DagFacts.

Section Training.
Variable E : Env.
Variables (rs : list Run) (reg : gset string) (vs : list ModelVersion) (n : nat).
Variable x : gmap (string * string) xval.
Variable d : split.
Variables s0 s1 s2 s3 s4 : pyfloat * pyfloat * pyfloat.
Let k := length rs.
Let g (j : nat) := new_run_id E (k + j).
Hypothesis Hcsv : csv_present E = true.
Hypothesis Hu : unique_ids E rs.
Hypothesis Hans : answers E (mkWorld (mkTracking rs reg vs n) x) 43.
Hypothesis Hread :
  read_split E (local_copy E (new_run_id E (length rs)) "processed_data" ++ "/germany.csv") = Ok d.
Hypothesis Hlr : lr_scores E d = Ok s0.
Hypothesis H1 : rf_scores E d 4 4 = Ok s1.
Hypothesis H2 : rf_scores E d 4 10 = Ok s2.
Hypothesis H3 : rf_scores E d 25 4 = Ok s3.
Hypothesis H4 : rf_scores E d 25 10 = Ok s4.

Lemma train_lr_then_rf :
  exists w1 w2,
    task_process E (mkWorld (mkTracking rs reg vs n) x) = (Ok tt, w1)
    /\ task_lr E w1 = (Ok tt, w2)
    /\ task_rf E w2 =
       (Ok tt,
        mkWorld
          (mkTracking
             (rs ++ [process_record (g 0); lr_record (g 1) s0;
                     rf_record (g 2) 4 4 s1; rf_record (g 3) 4 10 s2;
                     rf_record (g 4) 25 4 s3; rf_record (g 5) 25 10 s4])
             reg vs (43 + n))
          (<[("model_rf", "run_id") := XList [g 2; g 3; g 4; g 5]]>
             (<[("model_lr", "run_id") := XList [g 1]]>
                (<[("process_data", "run_id") := XStr (g 0)]> x)))).
Proof.
  assert (Hg0 : new_run_id E (length rs) = g 0) by (unfold g, k; f_equal; lia).
  assert (Hp : forall l, find_run (g 0) (rs ++ process_record (g 0) :: l)
                         = Some (process_record (g 0))).
  { intros l. rewrite find_run_skip.
    - unfold find_run. cbn. rewrite bool_decide_eq_true_2 by reflexivity. reflexivity.
    - intros r Hin. rewrite <- Hg0. apply (unique_ids_fresh E rs r Hu Hin). }
  do 2 eexists. split; [|split].
  - unfold task_process. rewrite (process_data_run E _ rs reg vs n x Hcsv Hu).
    + reflexivity.
    + intros j Hj. apply Hans. lia.
  - unfold task_lr. fold (process_record (new_run_id E (length rs))). rewrite Hg0.
    rewrite (make_lr_run E _ _ reg vs (3 + n) _ (g 0) (process_record (g 0)) d s0).
    + reflexivity.
    + apply lookup_insert_eq.
    + apply (Hp []).
    + apply list_elem_of_here.
    + rewrite <- Hg0. exact Hread.
    + exact Hlr.
    + apply unique_ids_snoc; [exact Hu | symmetry; exact Hg0].
    + apply (answers_tail E rs reg vs n x _ _ _ _ 3 7 43 Hans). lia.
  - unfold task_rf.
    rewrite (make_rf_run E _ _ reg vs (7 + (3 + n)) _ (g 0) (process_record (g 0))
               d s1 s2 s3 s4).
    + cbv zeta. rewrite !length_app. cbn [length].
      replace (length rs + 1 + 1)%nat with (k + 2)%nat by (unfold k; lia).
      replace (S (k + 2)) with (k + 3)%nat by lia.
      replace (S (k + 3)) with (k + 4)%nat by lia.
      replace (S (k + 4)) with (k + 5)%nat by lia.
      replace (length rs + 1)%nat with (k + 1)%nat by (unfold k; lia).
      fold (g 1) (g 2) (g 3) (g 4) (g 5).
      rewrite <- !app_assoc. cbn [app].
      replace (33 + (7 + (3 + n)))%nat with (43 + n)%nat by lia.
      reflexivity.
    + rewrite lookup_insert_ne by discriminate. apply lookup_insert_eq.
    + rewrite <- app_assoc. apply Hp.
    + apply list_elem_of_here.
    + rewrite <- Hg0. exact Hread.
    + exact H1.
    + exact H2.
    + exact H3.
    + exact H4.
    + rewrite <- app_assoc. apply unique_ids_app; [exact Hu|].
      intros [|[|j]] r Hj; cbn in Hj; try discriminate; injection Hj as <-;
        cbn [run_id lr_record]; rewrite ?length_app; reflexivity.
    + replace (7 + (3 + n))%nat with (10 + n)%nat by lia.
      apply (answers_tail E rs reg vs n x _ _ _ _ 10 33 43 Hans). lia.
Qed.

Lemma train_rf_then_lr :
  exists w1 w2,
    task_process E (mkWorld (mkTracking rs reg vs n) x) = (Ok tt, w1)
    /\ task_rf E w1 = (Ok tt, w2)
    /\ task_lr E w2 =
       (Ok tt,
        mkWorld
          (mkTracking
             (rs ++ [process_record (g 0);
                     rf_record (g 1) 4 4 s1; rf_record (g 2) 4 10 s2;
                     rf_record (g 3) 25 4 s3; rf_record (g 4) 25 10 s4;
                     lr_record (g 5) s0])
             reg vs (43 + n))
          (<[("model_lr", "run_id") := XList [g 5]]>
             (<[("model_rf", "run_id") := XList [g 1; g 2; g 3; g 4]]>
                (<[("process_data", "run_id") := XStr (g 0)]> x)))).
Proof.
  assert (Hg0 : new_run_id E (length rs) = g 0) by (unfold g, k; f_equal; lia).
  assert (Hp : forall l, find_run (g 0) (rs ++ process_record (g 0) :: l)
                         = Some (process_record (g 0))).
  { intros l. rewrite find_run_skip.
    - unfold find_run. cbn. rewrite bool_decide_eq_true_2 by reflexivity. reflexivity.
    - intros r Hin. rewrite <- Hg0. apply (unique_ids_fresh E rs r Hu Hin). }
  do 2 eexists. split; [|split].
  - unfold task_process. rewrite (process_data_run E _ rs reg vs n x Hcsv Hu).
    + reflexivity.
    + intros j Hj. apply Hans. lia.
  - unfold task_rf. fold (process_record (new_run_id E (length rs))). rewrite Hg0.
    rewrite (make_rf_run E _ _ reg vs (3 + n) _ (g 0) (process_record (g 0))
               d s1 s2 s3 s4).
    + reflexivity.
    + apply lookup_insert_eq.
    + apply (Hp []).
    + apply list_elem_of_here.
    + rewrite <- Hg0. exact Hread.
    + exact H1.
    + exact H2.
    + exact H3.
    + exact H4.
    + apply unique_ids_snoc; [exact Hu | symmetry; exact Hg0].
    + apply (answers_tail E rs reg vs n x _ _ _ _ 3 33 43 Hans). lia.
  - unfold task_lr. cbv zeta.
    rewrite (make_lr_run E _ _ reg vs (33 + (3 + n)) _ (g 0) (process_record (g 0))
               d s0).
    + rewrite !length_app. cbn [length].
      replace (length rs + 1 + 4)%nat with (k + 5)%nat by (unfold k; lia).
      replace (length rs + 1)%nat with (k + 1)%nat by (unfold k; lia).
      replace (S (k + 1)) with (k + 2)%nat by lia.
      replace (S (k + 2)) with (k + 3)%nat by lia.
      replace (S (k + 3)) with (k + 4)%nat by lia.
      fold (g 1) (g 2) (g 3) (g 4) (g 5).
      rewrite <- !app_assoc. cbn [app].
      replace (7 + (33 + (3 + n)))%nat with (43 + n)%nat by lia.
      reflexivity.
    + rewrite lookup_insert_ne by discriminate. apply lookup_insert_eq.
    + rewrite <- app_assoc. apply Hp.
    + apply list_elem_of_here.
    + rewrite <- Hg0. exact Hread.
    + exact Hlr.
    + rewrite <- app_assoc. apply unique_ids_app; [exact Hu|].
      intros [|[|[|[|[|j]]]]] r Hj; cbn in Hj; try discriminate;
        injection Hj as <-; cbn [run_id rf_record]; rewrite ?length_app;
        cbn [length]; f_equal; lia.
    + replace (33 + (3 + n))%nat with (36 + n)%nat by lia.
      apply (answers_tail E rs reg vs n x _ _ _ _ 36 7 43 Hans). lia.
Qed.

End Training.

Lemma filter_all {A} (f : A -> bool) l :
  (forall a, a ∈ l -> f a = true) -> List.filter f l = l.
Proof.
  induction l as [|a l IH]; intros H; cbn; [reflexivity|].
  rewrite (H a) by apply list_elem_of_here.
  rewrite IH; [reflexivity|]. intros b Hb. apply H, list_elem_of_further, Hb.
Qed.

(** From a server holding the run of the Data Publisher and the runs of
    the trainers, all scored, to the model in Production. *)
Lemma promote_trained (E : Env) rs reg vs n3 x3 ms lids fids :
  let k := length rs in
  let w3 := mkWorld (mkTracking (rs ++ process_record (new_run_id E k) :: ms) reg vs n3) x3 in
  unique_ids E rs ->
  x3 !! ("model_lr", "run_id") = Some (XList lids) ->
  x3 !! ("model_rf", "run_id") = Some (XList fids) ->
  (lids ++ fids) ≡ₚ map run_id ms ->
  ms <> [] ->
  (forall j r, ms !! j = Some r ->
     run_id r = new_run_id E (k + S j) /\ run_name r <> "process"
     /\ exists v, metrics r !! "r2" = Some v /\ is_nan v = false) ->
  (forall j, (j < length ms)%nat ->
     new_run_id E (k + S j) <> "" /\ slash_free (new_run_id E (k + S j)) = true) ->
  version_free "BestModel" vs ->
  answers E w3 (length ms + 4) ->
  exists best w4 w5,
    task_get_best_model E w3 = (Ok tt, w4)
    /\ task_register_best_model E w4 = (Ok tt, w5)
    /\ model_runs k w5 = ms
    /\ (exists r, r ∈ ms /\ run_id r = best)
    /\ (forall r, r ∈ ms -> r2_le w5 (run_id r) best = true)
    /\ versions (tracking w5) =
         (vs ++ [mkVersion "BestModel" (next_version "BestModel" vs)
                   best "model" Production])%list.
Proof.
  intros k w3 Hu Hl Hf Hperm Hne Hms Hids Hfree Hans.
  assert (Hlen : length (lids ++ fids) = length ms)
    by (rewrite Hperm, length_map; reflexivity).
  assert (Hall : unique_ids E (rs ++ process_record (new_run_id E k) :: ms)).
  { apply unique_ids_app; [exact Hu|].
    intros [|j] r Hj; cbn in Hj.
    - injection Hj as <-. cbn. f_equal. unfold k. lia.
    - apply (Hms j r Hj). }
  assert (Hfind : forall j r, ms !! j = Some r ->
            find_run (run_id r) (runs (tracking w3)) = Some r).
  { intros j r Hj. destruct (Hms j r Hj) as (-> & _).
    apply (find_run_unique E _ _ r Hall).
    rewrite lookup_app_r by (unfold k; lia).
    replace (k + S j - length rs)%nat with (S j) by (unfold k; lia). exact Hj. }
  assert (Hin : forall id, id ∈ (lids ++ fids)%list ->
            exists j r, ms !! j = Some r /\ run_id r = id).
  { intros id Hid. rewrite Hperm in Hid.
    apply list_elem_of_fmap in Hid as (r & -> & Hr).
    apply list_elem_of_lookup in Hr as [j Hj]. eauto. }
  destruct (selection_then_promotion E w3 (lids ++ fids)%list)
    as (best & w4 & w5 & Hsel & Hreg & Hb & Hmax & Hvs & Hruns).
  - apply candidate_ids_lists; assumption.
  - intros Hnil. rewrite Hnil in Hlen. destruct ms; [congruence | discriminate].
  - intros id Hid. destruct (Hin id Hid) as (j & r & Hj & <-).
    destruct (Hms j r Hj) as (_ & _ & v & Hv). exists v.
    unfold r2_of. rewrite (Hfind j r Hj). exact Hv.
  - intros id Hid. destruct (Hin id Hid) as (j & r & Hj & <-).
    destruct (Hms j r Hj) as (-> & _). apply Hids.
    apply lookup_lt_Some in Hj. exact Hj.
  - exact Hfree.
  - rewrite Hlen. exact Hans.
  - exists best, w4, w5. split; [exact Hsel|]. split; [exact Hreg|].
    split; [|split; [|split; [|exact Hvs]]].
    + unfold model_runs. rewrite Hruns. cbn [runs tracking w3].
      unfold k. rewrite drop_app_length. cbn [List.filter process_record run_name].
      change (negb ("process" =? "process")%string) with false. cbv iota.
      apply filter_all. intros r Hr. apply list_elem_of_lookup in Hr as [j Hj].
      destruct (Hms j r Hj) as (_ & Hname & _).
      apply negb_true_iff, String.eqb_neq, Hname.
    + destruct (Hin best Hb) as (j & r & Hj & Hr). exists r. split; [|exact Hr].
      apply list_elem_of_lookup. eauto.
    + intros r Hr. apply Hmax. rewrite Hperm. apply list_elem_of_fmap. eauto.
Qed.

Lemma logged_r2 (s : pyfloat * pyfloat * pyfloat) : logged_metrics s !! "r2" = Some s.2.
Proof. destruct s as [[rmse mae] r2]. apply lookup_insert_eq. Qed.

Ltac run_task H :=
  erewrite dag_run_success; [| reflexivity | exact H]; cbn [app].

(** X18: the DAG run on a good day.  With germany.csv in place, a
    server that answers the fifty-two requests of the run and gives out
    unique, slash-free ids, a readable split, and estimators that fit
    and predict with metrics whose R² is not NaN, every task succeeds in
    either order the scheduler may take; five model runs are created,
    and the new version of "BestModel", in stage Production, is that of
    a model run whose R² is at least that of each of the five. *)
Theorem dag_run_promotes_best (E : Env) (order : list operator)
    (rs : list Run) (reg : gset string) (vs : list ModelVersion) (n : nat)
    (x : gmap (string * string) xval) (d : split) :
  let w := mkWorld (mkTracking rs reg vs n) x in
  schedule order = true ->
  csv_present E = true ->
  unique_ids E rs ->
  (forall j, (j < 5)%nat ->
     new_run_id E (length rs + S j) <> ""
     /\ slash_free (new_run_id E (length rs + S j)) = true) ->
  answers E w 52 ->
  read_split E (local_copy E (new_run_id E (length rs)) "processed_data"
                ++ "/germany.csv") = Ok d ->
  has_r2 (lr_scores E d) = true ->
  (forall ne md, ne ∈ [4; 25]%Z -> md ∈ [4; 10]%Z ->
     has_r2 (rf_scores E d ne md) = true) ->
  version_free "BestModel" vs ->
  exists best w',
    dag_run E order [] w = (map (fun t => (t, success)) order, w')
    /\ length (model_runs (length rs) w') = 5%nat
    /\ (exists r, r ∈ model_runs (length rs) w' /\ run_id r = best)
    /\ (forall r, r ∈ model_runs (length rs) w' -> r2_le w' (run_id r) best = true)
    /\ versions (tracking w') =
         (vs ++ [mkVersion "BestModel" (next_version "BestModel" vs)
                   best "model" Production])%list.
Proof.
  intros w Hs Hcsv Hu Hids Hans Hread Hlr Hrf Hfree.
  assert (Hok : forall r, has_r2 r = true ->
                exists s, r = Ok s /\ is_nan s.2 = false).
  { intros [[[rmse mae] r2]|e] H; [|discriminate].
    exists (rmse, mae, r2). split; [reflexivity|]. apply negb_true_iff, H. }
  destruct (Hok _ Hlr) as (s0 & H0 & Hv0).
  assert (Hsc : forall ne md, ne ∈ [4; 25]%Z -> md ∈ [4; 10]%Z ->
                exists s, rf_scores E d ne md = Ok s /\ is_nan s.2 = false).
  { intros ne md Hne Hmd. apply Hok, Hrf; assumption. }
  assert (Hfst : forall a b : Z, a ∈ [a; b]) by (intros; apply list_elem_of_here).
  assert (Hsnd : forall a b : Z, b ∈ [a; b])
    by (intros; apply list_elem_of_further, list_elem_of_here).
  destruct (Hsc 4%Z 4%Z) as (s1 & H1 & Hv1); [apply Hfst.. |].
  destruct (Hsc 4%Z 10%Z) as (s2 & H2 & Hv2); [apply Hfst | apply Hsnd |].
  destruct (Hsc 25%Z 4%Z) as (s3 & H3 & Hv3); [apply Hsnd | apply Hfst |].
  destruct (Hsc 25%Z 10%Z) as (s4 & H4 & Hv4); [apply Hsnd.. |].
  clear Hfst Hsnd.
  clear Hsc Hrf Hok Hlr.
  assert (Hans43 : answers E w 43) by (intros j Hj; apply Hans; lia).
  assert (Hg0 : new_run_id E (length rs + 0) = new_run_id E (length rs))
    by (f_equal; lia).
  destruct (schedule_cases order Hs) as [-> | ->].
  - destruct (train_lr_then_rf E rs reg vs n x d s0 s1 s2 s3 s4
                Hcsv Hu Hans43 Hread H0 H1 H2 H3 H4)
      as (w1 & w2 & Hrun1 & Hrun2 & Hrun3).
    cbv zeta in Hrun3. rewrite Hg0 in Hrun3.
    match type of Hrun3 with
    | _ = (_, mkWorld (mkTracking (rs ++ _ :: ?ms) _ _ _) ?x3) =>
        destruct (promote_trained E rs reg vs (43 + n) x3 ms
                    [new_run_id E (length rs + 1)]
                    [new_run_id E (length rs + 2); new_run_id E (length rs + 3);
                     new_run_id E (length rs + 4); new_run_id E (length rs + 5)])
          as (best & w4 & w5 & Hrun4 & Hrun5 & Hm & Hb & Hmax & Hvs);
          [exact Hu | | | | | | | exact Hfree | | ]
    end.
    + rewrite lookup_insert_ne by discriminate. apply lookup_insert_eq.
    + apply lookup_insert_eq.
    + reflexivity.
    + discriminate.
    + intros j r Hj.
      do 5 (destruct j as [|j];
            [cbn in Hj; injection Hj as <-;
             split; [reflexivity | split; [discriminate|]];
             cbn [metrics lr_record rf_record]; rewrite logged_r2;
             eexists; split; [reflexivity | assumption]|]).
      discriminate Hj.
    + intros j Hj. apply Hids. exact Hj.
    + apply (answers_tail E rs reg vs n x _ _ _ _ 43 9 52 Hans). cbn. lia.
    + exists best, w5. split; [|split; [rewrite Hm; reflexivity|]].
      * run_task Hrun1. run_task Hrun2. run_task Hrun3. run_task Hrun4.
        run_task Hrun5. reflexivity.
      * rewrite Hm. split; [exact Hb|]. split; [exact Hmax | exact Hvs].
  - destruct (train_rf_then_lr E rs reg vs n x d s0 s1 s2 s3 s4
                Hcsv Hu Hans43 Hread H0 H1 H2 H3 H4)
      as (w1 & w2 & Hrun1 & Hrun2 & Hrun3).
    cbv zeta in Hrun3. rewrite Hg0 in Hrun3.
    match type of Hrun3 with
    | _ = (_, mkWorld (mkTracking (rs ++ _ :: ?ms) _ _ _) ?x3) =>
        destruct (promote_trained E rs reg vs (43 + n) x3 ms
                    [new_run_id E (length rs + 5)]
                    [new_run_id E (length rs + 1); new_run_id E (length rs + 2);
                     new_run_id E (length rs + 3); new_run_id E (length rs + 4)])
          as (best & w4 & w5 & Hrun4 & Hrun5 & Hm & Hb & Hmax & Hvs);
          [exact Hu | | | | | | | exact Hfree | | ]
    end.
    + apply lookup_insert_eq.
    + rewrite lookup_insert_ne by discriminate. apply lookup_insert_eq.
    + cbn [app map run_id rf_record lr_record].
      apply (Permutation_cons_append [_; _; _; _]).
    + discriminate.
    + intros j r Hj.
      do 5 (destruct j as [|j];
            [cbn in Hj; injection Hj as <-;
             split; [reflexivity | split; [discriminate|]];
             cbn [metrics lr_record rf_record]; rewrite logged_r2;
             eexists; split; [reflexivity | assumption]|]).
      discriminate Hj.
    + intros j Hj. apply Hids. exact Hj.
    + apply (answers_tail E rs reg vs n x _ _ _ _ 43 9 52 Hans). cbn. lia.
    + exists best, w5. split; [|split; [rewrite Hm; reflexivity|]].
      * run_task Hrun1. run_task Hrun2. run_task Hrun3. run_task Hrun4.
        run_task Hrun5. reflexivity.
      * rewrite Hm. split; [exact Hb|]. split; [exact Hmax | exact Hvs].
Qed.

Lemma perfect_scores :
  Metrics.eval_metrics exact_format (y_test sample_split) (y_test sample_split)
  = Ok (Num 0, Num 0, Num 1).
Proof.
  apply MetricsPerfect.eval_metrics_same.
  - reflexivity.
  - cbn. lia.
  - change (Z.of_nat 2 <= 2 ^ 53)%Z. vm_compute. discriminate.
Qed.

Lemma dag_run_promotes_best_witness :
  exists best w',
    dag_run perfect_env
      [op_process; op_rf; op_lr; op_get_best_model; op_register_best_model] []
      (mkWorld (mkTracking [] ∅ [] 0) ∅)
    = (map (fun t => (t, success))
         [op_process; op_rf; op_lr; op_get_best_model; op_register_best_model], w')
    /\ length (model_runs (length (@nil Run)) w') = 5%nat
    /\ (exists r, r ∈ model_runs (length (@nil Run)) w' /\ run_id r = best)
    /\ (forall r, r ∈ model_runs (length (@nil Run)) w' ->
          r2_le w' (run_id r) best = true)
    /\ versions (tracking w') =
         ([] ++ [mkVersion "BestModel" (next_version "BestModel" [])
                   best "model" Production])%list.
Proof.
  apply (dag_run_promotes_best perfect_env
           [op_process; op_rf; op_lr; op_get_best_model; op_register_best_model]
           [] ∅ [] 0 ∅ sample_split).
  - reflexivity.
  - reflexivity.
  - split; [exact sample_ids_inj | intros i r Hi; discriminate Hi].
  - intros j Hj.
    do 5 (destruct j as [|j]; [split; [discriminate | reflexivity]|]). lia.
  - intros k Hk. reflexivity.
  - reflexivity.
  - unfold lr_scores.
    change (lr_fit_predict perfect_env _ _ _) with (Ok (y_test sample_split)).
    change (float_format perfect_env) with exact_format.
    cbv iota beta. rewrite perfect_scores. reflexivity.
  - intros ne md _ _. unfold rf_scores.
    change (rf_fit_predict perfect_env _ _ _ _ _) with (Ok (y_test sample_split)).
    change (float_format perfect_env) with exact_format.
    cbv iota beta. rewrite perfect_scores. reflexivity.
  - intros v Hv. apply elem_of_nil in Hv. destruct Hv.
Defined.

(** ** More on the metrics *)

(** X19: a prediction equal to the held-out targets, on two samples or
    more and with a number of output columns that is a float, scores
    RMSE 0, MAE 0 and R² 1 in every format, also where a target column
    is constant. *)
Theorem eval_metrics_perfect (F : format) (actual : Metrics.matrix) :
  Metrics.check_reg_targets actual actual = true ->
  (2 <= length actual)%nat ->
  (Z.of_nat (Metrics.n_outputs actual) <= exact_ints F)%Z ->
  Metrics.eval_metrics F actual actual = Ok (Num 0, Num 0, Num 1).
Proof.
  intros Hc Hlen Hfit.
  destruct (MetricsFacts.check_reg_targets_shape actual actual Hc)
    as (Hn & Hk & _).
  exact (MetricsPerfect.eval_metrics_same F actual Hc Hlen Hfit).
Qed.

Lemma eval_metrics_perfect_witness :
  Metrics.eval_metrics ranged_format (y_test sample_split) (y_test sample_split)
  = Ok (Num 0, Num 0, Num 1).
Proof.
  apply (eval_metrics_perfect ranged_format (y_test sample_split)).
  - reflexivity.
  - cbn. lia.
  - change (Z.of_nat 2 <= 2 ^ 53)%Z. vm_compute. discriminate.
Defined.
